(** * m4s-converter: cache walk, header repair, session resolution, muxing

    A shallow embedding of [common/util.go] and [main.go].

    Go strings are immutable byte sequences; they are modelled as
    [list ascii], and a Rocq string literal is read as the list of its
    bytes (a literal such as "《" is the three bytes of its UTF-8
    encoding, exactly as in the Go source file). *)

From Stdlib Require Import String Ascii NArith ZArith List Lia Bool DecimalString DecimalPos.
From stdpp Require Import base option list strings gmap.

Set Warnings "-register-all".
Open Scope string_scope.
Open Scope list_scope.

Abbreviation gostring := (list ascii) (only parsing).
Coercion list_ascii_of_string : string >-> list.

(** [byte c] is the numeric value of a byte, [at_ s i] is Go's [s[i]]. *)
Definition byte (c : ascii) : N := N_of_ascii c.
Definition at_ (s : gostring) (i : nat) : N := byte (nth i s Ascii.zero).

(** ** Package [unicode/utf8] *)
Module utf8.
Local Open Scope N_scope.

Definition RuneError : N := 0xFFFD.
Definition RuneSelf : N := 0x80.
Definition UTFMax : nat := 4%nat.

(** The information byte of the [first] table: size in the low three
    bits, index into [acceptRanges] in the high four. *)
Definition xx : N := 0xF1.
Definition as_ : N := 0xF0.
Definition s1 : N := 0x02.
Definition s2 : N := 0x13.
Definition s3 : N := 0x03.
Definition s4 : N := 0x23.
Definition s5 : N := 0x34.
Definition s6 : N := 0x04.
Definition s7 : N := 0x44.

Definition first (b : N) : N :=
  if b <? 0x80 then as_
  else if b <? 0xC2 then xx
  else if b <? 0xE0 then s1
  else if b =? 0xE0 then s2
  else if b <? 0xED then s3
  else if b =? 0xED then s4
  else if b <? 0xF0 then s3
  else if b =? 0xF0 then s5
  else if b <? 0xF4 then s6
  else if b =? 0xF4 then s7
  else xx.

Definition locb : N := 0x80.
Definition hicb : N := 0xBF.

(** [acceptRanges] has sixteen entries, of which five are set. *)
Definition acceptRanges (i : N) : N * N :=
  match i with
  | 0 => (locb, hicb)
  | 1 => (0xA0, hicb)
  | 2 => (locb, 0x9F)
  | 3 => (0x90, hicb)
  | 4 => (locb, 0x8F)
  | _ => (0, 0)
  end%N.

Definition maskx : N := 0x3F.
Definition mask2 : N := 0x1F.
Definition mask3 : N := 0x0F.
Definition mask4 : N := 0x07.

Definition DecodeRuneInString (s : gostring) : N * nat :=
  match s with
  | [] => (RuneError, 0%nat)
  | c0 :: t =>
      let s0 := byte c0 in
      let x := first s0 in
      if as_ <=? x then ((if x =? as_ then s0 else RuneError), 1%nat)
      else
        let sz := N.to_nat (N.land x 7) in
        let accept := acceptRanges (N.shiftr x 4) in
        if (length s <? sz)%nat then (RuneError, 1%nat)
        else
          let b1 := at_ s 1 in
          if (b1 <? fst accept) || (snd accept <? b1) then (RuneError, 1%nat)
          else if (sz <=? 2)%nat then
            (N.lor (N.shiftl (N.land s0 mask2) 6) (N.land b1 maskx), 2%nat)
          else
            let b2 := at_ s 2 in
            if (b2 <? locb) || (hicb <? b2) then (RuneError, 1%nat)
            else if (sz <=? 3)%nat then
              (N.lor (N.lor (N.shiftl (N.land s0 mask3) 12)
                            (N.shiftl (N.land b1 maskx) 6))
                     (N.land b2 maskx), 3%nat)
            else
              let b3 := at_ s 3 in
              if (b3 <? locb) || (hicb <? b3) then (RuneError, 1%nat)
              else
                (N.lor (N.lor (N.lor (N.shiftl (N.land s0 mask4) 18)
                                     (N.shiftl (N.land b1 maskx) 12))
                              (N.shiftl (N.land b2 maskx) 6))
                       (N.land b3 maskx), 4%nat)
  end.

Definition RuneStart (b : N) : bool := negb (N.land b 0xC0 =? 0x80)%N.

(** The backward scan of [DecodeLastRuneInString]:
    [for start--; start >= lim; start-- { if RuneStart(s[start]) { break } }]
    followed by [if start < 0 { start = 0 }].  The argument [n] is
    [start + 1] for the value of [start] about to be tested, so that
    [n = 0] stands for [start = -1]. *)
Fixpoint lastStart (s : gostring) (lim n : nat) : nat :=
  match n with
  | O => O
  | S start =>
      if (start <? lim)%nat then start
      else if RuneStart (at_ s start) then start
      else lastStart s lim start
  end.

Definition DecodeLastRuneInString (s : gostring) : N * nat :=
  let end_ := length s in
  if (end_ =? 0)%nat then (RuneError, 0%nat)
  else
    let r := at_ s (end_ - 1)%nat in
    if (r <? RuneSelf)%N then (r, 1%nat)
    else
      let lim := (end_ - UTFMax)%nat in
      let start := lastStart s lim (end_ - 1)%nat in
      let '(r, size) := DecodeRuneInString (drop start s) in
      if (start + size =? end_)%nat then (r, size) else (RuneError, 1%nat).

End utf8.

(** ** Package [unicode] *)
Module unicode.
Local Open Scope N_scope.

Definition MaxLatin1 : N := 0xFF.

(** The 16-bit ranges of the [White_Space] table. *)
Definition White_Space : list (N * N) :=
  [ (0x0009, 0x000d); (0x0020, 0x0020); (0x0085, 0x0085); (0x00a0, 0x00a0);
    (0x1680, 0x1680); (0x2000, 0x200a); (0x2028, 0x2029); (0x202f, 0x202f);
    (0x205f, 0x205f); (0x3000, 0x3000) ]%N.

Definition is16 (ranges : list (N * N)) (r : N) : bool :=
  existsb (fun '(lo, hi) => (lo <=? r) && (r <=? hi))%N ranges.

Definition IsSpace (r : N) : bool :=
  if (r <=? MaxLatin1)%N then
    match r with
    | 0x09 | 0x0A | 0x0B | 0x0C | 0x0D | 0x20 | 0x85 | 0xA0 => true
    | _ => false
    end%N
  else is16 White_Space r.

End unicode.

(** ** Package [strings] *)
Module strings.

Fixpoint HasPrefix (s prefix : gostring) : bool :=
  match prefix, s with
  | [], _ => true
  | _ :: _, [] => false
  | p :: prefix', c :: s' => if Ascii.eqb c p then HasPrefix s' prefix' else false
  end.

(** [Index] returns the index of the first instance of [substr], [None]
    standing for Go's [-1]. *)
Fixpoint Index (s substr : gostring) : option nat :=
  if HasPrefix s substr then Some 0
  else match s with
       | [] => None
       | _ :: s' => S <$> Index s' substr
       end.

Definition Contains (s substr : gostring) : bool :=
  match Index s substr with Some _ => true | None => false end.

(** [Replace] with [n < 0] and a non-empty [old]: every iteration looks
    for the next instance in [s[start:]], writes [s[start:j]] and [new],
    and continues after the instance.  The fuel bounds the iterations;
    [length s] is always enough, since every instance is non-empty. *)
Fixpoint replaceEach (fuel : nat) (s old new : gostring) : gostring :=
  match fuel with
  | 0 => s
  | S fuel' =>
      match Index s old with
      | None => s
      | Some j =>
          take j s ++ new ++ replaceEach fuel' (drop (j + length old) s) old new
      end
  end.

(** [Replace] with [n < 0] and an empty [old]: [new] is written before
    the first rune (by the caller below) and after every rune. *)
Fixpoint replaceEmpty (fuel : nat) (s new : gostring) : gostring :=
  match fuel with
  | 0 => []
  | S fuel' =>
      match s with
      | [] => []
      | _ :: _ =>
          let wid := snd (utf8.DecodeRuneInString s) in
          take wid s ++ new ++ replaceEmpty fuel' (drop wid s) new
      end
  end.

Definition ReplaceAll (s old new : gostring) : gostring :=
  if bool_decide (old = new) then s
  else match old with
       | [] => new ++ replaceEmpty (length s) s new
       | _ :: _ => replaceEach (length s) s old new
       end.

Definition asciiSpace (b : N) : bool :=
  match b with
  | 0x09 | 0x0A | 0x0B | 0x0C | 0x0D | 0x20 => true
  | _ => false
  end%N.

(** [for i, r := range s { if f(r) == truth { return i } }; return -1],
    started at byte offset [i] with [s] the rest of the string. *)
Fixpoint indexFuncFrom (fuel i : nat) (s : gostring) (f : N -> bool)
    (truth : bool) : option nat :=
  match fuel with
  | 0 => None
  | S fuel' =>
      match s with
      | [] => None
      | _ :: _ =>
          let '(r, wid) := utf8.DecodeRuneInString s in
          if Bool.eqb (f r) truth then Some i
          else indexFuncFrom fuel' (i + wid) (drop wid s) f truth
      end
  end.

Definition indexFunc (s : gostring) (f : N -> bool) (truth : bool) : option nat :=
  indexFuncFrom (length s) 0 s f truth.

(** [for i := len(s); i > 0; { r, size := DecodeLastRuneInString(s[0:i]);
    i -= size; if f(r) == truth { return i } }; return -1]. *)
Fixpoint lastIndexFuncFrom (fuel i : nat) (s : gostring) (f : N -> bool)
    (truth : bool) : option nat :=
  match fuel with
  | 0 => None
  | S fuel' =>
      if (i =? 0)%nat then None
      else
        let '(r, size) := utf8.DecodeLastRuneInString (take i s) in
        let i' := i - size in
        if Bool.eqb (f r) truth then Some i'
        else lastIndexFuncFrom fuel' i' s f truth
  end.

Definition lastIndexFunc (s : gostring) (f : N -> bool) (truth : bool) : option nat :=
  lastIndexFuncFrom (length s) (length s) s f truth.

Definition TrimLeftFunc (s : gostring) (f : N -> bool) : gostring :=
  match indexFunc s f false with
  | None => []
  | Some i => drop i s
  end.

Definition TrimRightFunc (s : gostring) (f : N -> bool) : gostring :=
  match lastIndexFunc s f false with
  | Some i =>
      if (utf8.RuneSelf <=? at_ s i)%N
      then take (i + snd (utf8.DecodeRuneInString (drop i s))) s
      else take (i + 1) s
  | None => take 0 s
  end.

Definition TrimFunc (s : gostring) (f : N -> bool) : gostring :=
  TrimRightFunc (TrimLeftFunc s f) f.

(** The second loop of [TrimSpace], on [t = s[start:]], with [stop]
    counted from [start]: [for ; stop > start; stop--]. *)
Fixpoint trimSpaceStop (t : gostring) (stop : nat) : gostring :=
  match stop with
  | 0 => take 0 t
  | S k =>
      let c := at_ t k in
      if (utf8.RuneSelf <=? c)%N then TrimRightFunc (take (S k) t) unicode.IsSpace
      else if asciiSpace c then trimSpaceStop t k
      else take (S k) t
  end.

(** The first loop of [TrimSpace]: [for ; start < len(s); start++];
    the recursion on the list is the increment of [start]. *)
Fixpoint TrimSpace (s : gostring) : gostring :=
  match s with
  | [] => trimSpaceStop [] 0
  | c :: t =>
      if (utf8.RuneSelf <=? byte c)%N then TrimFunc s unicode.IsSpace
      else if asciiSpace (byte c) then TrimSpace t
      else trimSpaceStop s (length s)
  end.

Fixpoint Join (elems : list (list ascii)) (sep : gostring) : gostring :=
  match elems with
  | [] => []
  | [x] => x
  | x :: rest => x ++ sep ++ Join rest sep
  end.

End strings.

(** ** Package [strconv] *)
Module strconv.

Definition Itoa (i : Z) : gostring := NilZero.string_of_int (Z.to_int i).

End strconv.

(** ** Errors, directory entries, the process state *)

(** Go's [error] values as this program meets them: the [*fs.PathError]
    of a failed file operation and plain messages.  [fs.SkipDir] and
    [fs.SkipAll] are sentinels that only a walk callback can create;
    no callback of this program does, so they are not values of this
    type and the branches of the walks that test for them are absent. *)
Inductive error : Type :=
  | PathError (op path why : gostring)
  | ErrorString (msg : gostring).

Definition ErrorText (e : error) : gostring :=
  match e with
  | PathError op path why => op ++ " " ++ path ++ ": " ++ why
  | ErrorString msg => msg
  end.

(** [fmt.Sprint] of an [error] operand, [nil] included. *)
Definition SprintErr (e : option error) : gostring :=
  match e with
  | Some e => ErrorText e
  | None => "<nil>"
  end.

(** What a walk observes below a path: a file, a directory with the
    result of listing it (the entries in the order the library yields
    them, which is the lexical order of their names, and the listing
    error if any), or a name whose [Lstat] fails. *)
Inductive Node : Type :=
  | File (name : gostring)
  | Directory (name : gostring) (readErr : option error) (entries : list Node)
  | Broken (name : gostring) (lstatErr : error).

Definition Name (d : Node) : gostring :=
  match d with
  | File name | Directory name _ _ | Broken name _ => name
  end.

Definition IsDir (d : Node) : bool :=
  match d with
  | Directory _ _ _ => true
  | _ => false
  end.

(** Where a line goes: the four levels of [logrus] this program uses
    ([Print] also stands for [fmt.Print]), and the message box. *)
Inductive Level : Type := LInfo | LWarn | LError | LPrint | LMessageBox.

Record Config : Type := mkConfig {
  FFMpegPath : gostring;
  CachePath : gostring;
  Overlay : gostring;
  AssPath : gostring;
  AssOFF : bool
}.

(** The state of the process and of the disk it works on: the
    configuration (shared through the [*Config] receiver), the regular
    files with their contents, the directories, the paths at which
    creating a file or a directory is refused, the log, and the
    commands started so far. *)
Record State : Type := mkState {
  config : Config;
  files : gmap (list ascii) (list ascii);
  dirs : gset (list ascii);
  denied : gset (list ascii);
  log : list (Level * list ascii);
  started : list (list ascii * list (list ascii))
}.

Inductive Outcome (A : Type) : Type :=
  | Ret (a : A) (σ : State)
  | Exit (code : Z) (σ : State)
  | Panic (msg : gostring) (σ : State).
Arguments Ret {A} a σ.
Arguments Exit {A} code σ.
Arguments Panic {A} msg σ.

Definition M (A : Type) : Type := State -> Outcome A.

Definition ret {A} (a : A) : M A := fun σ => Ret a σ.

Definition bind {A B} (m : M A) (k : A -> M B) : M B :=
  fun σ =>
    match m σ with
    | Ret a σ' => k a σ'
    | Exit code σ' => Exit code σ'
    | Panic msg σ' => Panic msg σ'
    end.

Declare Scope go_scope.
Delimit Scope go_scope with go.
Notation "'let*' x ':=' m 'in' k" := (bind m (fun x => k))
  (at level 10, x pattern, m at level 100, k at level 200) : go_scope.
Notation "m ';;' k" := (bind m (fun _ => k))
  (at level 100, k at level 200, right associativity) : go_scope.
Open Scope go_scope.

Definition get : M State := fun σ => Ret σ σ.
Definition modify (f : State -> State) : M unit := fun σ => Ret tt (f σ).
Definition osExit {A} (code : Z) : M A := fun σ => Exit code σ.
Definition panic {A} (msg : gostring) : M A := fun σ => Panic msg σ.

Definition set_config (c : Config) (σ : State) : State :=
  mkState c (files σ) (dirs σ) (denied σ) (log σ) (started σ).
Definition set_files (fs : gmap (list ascii) (list ascii)) (σ : State) : State :=
  mkState (config σ) fs (dirs σ) (denied σ) (log σ) (started σ).
Definition set_dirs (ds : gset (list ascii)) (σ : State) : State :=
  mkState (config σ) (files σ) ds (denied σ) (log σ) (started σ).
Definition add_log (l : Level) (msg : gostring) (σ : State) : State :=
  mkState (config σ) (files σ) (dirs σ) (denied σ) (log σ ++ [(l, msg)]) (started σ).
Definition add_started (path : gostring) (args : list (list ascii)) (σ : State) : State :=
  mkState (config σ) (files σ) (dirs σ) (denied σ) (log σ) (started σ ++ [(path, args)]).

(** ** What the program imports and the sources do not contain *)

(** Package [conver] is imported by both source files and is not among
    them: its suffix constants and the subtitle converter are
    parameters of the development. *)
Class Conver : Type := {
  M4sSuffix : gostring;
  AudioSuffix : gostring;
  VideoSuffix : gostring;
  XmlSuffix : gostring;
  AssSuffix : gostring;
  PlayUrlSuffix : gostring;
  VideoInfoSuffix : gostring;
  VideoInfoJson : gostring;
  Mp4Suffix : gostring;
  Xml2ass : gostring -> gostring
}.

(** Modelled from the spec: the type [conver.PlayUrl] is declared in
    package [conver].  It has the fields [GetVAId] reads,
    [p.Data.Dash.Video[0].ID] and [p.Data.Dash.Audio[0].ID]: the arrays
    of the video and audio streams of the manifest, each stream with
    its numeric identifier. *)
Record Stream : Type := mkStream { ID : Z }.
Record DashT : Type := mkDash { Video : list Stream; Audio : list Stream }.
Record DataT : Type := mkData { Dash : DashT }.
Record PlayUrl : Type := mkPlayUrl { Data : DataT }.

(** The run of a command: [cmd.Start] fails, or the command runs and
    [cmd.Wait] returns an error or none. *)
Inductive Process : Type :=
  | StartFails (e : error)
  | Waited (e : option error).

(** What the operating system and the other libraries decide:
    path arithmetic of [path/filepath] ([Join], [Dir], [Base]), the
    decoder of [encoding/json] at the type [conver.PlayUrl], the
    decoder of [go-simplejson] with the string under a key of the
    decoded object, the download of [common.DownloadFile] (a file of
    package [common] that is not among the sources), the tree a walk
    observes when it starts at a path in a state, and the run of a
    command. *)
Class Host : Type := {
  Join : gostring -> gostring -> gostring;
  Dir : gostring -> gostring;
  Base : gostring -> gostring;
  Unmarshal : gostring -> PlayUrl + error;
  Json : Type;
  NewJson : gostring -> Json + error;
  GetString : Json -> gostring -> gostring * option error;
  DownloadFile : gostring -> gostring -> option error;
  Tree : State -> gostring -> Node;
  Run : State -> gostring -> list (list ascii) -> Process
}.

(** ** Package [path/filepath] *)
Module filepath.

(** The program is built for Windows, where both slashes separate. *)
Definition IsPathSeparator (c : N) : bool := (c =? 0x5C)%N || (c =? 0x2F)%N.

(** [for i := len(path) - 1; i >= 0 && !IsPathSeparator(path[i]); i--],
    with [n = i + 1]. *)
Fixpoint extFrom (path : gostring) (n : nat) : gostring :=
  match n with
  | 0 => []
  | S i =>
      if IsPathSeparator (at_ path i) then []
      else if (at_ path i =? 0x2E)%N then drop i path
      else extFrom path i
  end.

Definition Ext (path : gostring) : gostring := extFrom path (length path).

Section Walks.
Context {host : Host} {A : Type}.

(** A walk callback with the variables it captures: the captured
    variables go in and come out as the accumulator. *)
Definition WalkFunc : Type :=
  A -> gostring -> Node -> option error -> M (option error * A).

(** [walkDir] of [WalkDir]: the callback first, then the listing, a
    second call that reports a listing error, then the entries.  The
    entries come from the listing and are not [Lstat]ed: a name whose
    [Lstat] would fail is walked as an entry that is no directory. *)
Fixpoint walkDir (path : gostring) (d : Node) (fn : WalkFunc) (a : A)
    : M (option error * A) :=
  match d with
  | Directory _ readErr entries =>
      let* (err, a) := fn a path d None in
      match err with
      | Some e => ret (Some e, a)
      | None =>
          let* (err, a) :=
            match readErr with
            | Some e => fn a path d (Some e)
            | None => ret (None, a)
            end in
          match err with
          | Some e => ret (Some e, a)
          | None =>
              (fix loop (ds : list Node) (a : A) : M (option error * A) :=
                 match ds with
                 | [] => ret (None, a)
                 | d1 :: ds' =>
                     let* (err, a) := walkDir (Join path (Name d1)) d1 fn a in
                     match err with
                     | Some e => ret (Some e, a)
                     | None => loop ds' a
                     end
                 end) entries a
          end
      end
  | _ => fn a path d None
  end.

(** [WalkDir]: the root is [Lstat]ed; when that fails the callback is
    told and the walk is over. *)
Definition WalkDir (root : gostring) (fn : WalkFunc) (a : A) : M (option error * A) :=
  let* σ := get in
  match Tree σ root with
  | Broken name e => fn a root (Broken name e) (Some e)
  | info => walkDir root info fn a
  end.

(** [walk] of [Walk]: a directory is listed before the callback sees
    it, and every entry is [Lstat]ed before it is walked. *)
Fixpoint walk (path : gostring) (info : Node) (walkFn : WalkFunc) (a : A)
    : M (option error * A) :=
  match info with
  | Directory _ readErr names =>
      let* (err1, a) := walkFn a path info readErr in
      match readErr, err1 with
      | None, None =>
          (fix loop (ns : list Node) (a : A) : M (option error * A) :=
             match ns with
             | [] => ret (None, a)
             | fileInfo :: ns' =>
                 let filename := Join path (Name fileInfo) in
                 let* (err, a) :=
                   match fileInfo with
                   | Broken _ e => walkFn a filename fileInfo (Some e)
                   | _ => walk filename fileInfo walkFn a
                   end in
                 match err with
                 | Some e => ret (Some e, a)
                 | None => loop ns' a
                 end
             end) names a
      | _, _ => ret (err1, a)
      end
  | _ => walkFn a path info None
  end.

Definition Walk (root : gostring) (fn : WalkFunc) (a : A) : M (option error * A) :=
  let* σ := get in
  match Tree σ root with
  | Broken name e => fn a root (Broken name e) (Some e)
  | info => walk root info fn a
  end.

(** The calls a walk makes when no callback stops it, in order: the
    path, the entry and the error each call receives. *)
Fixpoint walkDirCalls (path : gostring) (d : Node)
    : list (list ascii * Node * option error) :=
  match d with
  | Directory _ readErr entries =>
      (path, d, None)
      :: match readErr with
         | Some e => [(path, d, Some e)]
         | None => []
         end
      ++ (fix each (ds : list Node) : list (list ascii * Node * option error) :=
            match ds with
            | [] => []
            | d1 :: ds' => walkDirCalls (Join path (Name d1)) d1 ++ each ds'
            end) entries
  | _ => [(path, d, None)]
  end.

Fixpoint walkCalls (path : gostring) (info : Node)
    : list (list ascii * Node * option error) :=
  match info with
  | Directory _ readErr names =>
      (path, info, readErr)
      :: match readErr with
         | Some _ => []
         | None =>
             (fix each (ns : list Node) : list (list ascii * Node * option error) :=
                match ns with
                | [] => []
                | fileInfo :: ns' =>
                    match fileInfo with
                    | Broken _ e => [(Join path (Name fileInfo), fileInfo, Some e)]
                    | _ => walkCalls (Join path (Name fileInfo)) fileInfo
                    end ++ each ns'
                end) names
         end
  | _ => [(path, info, None)]
  end.

(** The calls of a whole walk: the root itself may fail its [Lstat]. *)
Definition rootCalls (calls : gostring -> Node -> list (list ascii * Node * option error))
    (root : gostring) (info : Node) : list (list ascii * Node * option error) :=
  match info with
  | Broken _ e => [(root, info, Some e)]
  | _ => calls root info
  end.

(** Calls made one after the other, up to the first that returns an error. *)
Fixpoint runCalls (fn : WalkFunc) (calls : list (list ascii * Node * option error))
    (a : A) : M (option error * A) :=
  match calls with
  | [] => ret (None, a)
  | (path, d, err) :: rest =>
      let* (err, a) := fn a path d err in
      match err with
      | Some e => ret (Some e, a)
      | None => runCalls fn rest a
      end
  end.

End Walks.
End filepath.

(** ** Packages [os] and [io] *)

(** An open file: the path it was opened at and the current offset. *)
Record OsFile : Type := mkFile { fname : gostring; offset : nat }.

Module os.

Definition Stat (name : gostring) (σ : State) : bool :=
  bool_decide (is_Some (files σ !! name) ∨ name ∈ dirs σ).

(** [Open] succeeds on files and on directories alike. *)
Definition Open (name : gostring) : M (OsFile + error) :=
  let* σ := get in
  if Stat name σ then ret (inl (mkFile name 0))
  else ret (inr (PathError "open" name "The system cannot find the file specified.")).

(** [Create] truncates an existing file and makes a missing one; it is
    refused for the empty path, for a directory and where the disk
    denies it (a missing parent directory, a read-only place). *)
Definition Create (name : gostring) : M (OsFile + error) :=
  let* σ := get in
  if bool_decide (name = [] ∨ name ∈ dirs σ ∨ name ∈ denied σ)
  then ret (inr (PathError "open" name "The system cannot find the path specified."))
  else modify (set_files (<[name := []]> (files σ)));; ret (inl (mkFile name 0)).

Definition ReadFile (name : gostring) : M (list ascii + error) :=
  let* σ := get in
  match files σ !! name with
  | Some content => ret (inl content)
  | None => ret (inr (PathError "open" name "The system cannot find the file specified."))
  end.

Definition Mkdir (name : gostring) : M (option error) :=
  let* σ := get in
  if Stat name σ
  then ret (Some (PathError "mkdir" name "Cannot create a file when that file already exists."))
  else if bool_decide (name = [] ∨ name ∈ denied σ)
  then ret (Some (PathError "mkdir" name "The system cannot find the path specified."))
  else modify (set_dirs ({[name]} ∪ dirs σ));; ret None.

(** [f.Seek(offset, 0)]: from the start of the file. *)
Definition Seek (f : OsFile) (off : nat) : M (OsFile * option error) :=
  ret (mkFile (fname f) off, None).

End os.

Module io.

Definition EOF : error := ErrorString "EOF".
Definition ErrUnexpectedEOF : error := ErrorString "unexpected EOF".
Definition ErrShortBuffer : error := ErrorString "short buffer".

(** [ReadAtLeast(r, buf, min)]: the bytes read overwrite the front of
    [buf]; the rest of [buf] keeps what it held. *)
Definition ReadAtLeast (r : OsFile) (buf : gostring) (min : nat)
    : M (OsFile * list ascii * option error) :=
  let* σ := get in
  if (length buf <? min)%nat then ret (r, buf, Some ErrShortBuffer)
  else
    match files σ !! fname r with
    | Some content =>
        let got := take (length buf) (drop (offset r) content) in
        let n := length got in
        ret (mkFile (fname r) (offset r + n), got ++ drop n buf,
             if (min <=? n)%nat then None
             else if (n =? 0)%nat then Some EOF else Some ErrUnexpectedEOF)
    | None => ret (r, buf, Some (PathError "read" (fname r) "Incorrect function."))
    end.

(** [Copy(dst, src)]: everything from the offset of [src] to its end is
    written at the offset of [dst].  Both handles read the disk as it
    is now: a source that is the file just truncated is empty. *)
Definition Copy (dst src : OsFile) : M (option error) :=
  let* σ := get in
  match files σ !! fname src with
  | Some content =>
      let data := drop (offset src) content in
      let old := default [] (files σ !! fname dst) in
      modify (set_files (<[fname dst :=
                take (offset dst) old ++ data ++ drop (offset dst + length data) old]>
              (files σ)));;
      ret None
  | None => ret (Some (PathError "read" (fname src) "Incorrect function."))
  end.

End io.

(** ** Package [logrus] and the message box *)
Module logrus.
Definition Info (msg : gostring) : M unit := modify (add_log LInfo msg).
Definition Warn (msg : gostring) : M unit := modify (add_log LWarn msg).
Definition Error (msg : gostring) : M unit := modify (add_log LError msg).
Definition Print (msg : gostring) : M unit := modify (add_log LPrint msg).
End logrus.

(** ** Package [common] *)
Section Common.
Context {conver : Conver} {host : Host}.

Definition MessageBox (text : gostring) : M unit :=
  logrus.Error text;; modify (add_log LMessageBox text).

Definition copyFile (src dst : gostring) (fn : OsFile -> M OsFile) : M (option error) :=
  let* r := os.Open src in
  match r with
  | inr err => ret (Some err)
  | inl srcFile =>
      let* srcFile := fn srcFile in
      let* r := os.Create dst in
      match r with
      | inr err => ret (Some err)
      | inl dstFile =>
          let* err := io.Copy dstFile srcFile in
          match err with
          | Some err => ret (Some err)
          | None => ret None
          end
      end
  end.

Definition M4sToAV (src dst : gostring) : M (option error) :=
  copyFile src dst (fun srcFile =>
    let data := replicate 9 Ascii.zero in
    let* (srcFile, data, _) := io.ReadAtLeast srcFile data 9 in
    if bool_decide (data ≠ "000000000")
    then logrus.Error "音视频文件不是9个0的头，跳过转换";; ret srcFile
    else
      let* (srcFile, err) := os.Seek srcFile 9 in
      match err with
      | Some e => logrus.Error ("文件字节偏移失败: " ++ ErrorText e);; ret srcFile
      | None => ret srcFile
      end).

(** [p.Data.Dash.Video[0]]: indexing an empty slice panics. *)
Definition index0 {T} (l : list T) : M T :=
  match l with
  | x :: _ => ret x
  | [] => panic "runtime error: index out of range [0] with length 0"
  end.

Definition GetVAId (patch : gostring) : M (list ascii * list ascii) :=
  let pu := Join (Dir patch) PlayUrlSuffix in
  let* r := os.ReadFile pu in
  match r with
  | inr e => logrus.Error ("找不到.playurl文件: " ++ pu);; ret ([], [])
  | inl puDate =>
      match Unmarshal puDate with
      | inr err => logrus.Error ("解析.playurl文件失败: " ++ ErrorText err);; ret ([], [])
      | inl p =>
          let* v := index0 (Video (Dash (Data p))) in
          let* a := index0 (Audio (Dash (Data p))) in
          ret (strconv.Itoa (ID v), strconv.Itoa (ID a))
      end
  end.

(** The value [FindM4sFiles] gives its variable [dst]: it stays empty
    unless both identifiers are there. *)
Definition destination (src name videoId audioId : gostring) : gostring :=
  if bool_decide (videoId ≠ []) && bool_decide (audioId ≠ []) then
    if strings.Contains name audioId
    then strings.ReplaceAll src M4sSuffix AudioSuffix
    else strings.ReplaceAll src M4sSuffix VideoSuffix
  else [].

Definition FindM4sFiles : filepath.WalkFunc (A := unit) :=
  fun _ src info err =>
    match err with
    | Some err => ret (Some err, tt)
    | None =>
        if bool_decide (filepath.Ext (Name info) = M4sSuffix) then
          let* (videoId, audioId) := GetVAId src in
          let dst := destination src (Name info) videoId audioId in
          let* err := M4sToAV src dst in
          match err with
          | Some err =>
              MessageBox (src ++ " 转换异常：" ++ ErrorText err);;
              ret (Some err, tt)
          | None =>
              logrus.Info ("已将m4s转换为音视频文件:" ++ dst);;
              ret (None, tt)
          end
        else ret (None, tt)
    end.

Definition GetCacheDir (cachePath : gostring) : M (list (list ascii) * option error) :=
  let* (err, dirs) :=
    filepath.Walk cachePath (fun dirs path info err =>
      match err with
      | Some err => ret (Some err, dirs)
      | None =>
          if IsDir info && bool_decide (path ≠ cachePath) then
            if negb (strings.Contains path "output")
            then ret (None, dirs ++ [path])
            else ret (None, dirs)
          else ret (None, dirs)
      end) [] in
  match err with
  | Some err => ret ([], Some err)
  | None => ret (dirs, None)
  end.

Definition joinUrl (cid : gostring) : gostring :=
  "https://comment.bilibili.com/" ++ cid ++ XmlSuffix.

(** The closure that [GetAudioAndVideo] hands to [filepath.Walk];
    [video] and [audio] are the two variables it captures. *)
Definition findAudioAndVideo : filepath.WalkFunc (A := list ascii * list ascii) :=
  fun '(video, audio) path info err =>
    match err with
    | Some err => ret (Some err, (video, audio))
    | None =>
        if negb (IsDir info) then
          let video := if strings.Contains path VideoSuffix then path else video in
          let audio := if strings.Contains path AudioSuffix then path else audio in
          ret (None, (video, audio))
        else
          let* σ := get in
          let c := config σ in
          if negb (AssOFF c) then
            let xmlPath := Join path (Name info ++ XmlSuffix) in
            match DownloadFile (joinUrl (Name info)) xmlPath with
            | Some e =>
                logrus.Warn ("XML弹幕下载失败:" ++ SprintErr err);;
                ret (None, (video, audio))
            | None =>
                modify (set_config (mkConfig (FFMpegPath c) (CachePath c)
                          (Overlay c) (Xml2ass xmlPath) (AssOFF c)));;
                ret (None, (video, audio))
            end
          else ret (None, (video, audio))
    end.

Definition GetAudioAndVideo (cachePath : gostring)
    : M (list ascii * list ascii * option error) :=
  let* (err, va) := filepath.Walk cachePath findAudioAndVideo ([], []) in
  match err with
  | Some err => ret ([], [], Some err)
  | None => ret (fst va, snd va, None)
  end.

(** The two goroutines that drain the pipes of the command only print,
    in an order the scheduler decides; what they print is not part of
    the state. *)
Definition Composition (videoFile audioFile outputFile : gostring) : M (option error) :=
  let* σ := get in
  let c := config σ in
  let args : list (list ascii) :=
    [ "-i" : gostring; videoFile;
      "-i" : gostring; audioFile;
      "-c:v" : gostring; "copy" : gostring;
      "-c:a" : gostring; "copy" : gostring;
      "-strict" : gostring; "experimental" : gostring;
      Overlay c;
      outputFile;
      "-hide_banner" : gostring;
      "-stats" : gostring ] in
  modify (add_started (FFMpegPath c) args);;
  match Run σ (FFMpegPath c) args with
  | StartFails err =>
      MessageBox ("执行FFmpeg命令失败: " ++ ErrorText err);;
      osExit 1
  | Waited werr =>
      let assFile := strings.ReplaceAll outputFile (filepath.Ext outputFile) AssSuffix in
      let* err := copyFile (AssPath c) assFile (fun f => ret f) in
      match err with
      | Some err => logrus.Error (ErrorText err)
      | None => ret tt
      end;;
      match werr with
      | None => logrus.Info ("已合成视频文件:" ++ Base outputFile)
      | Some _ => ret tt
      end;;
      ret None
  end.

Definition Exist (path : gostring) : M bool :=
  let* σ := get in ret (os.Stat path σ).

Definition Filter (name : gostring) (err : option error) : gostring :=
  let name := strings.ReplaceAll name "<" "《" in
  let name := strings.ReplaceAll name ">" "》" in
  let name := strings.ReplaceAll name "\" "#" in
  let name := strings.ReplaceAll name ["034"%char] "'" in
  let name := strings.ReplaceAll name "/" "_" in
  let name := strings.ReplaceAll name "|" "_" in
  let name := strings.ReplaceAll name "?" "_" in
  let name := strings.ReplaceAll name "*" "_" in
  let name := strings.ReplaceAll name "【" "[" in
  let name := strings.ReplaceAll name "】" "]" in
  let name := strings.ReplaceAll name ":" "：" in
  let name := strings.TrimSpace name in
  name.

End Common.

(** ** Package [main] *)
Section Main.
Context {conver : Conver} {host : Host}.

(** [fmt.Print] is logged at the level [LPrint] as well. *)
Definition wait {A} : M A :=
  logrus.Print "按回车键退出...";; osExit 0.

(** The three variables the loop of [main] fills. *)
Record Summary : Type := mkSummary {
  outputDir : gostring;
  outputFiles : list (list ascii);
  skipFilePaths : list (list ascii)
}.

(** One iteration of [for _, v := range dirs]; [continue] is the
    return of the summary as it stands. *)
Definition session (v : gostring) (s : Summary) : M Summary :=
  let* (video, audio, e) := GetAudioAndVideo v in
  match e with
  | Some _ =>
      logrus.Error ("找不到已修复的音频和视频文件:" ++ SprintErr None);;
      ret s
  | None =>
      let* found := Exist (Join v VideoInfoJson) in
      let info := if found then Join v VideoInfoJson else Join v VideoInfoSuffix in
      let* r := os.ReadFile info in
      match r with
      | inr _ => logrus.Error ("找不到videoInfo相关文件: " ++ info);; ret s
      | inl infoStr =>
          match NewJson infoStr with
          | inr _ => logrus.Error ("videoInfo相关文件解析失败: " ++ info);; ret s
          | inl js =>
              let groupTitle := uncurry Filter (GetString js "groupTitle") in
              let title := uncurry Filter (GetString js "title") in
              let uname := uncurry Filter (GetString js "uname") in
              let status := uncurry Filter (GetString js "status") in
              if bool_decide (status ≠ "completed") then
                logrus.Warn ("未缓存完成,跳过合成" ++ v ++ title ++ "-" ++ uname);;
                ret (mkSummary (outputDir s) (outputFiles s) (skipFilePaths s ++ [v]))
              else
                let outputDir := Join (Dir v) "output" in
                let* found := Exist outputDir in
                (if negb found then let* _ := os.Mkdir outputDir in ret tt else ret tt);;
                let groupDir := Join outputDir (groupTitle ++ "-" ++ uname) in
                let* found := Exist groupDir in
                (if negb found then
                   let* err := os.Mkdir groupDir in
                   match err with
                   | Some _ => MessageBox ("无法创建目录：" ++ groupDir);; wait
                   | None => ret tt
                   end
                 else ret tt);;
                let outputFile := Join groupDir (title ++ Mp4Suffix) in
                let* er := Composition video audio outputFile in
                match er with
                | Some er =>
                    logrus.Error ("合成失败:" ++ ErrorText er);;
                    ret (mkSummary outputDir (outputFiles s) (skipFilePaths s))
                | None =>
                    ret (mkSummary outputDir (outputFiles s ++ [outputFile]) (skipFilePaths s))
                end
          end
      end
  end.

Fixpoint sessions (dirs : list (list ascii)) (s : Summary) : M Summary :=
  match dirs with
  | [] => ret s
  | v :: dirs' => let* s := session v s in sessions dirs' s
  end.

(** [main] from the first walk on; the configuration and the lock are
    set up before.  [elapsed] is the difference of the two readings
    of the clock. *)
Definition main (elapsed : Z) : M unit :=
  let* σ := get in
  let c := config σ in
  let* (err, _) := filepath.WalkDir (CachePath c) FindM4sFiles tt in
  match err with
  | Some err =>
      MessageBox ("找不到 bilibili 目录下的 m4s 文件：" ++ ErrorText err);; wait
  | None => ret tt
  end;;
  let* (dirs, err) := GetCacheDir (CachePath c) in
  match err with
  | Some err =>
      MessageBox ("找不到 bilibili 的缓存目录：" ++ ErrorText err);; wait
  | None => ret tt
  end;;
  let* dirs :=
    match dirs with
    | [] =>
        let* a := Exist (Join (CachePath c) VideoInfoSuffix) in
        let* b := Exist (Join (CachePath c) VideoInfoJson) in
        if a || b then ret [CachePath c] else ret []
    | _ => ret dirs
    end in
  let* s := sessions dirs (mkSummary [] [] []) in
  logrus.Print "==========================================";;
  match skipFilePaths s with
  | [] => ret tt
  | _ => logrus.Print ("跳过的目录:" ++ ["010"%char] ++ strings.Join (skipFilePaths s) ["010"%char])
  end;;
  match outputFiles s with
  | [] => logrus.Warn "未合成任何文件！"
  | _ =>
      logrus.Print ("合成的文件:" ++ ["010"%char] ++ strings.Join (outputFiles s) ["010"%char]);;
      modify (add_started "explorer" [outputDir s])
  end;;
  logrus.Print ("已完成本次任务，耗时:" ++ strconv.Itoa elapsed ++ "秒");;
  logrus.Print "==========================================";;
  wait.

End Main.

(** ** Package [flag] *)
Module flag.

(** The variable a flag points to: the program defines [bool] and
    [string] flags. *)
Inductive Value : Type :=
  | boolValue (b : bool)
  | stringValue (s : gostring).

(** The flags defined so far, each with the current content of its
    variable.  [flag.Bool] and [flag.String] return a pointer to the
    variable: the pointer is the name of the flag, and reading through
    it is a lookup.  The program defines no name twice, so the panic of
    a second definition is absent. *)
Definition FlagSet : Type := gmap (list ascii) Value.

Definition Bool (name : gostring) (value : bool) (f : FlagSet) : list ascii * FlagSet :=
  (name, <[name := boolValue value]> f).

Definition String (name : gostring) (value : gostring) (f : FlagSet)
    : list ascii * FlagSet :=
  (name, <[name := stringValue value]> f).

(** [*p] for a pointer returned by [Bool] and by [String]. *)
Definition boolAt (f : FlagSet) (p : gostring) : bool :=
  match f !! p with
  | Some (boolValue b) => b
  | _ => false
  end.

Definition stringAt (f : FlagSet) (p : gostring) : gostring :=
  match f !! p with
  | Some (stringValue s) => s
  | _ => []
  end.

(** [strconv.ParseBool]. *)
Definition ParseBool (str : gostring) : option bool :=
  if bool_decide (str ∈ [ "1" : gostring; "t" : gostring; "T" : gostring;
                          "TRUE" : gostring; "true" : gostring; "True" : gostring ])
  then Some true
  else if bool_decide (str ∈ [ "0" : gostring; "f" : gostring; "F" : gostring;
                               "FALSE" : gostring; "false" : gostring; "False" : gostring ])
  then Some false
  else None.

(** [for i := 1; i < len(name); i++ { if name[i] == '=' ... }] on the
    bytes after the first: the name up to the first [=] and the value
    after it. *)
Fixpoint cutEquals (rest : gostring) : option (list ascii * list ascii) :=
  match rest with
  | [] => None
  | c :: rest' =>
      if bool_decide (c = "="%char) then Some ([], rest')
      else match cutEquals rest' with
           | Some (name, value) => Some (c :: name, value)
           | None => None
           end
  end.

(** How [Parse] ends under [ExitOnError]: the flags as the command
    line sets them, or the code of [os.Exit], 0 after [-h] and
    [-help], 2 after an error. *)
Fixpoint Parse (f : FlagSet) (args : list (list ascii)) : FlagSet + Z :=
  match args with
  | [] => inl f
  | s :: args' =>
      match s with
      | [] | [_] => inl f
      | c0 :: c1 :: s2 =>
          if negb (bool_decide (c0 = "-"%char)) then inl f
          else if bool_decide (c1 = "-"%char) && bool_decide (s2 = []) then inl f
          else
            let name := if bool_decide (c1 = "-"%char) then s2 else c1 :: s2 in
            match name with
            | [] => inr 2%Z
            | n0 :: rest =>
                if bool_decide (n0 = "-"%char) || bool_decide (n0 = "="%char) then inr 2%Z
                else
                  let '(name, value) :=
                    match cutEquals rest with
                    | Some (front, value) => (n0 :: front, Some value)
                    | None => (name, None)
                    end in
                  match f !! name with
                  | None =>
                      if bool_decide (name = "help") || bool_decide (name = "h")
                      then inr 0%Z else inr 2%Z
                  | Some (boolValue _) =>
                      match value with
                      | Some value =>
                          match ParseBool value with
                          | Some b => Parse (<[name := boolValue b]> f) args'
                          | None => inr 2%Z
                          end
                      | None => Parse (<[name := boolValue true]> f) args'
                      end
                  | Some (stringValue _) =>
                      match value with
                      | Some value => Parse (<[name := stringValue value]> f) args'
                      | None =>
                          match args' with
                          | value :: args'' => Parse (<[name := stringValue value]> f) args''
                          | [] => inr 2%Z
                          end
                      end
                  end
            end
      end
  end.

End flag.

(** ** The desktop *)

(** What the process meets at its start, apart from the disk:
    [InitLog] of package [common], which is in a file that is not among
    the sources; the home directory of [user.Current]; the working
    directory of [os.Getwd]; the path that a relative name denotes;
    the content of the file embedded as [ffmpeg.exe]; the SHA-256 of a
    content, in hexadecimal; and [windows.CreateMutex]. *)
Class Desktop : Type := {
  InitLog : M unit;
  Current : list ascii + error;
  Getwd : list ascii + error;
  Abs : gostring -> gostring;
  ReadEmbedded : gostring -> list ascii + error;
  Sum256 : gostring -> gostring;
  CreateMutex : gostring -> option error
}.

(** The answers of the user to the folder dialog, one after the other:
    the dialog is closed, or a folder is picked and, when the program
    asks again, the rest follows.  A user who picks wrong folders for
    ever is not an answer. *)
Inductive Dialog : Type :=
  | Close
  | Pick (path : gostring) (next : Dialog).

(** ** Package [common]: the start of the process *)
Section Startup.
Context {conver : Conver} {host : Host} {desktop : Desktop}.

Definition FFmpegName : gostring := "ffmpeg.exe".
Definition FileHashValue : gostring :=
  "3b805cb66ebb0e68f19c939bece693c345b15b7bf277b572ab7b4792ee65aad8".

(** Assignments to the fields of [c]. *)
Definition setFFMpegPath (p : gostring) (σ : State) : State :=
  let c := config σ in
  set_config (mkConfig p (CachePath c) (Overlay c) (AssPath c) (AssOFF c)) σ.
Definition setCachePath (p : gostring) (σ : State) : State :=
  let c := config σ in
  set_config (mkConfig (FFMpegPath c) p (Overlay c) (AssPath c) (AssOFF c)) σ.
Definition setOverlay (o : gostring) (σ : State) : State :=
  let c := config σ in
  set_config (mkConfig (FFMpegPath c) (CachePath c) o (AssPath c) (AssOFF c)) σ.
Definition setAssOFF (b : bool) (σ : State) : State :=
  let c := config σ in
  set_config (mkConfig (FFMpegPath c) (CachePath c) (Overlay c) (AssPath c) b) σ.

Definition findM4sFiles (directory : gostring) : M (option error) :=
  let* (err, m4sFiles) :=
    filepath.Walk directory (fun m4sFiles path info err =>
      match err with
      | Some err => ret (Some err, m4sFiles)
      | None =>
          if negb (IsDir info) && bool_decide (filepath.Ext path = M4sSuffix)
          then ret (None, m4sFiles ++ [path])
          else ret (None, m4sFiles)
      end) [] in
  match err with
  | Some err => ret (Some err)
  | None =>
      if bool_decide (length m4sFiles = 0%nat)
      then ret (Some (ErrorString ("找不到缓存目录: " ++ directory)))
      else ret None
  end.

(** [SelectDirectory] calls itself after a wrong folder: the recursion
    is on the answers that are left. *)
Fixpoint SelectDirectory (answers : Dialog) : M unit :=
  match answers with
  | Close => logrus.Warn "关闭对话框后自动退出程序";; osExit 1
  | Pick path next =>
      modify (setCachePath path);;
      let* a := Exist (Join path VideoInfoSuffix) in
      let* b := Exist (Join path VideoInfoJson) in
      let* c := Exist (Join path "load_log") in
      if a || b || c
      then logrus.Info ("选择的 bilibili 缓存目录为:" ++ path)
      else
        MessageBox "选择的 bilibili 缓存目录不正确，请重新选择！";;
        SelectDirectory next
  end.

(** [filepath.Join] of three elements is the join of the first two
    joined with the third. *)
Definition GetCachePath (answers : Dialog) : M unit :=
  match Current with
  | inr err => MessageBox ("无法获取当前用户：" ++ ErrorText err)
  | inl HomeDir =>
      let videosDir := Join (Join HomeDir "Videos") "bilibili" in
      let* r := findM4sFiles videosDir in
      match r with
      | Some _ =>
          MessageBox ("未使用 bilibili 默认缓存路径 " ++ videosDir ++ ","
                      ++ ["010"%char] ++ "请选择 bilibili 当前设置的缓存路径！");;
          SelectDirectory answers
      | None =>
          modify (setCachePath videosDir);;
          logrus.Info ("选择的 bilibili 缓存目录为: " ++ videosDir)
      end
  end.

(** [os.WriteFile]: the file is made or truncated and receives the
    data; it is refused where [os.Create] is. *)
Definition WriteFile (name data : gostring) : M (option error) :=
  let* σ := get in
  if bool_decide (Abs name = [] ∨ Abs name ∈ dirs σ ∨ Abs name ∈ denied σ)
  then ret (Some (PathError "open" name "The system cannot find the path specified."))
  else modify (set_files (<[Abs name := data]> (files σ)));; ret None.

Definition DecFile : M (option error) :=
  match ReadEmbedded FFmpegName with
  | inr err => ret (Some err)
  | inl data => WriteFile FFmpegName data
  end.

Definition FileHashCompare : M bool :=
  let* σ := get in
  let* r := os.ReadFile (FFMpegPath (config σ)) in
  match r with
  | inr err => logrus.Error ("打开文件失败:" ++ ErrorText err);; ret false
  | inl file => ret (bool_decide (FileHashValue = Sum256 file))
  end.

(** [wd, _ := os.Getwd()]: the error is dropped, and [wd] is empty
    when there is one. *)
Definition GetFFmpegPath : M unit :=
  let wd := match Getwd with inl wd => wd | inr _ => [] end in
  modify (setFFMpegPath (Join wd FFmpegName));;
  let* found := Exist (Join wd FFmpegName) in
  (if negb found then
     logrus.Info "第一次运行,自动释放ffmpeg.exe";;
     let* err := DecFile in
     match err with
     | Some err => logrus.Error (ErrorText err)
     | None => ret tt
     end
   else ret tt);;
  let* ok := FileHashCompare in
  if negb ok then
    logrus.Info "文件不完整,重新释放ffmpeg.exe";;
    let* err := DecFile in
    match err with
    | Some err => logrus.Error (ErrorText err)
    | None => ret tt
    end
  else ret tt.

(** [args] is [os.Args[1:]].  What [flag] prints about a command line
    it refuses is not part of the state. *)
Definition InitConfig (args : list (list ascii)) (answers : Dialog) : M unit :=
  InitLog;;
  let f : flag.FlagSet := ∅ in
  let '(overlay, f) := flag.Bool "o" false f in
  let '(a, f) := flag.Bool "a" false f in
  modify (setAssOFF (flag.boolAt f a));;
  let '(p, f) := flag.String "f" [] f in
  modify (setFFMpegPath (flag.stringAt f p));;
  let '(p, f) := flag.String "c" [] f in
  modify (setCachePath (flag.stringAt f p));;
  let '(version, f) := flag.Bool "v" false f in
  match flag.Parse f args with
  | inr code => osExit code
  | inl f =>
      (if flag.boolAt f version
       then logrus.Print ("Version: 1.3.2" ++ ["010"%char]);; osExit 0
       else ret tt);;
      let* σ := get in
      (if bool_decide (FFMpegPath (config σ) = []) then GetFFmpegPath else ret tt);;
      let* σ := get in
      (if bool_decide (CachePath (config σ) = []) then GetCachePath answers else ret tt);;
      modify (setOverlay "-n");;
      if flag.boolAt f overlay then modify (setOverlay "-y") else ret tt
  end.




End Startup.

(** ** Vocabulary of the statements *)

Open Scope nat_scope.

(** [p] occurs in [s]: what [strings.Contains s p] decides. *)
Definition occurs (p s : list ascii) : Prop := ∃ l r, s = l ++ p ++ r.

(** No byte of [n] is a byte of [p], as a proposition and as a test. *)
Definition apart (n p : list ascii) : Prop := ∀ c, c ∈ n → c ∉ p.

Definition apartb (n p : list ascii) : bool :=
  forallb (fun c => negb (existsb (Ascii.eqb c) p)) n.

(** A chain of replacements, as [Filter] applies them. *)
Definition replaceChain (rules : list (list ascii * list ascii)) (s : list ascii)
    : list ascii :=
  fold_left (fun s r => strings.ReplaceAll s r.1 r.2) rules s.

(** Every rule has a non-empty pattern and replacement, and the
    replacement of a rule shares no byte with its own pattern or with
    the pattern of an earlier rule. *)
Fixpoint chain_ok (rules : list (list ascii * list ascii)) : bool :=
  match rules with
  | [] => true
  | (o, n) :: rest =>
      negb (bool_decide (o = [])) && negb (bool_decide (n = [])) && apartb n o
      && forallb (fun r => apartb r.2 o) rest && chain_ok rest
  end.

(** A string that is empty or starts with a byte that can start a rune. *)
Definition startOK (s : list ascii) : Prop :=
  match s with
  | [] => True
  | c :: _ => utf8.RuneStart (byte c) = true
  end.

(** A string whose first rune, read forward, is no space, one whose
    last rune, read backward, is no space, and one with both ends so:
    the empty string has both, its rune being [RuneError]. *)
Definition firstNS (s : list ascii) : Prop :=
  unicode.IsSpace (fst (utf8.DecodeRuneInString s)) = false.
Definition lastNS (s : list ascii) : Prop :=
  unicode.IsSpace (fst (utf8.DecodeLastRuneInString s)) = false.
Definition trimmed (s : list ascii) : Prop := firstNS s ∧ lastNS s.

(** The substitutions of [Filter], in the order it applies them. *)
Definition filter_rules : list (list ascii * list ascii) :=
  [ ("<" : gostring, "《" : gostring);
    (">" : gostring, "》" : gostring);
    ("\" : gostring, "#" : gostring);
    (["034"%char], "'" : gostring);
    ("/" : gostring, "_" : gostring);
    ("|" : gostring, "_" : gostring);
    ("?" : gostring, "_" : gostring);
    ("*" : gostring, "_" : gostring);
    ("【" : gostring, "[" : gostring);
    ("】" : gostring, "]" : gostring);
    (":" : gostring, "：" : gostring) ].

(** The eleven characters that [Filter] removes from a name. *)
Definition forbidden : list (list ascii) :=
  [ "<" : gostring; ">" : gostring; "\" : gostring; ["034"%char];
    "/" : gostring; "|" : gostring; "?" : gostring; "*" : gostring;
    "【" : gostring; "】" : gostring; ":" : gostring ].

(** The files a walk visits, in the order it visits them. *)
Definition visitedFiles (calls : list (list ascii * Node * option error))
    : list (list ascii) :=
  map (fun c => c.1.1) (List.filter (fun c => negb (IsDir c.1.2)) calls).

(** The last path of a list that contains a suffix, empty when none does. *)
Definition lastWith (suffix : gostring) (paths : list (list ascii)) : gostring :=
  default [] (last (List.filter (fun p => strings.Contains p suffix) paths)).

(** A tree every part of which can be listed and [Lstat]ed. *)
Fixpoint healthy (d : Node) : bool :=
  match d with
  | File _ => true
  | Directory _ readErr entries =>
      match readErr with
      | None => forallb healthy entries
      | Some _ => false
      end
  | Broken _ _ => false
  end.

Section AndThen.
Context {A : Type}.

(** What follows a part of a walk: nothing after an error. *)
Definition andThen (m : M (option error * A)) (k : A → M (option error * A))
    : M (option error * A) :=
  bind m (fun '(err, a) =>
    match err with
    | Some e => ret (Some e, a)
    | None => k a
    end).

End AndThen.

(** The directories a walk visits below its root whose paths do not
    contain [output], in the order of the walk. *)
Definition cacheDirs (root : gostring) (calls : list (list ascii * Node * option error))
    : list (list ascii) :=
  map (fun c => c.1.1)
    (List.filter (fun c => IsDir c.1.2 && bool_decide (c.1.1 ≠ root)
                           && negb (strings.Contains c.1.1 "output")) calls).

(** The arguments [Composition] builds for the command. *)
Definition muxArgs (overlay videoFile audioFile outputFile : gostring) : list (list ascii) :=
  [ "-i" : gostring; videoFile; "-i" : gostring; audioFile;
    "-c:v" : gostring; "copy" : gostring; "-c:a" : gostring; "copy" : gostring;
    "-strict" : gostring; "experimental" : gostring; overlay; outputFile;
    "-hide_banner" : gostring; "-stats" : gostring ].

(** How a computation ends: [R] holds of the value and the state it
    returns, [E] of the code and the state it exits with, [P] of the
    message and the state it panics with. *)
Definition ends {A} (R : A → State → Prop) (E : Z → State → Prop)
    (P : list ascii → State → Prop) (o : Outcome A) : Prop :=
  match o with
  | Ret a σ => R a σ
  | Exit code σ => E code σ
  | Panic msg σ => P msg σ
  end.

(** The last line of the log of a process that left through [wait]. *)
Definition prompted (σ : State) : Prop :=
  last (log σ) = Some (LPrint, "按回车键退出..." : gostring).

(** The message of the panic of an index out of range. *)
Definition indexPanic : gostring := "runtime error: index out of range [0] with length 0".

(** The configuration but for the subtitle path, and but for the cache
    path. *)
Definition sameButAssPath (c c' : Config) : Prop :=
  FFMpegPath c' = FFMpegPath c ∧ CachePath c' = CachePath c ∧
  Overlay c' = Overlay c ∧ AssOFF c' = AssOFF c.

Definition sameButCachePath (c c' : Config) : Prop :=
  FFMpegPath c' = FFMpegPath c ∧ Overlay c' = Overlay c ∧
  AssPath c' = AssPath c ∧ AssOFF c' = AssOFF c.


(** The folders of the answers, in order. *)
Fixpoint picks (answers : Dialog) : list (list ascii) :=
  match answers with
  | Close => []
  | Pick path next => path :: picks next
  end.

Section Paths.
Context {conver : Conver} {host : Host}.

(** The subtitle paths a walk of [GetAudioAndVideo] assigns to
    [c.AssPath], in order: one for every directory whose comment file
    is downloaded. *)
Definition subtitlePaths (calls : list (list ascii * Node * option error))
    : list (list ascii) :=
  map (fun c => Xml2ass (Join c.1.1 (Name c.1.2 ++ XmlSuffix)))
    (List.filter (fun c => IsDir c.1.2 &&
        bool_decide (DownloadFile (joinUrl (Name c.1.2))
                       (Join c.1.1 (Name c.1.2 ++ XmlSuffix)) = None)) calls).

(** The subtitle file [Composition] writes beside the output. *)
Definition assFileOf (outputFile : gostring) : gostring :=
  strings.ReplaceAll outputFile (filepath.Ext outputFile) AssSuffix.

(** The group directory and the output file of a session, from the
    session directory and the decoded manifest. *)
Definition groupDirOf (v : gostring) (js : Json) : gostring :=
  Join (Join (Dir v) "output")
    (uncurry Filter (GetString js "groupTitle") ++ "-" ++
     uncurry Filter (GetString js "uname")).

Definition outputFileOf (v : gostring) (js : Json) : gostring :=
  Join (groupDirOf v js) (uncurry Filter (GetString js "title") ++ Mp4Suffix).

(** A folder that holds one of the three files by which
    [SelectDirectory] knows a cache directory. *)
Definition marked (σ : State) (path : gostring) : bool :=
  os.Stat (Join path VideoInfoSuffix) σ || os.Stat (Join path VideoInfoJson) σ
  || os.Stat (Join path "load_log") σ.

(** The fragments among the files a walk visits. *)
Definition fragments (calls : list (list ascii * Node * option error))
    : list (list ascii) :=
  List.filter (fun p => bool_decide (filepath.Ext p = M4sSuffix)) (visitedFiles calls).

(** The default cache directory of a home directory. *)
Definition videosDirOf (HomeDir : gostring) : gostring :=
  Join (Join HomeDir "Videos") "bilibili".


End Paths.

Section Beside.
Context {host : Host} {desktop : Desktop}.

(** The path of the command beside the program. *)
Definition ffmpegPath : gostring :=
  Join (match Getwd with inl wd => wd | inr _ => [] end) FFmpegName.

End Beside.

(** The five flags as [InitConfig] defines them. *)
Definition definedFlags : flag.FlagSet :=
  <[("v" : gostring) := flag.boolValue false]>
  (<[("c" : gostring) := flag.stringValue []]>
  (<[("f" : gostring) := flag.stringValue []]>
  (<[("a" : gostring) := flag.boolValue false]>
  (<[("o" : gostring) := flag.boolValue false]> ∅)))).

(** ** A small host for the examples *)

Definition dq : gostring := ["034"%char].

(** Paths are joined with a backslash; [Dir] and [Base] cut at the last
    separator. *)
Fixpoint lastSeparator (p : gostring) (i : nat) (found : option nat) : option nat :=
  match p with
  | [] => found
  | c :: p' =>
      lastSeparator p' (S i)
        (if filepath.IsPathSeparator (byte c) then Some i else found)
  end.

Definition exampleDir (p : gostring) : gostring :=
  match lastSeparator p 0 None with
  | Some i => take i p
  | None => "."
  end.

Definition exampleBase (p : gostring) : gostring :=
  match lastSeparator p 0 None with
  | Some i => drop (S i) p
  | None => p
  end.

(** A manifest that names video 100 and audio 200, and one whose two
    arrays are empty. *)
Definition playurl_100_200 : gostring :=
  "{" ++ dq ++ "data" ++ dq ++ ":{" ++ dq ++ "dash" ++ dq ++ ":{"
  ++ dq ++ "video" ++ dq ++ ":[{" ++ dq ++ "id" ++ dq ++ ":100}],"
  ++ dq ++ "audio" ++ dq ++ ":[{" ++ dq ++ "id" ++ dq ++ ":200}]}}}".

Definition playurl_empty : gostring :=
  "{" ++ dq ++ "data" ++ dq ++ ":{" ++ dq ++ "dash" ++ dq ++ ":{"
  ++ dq ++ "video" ++ dq ++ ":[]," ++ dq ++ "audio" ++ dq ++ ":[]}}}".

Definition exampleUnmarshal (data : gostring) : PlayUrl + error :=
  if bool_decide (data = playurl_100_200)
  then inl (mkPlayUrl (mkData (mkDash [mkStream 100] [mkStream 200])))
  else if bool_decide (data = playurl_empty)
  then inl (mkPlayUrl (mkData (mkDash [] [])))
  else inr (ErrorString "invalid character").

(** A session manifest with the given status. *)
Definition videoInfo (status : gostring) : gostring :=
  "{" ++ dq ++ "groupTitle" ++ dq ++ ":" ++ dq ++ "g" ++ dq ++ ","
  ++ dq ++ "title" ++ dq ++ ":" ++ dq ++ "t" ++ dq ++ ","
  ++ dq ++ "uname" ++ dq ++ ":" ++ dq ++ "u" ++ dq ++ ","
  ++ dq ++ "status" ++ dq ++ ":" ++ dq ++ status ++ dq ++ "}".

Definition exampleObject (status : gostring) : list (list ascii * list ascii) :=
  [ ("groupTitle" : gostring, "g" : gostring); ("title" : gostring, "t" : gostring);
    ("uname" : gostring, "u" : gostring); ("status" : gostring, status) ].

Definition exampleNewJson (data : gostring)
    : list (list ascii * list ascii) + error :=
  if bool_decide (data = videoInfo "completed") then inl (exampleObject "completed")
  else if bool_decide (data = videoInfo " completed") then inl (exampleObject " completed")
  else if bool_decide (data = videoInfo "downloading") then inl (exampleObject "downloading")
  else inr (ErrorString "invalid character").

Fixpoint exampleGetString (js : list (list ascii * list ascii)) (key : gostring)
    : list ascii * option error :=
  match js with
  | [] => ([], Some (ErrorString "type assertion to string failed"))
  | (k, v) :: js' => if bool_decide (k = key) then (v, None) else exampleGetString js' key
  end.

(** The host of the examples: it shows one tree at every path, and
    every command it runs ends as [proc] says. *)
Definition exampleHost (tree : Node) (proc : Process) : Host :=
  {| Join := fun a b => a ++ "\" ++ b;
     Dir := exampleDir;
     Base := exampleBase;
     Unmarshal := exampleUnmarshal;
     Json := list (list ascii * list ascii);
     NewJson := exampleNewJson;
     GetString := exampleGetString;
     DownloadFile := fun _ _ => None;
     Tree := fun _ _ => tree;
     Run := fun _ _ _ => proc |}.

(** Modelled from the spec: package [conver] is not among the sources.
    The spec names the fragment extension [.m4s], repaired [.video] and
    [.audio] files, the [.playurl] manifest and an [.mp4] container;
    the other names are chosen for the examples. *)
Definition exampleConver : Conver :=
  {| M4sSuffix := ".m4s";
     AudioSuffix := ".audio";
     VideoSuffix := ".video";
     XmlSuffix := ".xml";
     AssSuffix := ".ass";
     PlayUrlSuffix := ".playurl";
     VideoInfoSuffix := ".videoInfo";
     VideoInfoJson := "videoInfo.json";
     Mp4Suffix := ".mp4";
     Xml2ass := fun xml => strings.ReplaceAll xml ".xml" ".ass" |}.

Definition exampleConfig : Config :=
  mkConfig "ffmpeg.exe" "cache" "-n" [] false.

Definition exampleState (fs : gmap (list ascii) (list ascii)) : State :=
  mkState exampleConfig fs ∅ ∅ [] [].

(** ** Trees and states of the examples *)

(** Two fragments with the nine zeros and no manifest beside them. *)
Definition twoFragments : Node :=
  Directory "cache" None [File "1.m4s"; File "2.m4s"].

Definition twoFragmentsState : State :=
  exampleState (<[("cache\1.m4s" : gostring) := ("000000000aaa" : gostring)]>
               (<[("cache\2.m4s" : gostring) := ("000000000bbb" : gostring)]> ∅)).

Definition twoFragmentsHost : Host := exampleHost twoFragments (Waited None).

Definition noPath : error :=
  PathError "open" [] "The system cannot find the path specified.".

(** A session with two repaired videos and two repaired audios. *)
Definition twoPairs : Node :=
  Directory "s1" None
    [File "a.audio"; File "a.video"; File "b.audio"; File "b.video"].

Definition twoPairsHost : Host := exampleHost twoPairs (Waited None).

(** A session directory with its repaired pair and its manifest. *)
Definition oneSession : Node :=
  Directory "s1" None [File "100.video"; File "200.audio"; File "videoInfo.json"].

Definition sessionState (status : gostring) : State :=
  exampleState (<[("cache\s1\videoInfo.json" : gostring) := videoInfo status]> ∅).

Definition ffmpegArgs (video audio : gostring) : list (list ascii) :=
  [ "-i" : gostring; video; "-i" : gostring; audio;
    "-c:v" : gostring; "copy" : gostring; "-c:a" : gostring; "copy" : gostring;
    "-strict" : gostring; "experimental" : gostring; "-n" : gostring;
    "cache\output\g-u\t.mp4" : gostring;
    "-hide_banner" : gostring; "-stats" : gostring ].

(** A session directory with its manifest and no repaired file. *)
Definition emptySession : Node :=
  Directory "s1" None [File "videoInfo.json"].

(** A fragment with the nine zeros and the manifest beside it. *)
Definition manifestState : State :=
  exampleState (<[("cache\s1\.playurl" : gostring) := playurl_100_200]>
               (<[("cache\s1\100.m4s" : gostring) := ("000000000abc" : gostring)]> ∅)).

(** A cache with one session and the output of an earlier run. *)
Definition cacheTree : Node :=
  Directory "cache" None
    [ Directory "output" None [Directory "g-u" None [File "t.mp4"]];
      Directory "s1" None [File "videoInfo.json"] ].

(** The state of the examples with the subtitles switched off. *)
Definition quietState : State :=
  mkState (mkConfig "ffmpeg.exe" "cache" "-n" [] true) ∅ ∅ ∅ [] [].


(** A completed session on a disk that refuses the group directory. *)
Definition refusedState : State :=
  mkState exampleConfig
    (<[("cache\s1\videoInfo.json" : gostring) := videoInfo "completed"]> ∅)
    ∅ {[ ("cache\output\g-u" : gostring) ]} [] [].

(** A desktop for the examples: the embedded command is the one whose
    digest is [FileHashValue]. *)
Definition exampleDesktop : Desktop :=
  {| InitLog := ret tt;
     Current := inl ("C:\Users\u" : gostring);
     Getwd := inl ("C:\m4s" : gostring);
     Abs := fun name => "C:\m4s\" ++ name;
     ReadEmbedded := fun _ => inl ("MZ" : gostring);
     Sum256 := fun data => if bool_decide (data = "MZ") then FileHashValue else "00";
     CreateMutex := fun _ => None |}.


(** A directory whose name ends like a fragment, beside a manifest. *)
Definition fragmentDirState : State :=
  mkState exampleConfig
    (<[("cache\s1\.playurl" : gostring) := playurl_100_200]> ∅)
    {[ ("cache\s1\100.m4s" : gostring) ]} ∅ [] [].

(** ** Tactics *)

Ltac andb_split :=
  repeat match goal with
         | H : _ && _ = true |- _ => apply andb_true_iff in H as [? ?]
         end.

Ltac eval_closed t := let v := eval vm_compute in t in change t with v.

Ltac decode_consts :=
  repeat match goal with
         | |- context [N.to_nat (N.land ?x 7)] => eval_closed (N.to_nat (N.land x 7))
         | |- context [utf8.acceptRanges ?i] => eval_closed (utf8.acceptRanges i)
         | |- context [(utf8.as_ <=? ?x)%N] => eval_closed (utf8.as_ <=? x)%N
         | |- context [(?x =? utf8.as_)%N] => eval_closed (x =? utf8.as_)%N
         end;
  cbv beta iota;
  change utf8.locb with 128%N; change utf8.hicb with 191%N;
  change utf8.RuneError with 65533%N; cbn [fst snd];
  repeat match goal with
         | |- context [(?n <=? ?m)] =>
             match n with S _ => idtac | O => idtac end;
             match m with S _ => idtac | O => idtac end;
             eval_closed (n <=? m)
         end; cbv iota.

Ltac decode_cases view c0 :=
  unfold utf8.DecodeRuneInString;
  destruct (view (byte c0))
    as [[? ->]|[->|[? [->|[->|[->|[->|[->|[->| ->]]]]]]]]];
  decode_consts.

Ltac bool_facts :=
  repeat match goal with
         | H : _ || _ = false |- _ => apply orb_false_iff in H as [? ?]
         | H : _ || _ = true |- _ => apply orb_true_iff in H
         | H : (_ <? _) = false |- _ => apply Nat.ltb_ge in H
         | H : (_ <? _) = true |- _ => apply Nat.ltb_lt in H
         | H : (_ <? _)%N = false |- _ => apply N.ltb_ge in H
         | H : (_ <? _)%N = true |- _ => apply N.ltb_lt in H
         | H : (_ <=? _)%N = false |- _ => apply N.leb_gt in H
         | H : (_ <=? _)%N = true |- _ => apply N.leb_le in H
         end.

(** * Proofs *)

(** * Occurrences of a pattern *)

Lemma HasPrefix_true s p : strings.HasPrefix s p = true ↔ ∃ r, s = p ++ r.
Proof.
  revert s. induction p as [|c p IH]; intros s.
  - destruct s; simpl; split; eauto.
  - destruct s as [|d s]; simpl.
    + split; [discriminate|]. intros [r Hr]. discriminate.
    + destruct (Ascii.eqb_spec d c) as [->|Hne].
      * rewrite IH. split; intros [r Hr]; exists r; simpl in *; congruence.
      * split; [discriminate|]. intros [r Hr]. simpl in Hr. congruence.
Qed.

Lemma Index_unfold s p :
  strings.Index s p =
  if strings.HasPrefix s p then Some 0
  else match s with [] => None | _ :: s' => S <$> strings.Index s' p end.
Proof. destruct s; reflexivity. Qed.

Lemma Index_Some s p j :
  strings.Index s p = Some j →
  s = take j s ++ p ++ drop (j + length p) s ∧
  ∀ l r, s = l ++ p ++ r → j ≤ length l.
Proof.
  revert j. induction s as [|c s IH]; intros j; rewrite Index_unfold.
  - destruct (strings.HasPrefix [] p) eqn:E; [|discriminate].
    intros [= <-]. apply HasPrefix_true in E as [r Hr].
    destruct p; [|discriminate]. split; [done|]. intros; lia.
  - destruct (strings.HasPrefix (c :: s) p) eqn:E.
    + intros [= <-]. apply HasPrefix_true in E as [r Hr]. split; [|intros; lia].
      simpl. rewrite Hr at 1. f_equal.
      rewrite Hr. by rewrite drop_app_length.
    + destruct (strings.Index s p) as [k|] eqn:Ek; simpl; [|discriminate].
      intros [= <-]. destruct (IH k eq_refl) as [Heq Hmin]. split.
      * simpl. f_equal. exact Heq.
      * intros l r Hl. destruct l as [|d l].
        -- exfalso. assert (strings.HasPrefix (c :: s) p = true); [|congruence].
           apply HasPrefix_true. eauto.
        -- simpl in *. injection Hl as -> Hl. apply Hmin in Hl. lia.
Qed.

Lemma Index_None s p : strings.Index s p = None → ¬ occurs p s.
Proof.
  induction s as [|c s IH]; rewrite Index_unfold.
  - destruct (strings.HasPrefix [] p) eqn:E; [discriminate|].
    intros _ (l & r & Hl). destruct l; [|discriminate]. 
    assert (strings.HasPrefix [] p = true); [|congruence].
    apply HasPrefix_true. eauto.
  - destruct (strings.HasPrefix (c :: s) p) eqn:E; [discriminate|].
    destruct (strings.Index s p) as [k|] eqn:Ek; simpl; [discriminate|].
    intros _ (l & r & Hl). destruct l as [|d l].
    + assert (strings.HasPrefix (c :: s) p = true); [|congruence].
      apply HasPrefix_true. eauto.
    + injection Hl as -> Hl. apply (IH eq_refl). by exists l, r.
Qed.

Lemma Contains_true s p : strings.Contains s p = true ↔ occurs p s.
Proof.
  unfold strings.Contains. destruct (strings.Index s p) as [j|] eqn:E.
  - split; [|done]. intros _. apply Index_Some in E as [E _].
    by exists (take j s), (drop (j + length p) s).
  - split; [discriminate|]. intros Ho. by apply Index_None in E.
Qed.

Lemma Contains_false s p : strings.Contains s p = false ↔ ¬ occurs p s.
Proof. rewrite <- Contains_true. destruct (strings.Contains s p); split; congruence. Qed.

Lemma occurs_app_l p x y : occurs p x → occurs p (x ++ y).
Proof. intros (l & r & ->). exists l, (r ++ y). by rewrite <- !app_assoc. Qed.

Lemma occurs_app_r p x y : occurs p y → occurs p (x ++ y).
Proof. intros (l & r & ->). exists (x ++ l), r. by rewrite <- !app_assoc. Qed.

Lemma occurs_take p n s : occurs p (take n s) → occurs p s.
Proof. intros Ho. rewrite <- (take_drop n s). by apply occurs_app_l. Qed.

Lemma occurs_drop p n s : occurs p (drop n s) → occurs p s.
Proof. intros Ho. rewrite <- (take_drop n s). by apply occurs_app_r. Qed.

(** An occurrence inside [n ++ y], where no byte of [n] is in [p]. *)
Lemma occurs_skip p n y :
  (∀ c, c ∈ n → c ∉ p) → occurs p (n ++ y) → p = [] ∨ occurs p y.
Proof.
  intros Hd. induction n as [|c n IH]; intros (l & r & Hl); simpl in *.
  - right. by exists l, r.
  - destruct l as [|d l].
    + destruct p as [|e p]; [by left|]. injection Hl as -> _.
      exfalso. apply (Hd e); apply list_elem_of_here.
    + injection Hl as -> Hl. apply IH.
      * intros e He. apply Hd. by apply list_elem_of_further.
      * by exists l, r.
Qed.

Lemma prefix_split (p z n y r : list ascii) :
  n ≠ [] → z ++ n ++ y = p ++ r → (∃ r', z = p ++ r') ∨ ∃ c, c ∈ n ∧ c ∈ p.
Proof.
  intros Hn. revert p. induction z as [|b z IH]; intros p Hl; simpl in *.
  - destruct p as [|e p]; [left; by exists []|]. right.
    destruct n as [|c n]; [done|]. injection Hl as -> _. exists e.
    split; apply list_elem_of_here.
  - destruct p as [|e p]; [left; by exists (b :: z)|].
    injection Hl as -> Hl. destruct (IH p Hl) as [[r' Hr']|(c & H1 & H2)].
    + left. exists r'. simpl. by f_equal.
    + right. exists c. split; [done|by apply list_elem_of_further].
Qed.

(** An occurrence in [x ++ n ++ y] lies in [x] or in [y] when [n] is
    not empty and shares no byte with the pattern. *)
Lemma occurs_sep p x n y :
  n ≠ [] → (∀ c, c ∈ n → c ∉ p) → occurs p (x ++ n ++ y) → occurs p x ∨ occurs p y.
Proof.
  intros Hn Hd. induction x as [|a x IH]; intros Ho.
  - destruct (occurs_skip p n y Hd Ho) as [->|Ho']; [|by right].
    left. by exists [], [].
  - destruct Ho as (l & r & Hl). destruct l as [|d l].
    + symmetry in Hl. simpl in Hl.
      destruct (prefix_split p (a :: x) n y r Hn) as [[r' Hr']|(c & H1 & H2)].
      * by rewrite Hl.
      * left. by exists [], r'.
      * exfalso. by apply (Hd c).
    + injection Hl as -> Hl. destruct IH as [(l' & r' & ->)|Hy].
      * by exists l, r.
      * left. by exists (d :: l'), r'.
      * by right.
Qed.

(** * [ReplaceAll] *)

Lemma apartb_apart n p : apartb n p = true → apart n p.
Proof.
  unfold apartb, apart. rewrite forallb_forall. intros Hf c Hc Hp.
  apply list_elem_of_In in Hc. specialize (Hf c Hc).
  apply negb_true_iff in Hf. apply not_true_iff_false in Hf. apply Hf.
  apply existsb_exists. exists c. split; [by apply list_elem_of_In|].
  apply Ascii.eqb_refl.
Qed.

Lemma replaceEach_absent fuel s old new :
  ¬ occurs old s → strings.replaceEach fuel s old new = s.
Proof.
  intros Hno. destruct fuel; [done|]. simpl.
  destruct (strings.Index s old) as [j|] eqn:E; [|done].
  exfalso. apply Hno. apply Contains_true. unfold strings.Contains. by rewrite E.
Qed.

Lemma replaceEach_clean p fuel s old new :
  old ≠ [] → new ≠ [] → apart new p →
  p = old ∨ ¬ occurs p s →
  length s ≤ fuel →
  ¬ occurs p (strings.replaceEach fuel s old new).
Proof.
  intros Hold Hnew Hap. revert s.
  induction fuel as [|fuel IH]; intros s Hp Hlen; simpl.
  - destruct s; [|simpl in Hlen; lia].
    destruct Hp as [->|Hp]; [|done].
    intros (l & r & Hl). destruct l; [|discriminate]. by destruct old.
  - destruct (strings.Index s old) as [j|] eqn:E.
    + destruct (Index_Some _ _ _ E) as [Hs Hmin].
      intros Ho. apply occurs_sep in Ho as [Ho|Ho]; [| |done|done].
      * destruct Hp as [->|Hp].
        -- destruct Ho as (l & r & Hl).
           assert (Hj : length (take j s) ≤ j) by (rewrite length_take; lia).
           rewrite Hl in Hj. rewrite !length_app in Hj.
           specialize (Hmin l (r ++ old ++ drop (j + length old) s)).
           rewrite Hs, Hl in Hmin at 1. rewrite <- !app_assoc in Hmin.
           specialize (Hmin eq_refl). destruct old; [done|]. simpl in Hj. lia.
        -- apply Hp. by apply occurs_take in Ho.
      * revert Ho. apply IH.
        -- destruct Hp as [->|Hp]; [by left|]. right. intros Ho. apply Hp.
           by apply occurs_drop in Ho.
        -- rewrite length_drop. destruct old; [done|]. simpl.
           assert (length s ≠ 0); [|lia].
           intros H0. apply length_zero_iff_nil in H0. subst s. by destruct j.
    + destruct Hp as [->|Hp]; [|done]. by apply Index_None.
Qed.

Lemma ReplaceAll_absent s old new :
  old ≠ [] → ¬ occurs old s → strings.ReplaceAll s old new = s.
Proof.
  intros Hold Hno. unfold strings.ReplaceAll. case_bool_decide; [done|].
  destruct old; [done|]. by apply replaceEach_absent.
Qed.

Lemma ReplaceAll_clean p s old new :
  old ≠ [] → new ≠ [] → apart new p → p = old ∨ ¬ occurs p s →
  ¬ occurs p (strings.ReplaceAll s old new).
Proof.
  intros Hold Hnew Hap Hp. unfold strings.ReplaceAll. case_bool_decide as Heq.
  - destruct Hp as [->|Hp]; [|done]. subst new.
    destruct old as [|c old]; [done|]. exfalso. apply (Hap c); apply list_elem_of_here.
  - destruct old; [done|]. by apply replaceEach_clean.
Qed.

Lemma replaceChain_keeps p rules s :
  forallb (fun r => negb (bool_decide (r.1 = [])) && negb (bool_decide (r.2 = []))
                    && apartb r.2 p) rules = true →
  ¬ occurs p s → ¬ occurs p (replaceChain rules s).
Proof.
  revert s. induction rules as [|[o n] rules IH]; intros s Hok Hno; simpl in *; [done|].
  apply andb_true_iff in Hok as [Hok Hrest].
  apply andb_true_iff in Hok as [Hok Hap]. apply andb_true_iff in Hok as [Ho Hn].
  apply negb_true_iff, bool_decide_eq_false in Ho, Hn.
  apply IH; [done|]. apply ReplaceAll_clean; auto using apartb_apart.
Qed.

Lemma chain_ok_rest o rules :
  forallb (fun r => apartb r.2 o) rules = true → chain_ok rules = true →
  forallb (fun r => negb (bool_decide (r.1 = [])) && negb (bool_decide (r.2 = []))
                    && apartb r.2 o) rules = true.
Proof.
  induction rules as [|[o' n'] rules IH]; simpl; [done|]. intros Ha Hok.
  andb_split. repeat (apply andb_true_iff; split); auto.
Qed.

Lemma replaceChain_clean rules s o n :
  chain_ok rules = true → (o, n) ∈ rules → ¬ occurs o (replaceChain rules s).
Proof.
  revert s. induction rules as [|[o' n'] rules IH]; intros s Hok Hin; simpl in *.
  - by apply elem_of_nil in Hin.
  - andb_split.
    match goal with H : negb (bool_decide (o' = [])) = true |- _ =>
      apply negb_true_iff, bool_decide_eq_false in H end.
    match goal with H : negb (bool_decide (n' = [])) = true |- _ =>
      apply negb_true_iff, bool_decide_eq_false in H end.
    apply elem_of_cons in Hin as [[= -> ->]|Hin].
    + apply replaceChain_keeps; [by apply chain_ok_rest|].
      apply ReplaceAll_clean; auto using apartb_apart.
    + by apply IH.
Qed.

(** * Bytes and runes *)

Lemma RuneStart_byte c :
  utf8.RuneStart (byte c) = ((byte c <? 0x80) || (0xC0 <=? byte c))%N.
Proof. destruct c as [[] [] [] [] [] [] [] []]; reflexivity. Qed.

Lemma IsSpace_ascii c :
  (byte c <? utf8.RuneSelf)%N = true →
  unicode.IsSpace (byte c) = strings.asciiSpace (byte c).
Proof. destruct c as [[] [] [] [] [] [] [] []]; intros; try reflexivity; discriminate. Qed.

Lemma first_view b :
  ((b < 0x80)%N ∧ utf8.first b = utf8.as_) ∨
  utf8.first b = utf8.xx ∨
  ((0xC2 <= b)%N ∧
   (utf8.first b = utf8.s1 ∨ utf8.first b = utf8.s2 ∨ utf8.first b = utf8.s3 ∨
    utf8.first b = utf8.s4 ∨ utf8.first b = utf8.s5 ∨ utf8.first b = utf8.s6 ∨
    utf8.first b = utf8.s7)).
Proof.
  unfold utf8.first.
  repeat match goal with
         | |- context [(?x <? ?y)%N] => destruct (N.ltb_spec x y)
         | |- context [(?x =? ?y)%N] => destruct (N.eqb_spec x y)
         end; auto 20; right; right; (split; [lia|]); auto 20.
Qed.

Lemma decode_width c t :
  1 ≤ snd (utf8.DecodeRuneInString (c :: t)) ≤ length (c :: t).
Proof.
  decode_cases first_view c; repeat case_match; bool_facts; simpl in *; lia.
Qed.

Lemma decode_nil : utf8.DecodeRuneInString [] = (utf8.RuneError, 0).
Proof. reflexivity. Qed.

Lemma decode_ascii c t :
  (byte c <? utf8.RuneSelf)%N = true →
  utf8.DecodeRuneInString (c :: t) = (byte c, 1).
Proof.
  intros Hc. apply N.ltb_lt in Hc. change utf8.RuneSelf with 128%N in Hc.
  unfold utf8.DecodeRuneInString, utf8.first.
  destruct (N.ltb_spec (byte c) 128); [reflexivity|lia].
Qed.

(** A rune that was decoded from a whole string is decoded from every
    extension of the string too. *)
Lemma decode_app x y r w :
  utf8.DecodeRuneInString x = (r, w) → r ≠ utf8.RuneError ∨ 1 < w →
  utf8.DecodeRuneInString (x ++ y) = (r, w).
Proof.
  destruct x as [|c0 t]; [intros [= <- <-] [?|?]; [done|lia]|].
  rewrite <- app_comm_cons. revert r w.
  decode_cases first_view c0; intros r w;
    [done | intros [= <- <-] [?|?]; [done|lia] | ..].
  all: destruct t as [|c1 [|c2 [|c3 t]]]; simpl; unfold at_; cbn [nth];
    repeat case_match; try done; intros [= <- <-] [?|?]; done || lia.
Qed.

Lemma decode_start x r w :
  utf8.DecodeRuneInString x = (r, w) → r ≠ utf8.RuneError → startOK x.
Proof.
  destruct x as [|c0 t]; [done|]. simpl. rewrite RuneStart_byte. revert r w.
  decode_cases first_view c0; intros r w.
  1: intros _ _; apply orb_true_iff; left; by apply N.ltb_lt.
  1: by intros [= <- <-].
  all: intros _ _; apply orb_true_iff; right; apply N.leb_le; lia.
Qed.

Lemma decode_cont b rest :
  (utf8.RuneSelf <=? byte b)%N = true → startOK rest →
  utf8.DecodeRuneInString (b :: rest) = (utf8.RuneError, 1).
Proof.
  intros Hb Hrest. apply N.leb_le in Hb. change utf8.RuneSelf with 128%N in Hb.
  decode_cases first_view b; [lia|done|..].
  all: destruct rest as [|c1 rest]; [reflexivity|]; simpl in Hrest;
    rewrite RuneStart_byte in Hrest; unfold at_; cbn [nth];
    destruct (length (b :: c1 :: rest) <? _); [reflexivity|];
    apply orb_true_iff in Hrest as [Hr|Hr]; bool_facts;
    repeat case_match; bool_facts; try done; lia.
Qed.

Lemma lastStart_lt s lim n : 0 < n → utf8.lastStart s lim n < n.
Proof.
  induction n as [|n IH]; [lia|]. intros _. simpl.
  destruct (n <? lim); [lia|]. destruct (utf8.RuneStart (at_ s n)); [lia|].
  destruct n; [simpl; lia|]. specialize (IH ltac:(lia)). lia.
Qed.

Lemma lastStart_le s lim n : utf8.lastStart s lim n ≤ n.
Proof. destruct n; [done|]. pose proof (lastStart_lt s lim (S n)). lia. Qed.

(** The three ways [DecodeLastRuneInString] returns on a non-empty string. *)
Lemma decodeLast_view s :
  s ≠ [] →
  let last := at_ s (length s - 1) in
  ((last <? utf8.RuneSelf)%N = true ∧ utf8.DecodeLastRuneInString s = (last, 1)) ∨
  ((last <? utf8.RuneSelf)%N = false ∧
   (utf8.DecodeLastRuneInString s = (utf8.RuneError, 1) ∨
    ∃ start r size,
      start + size = length s ∧ 0 < size ∧
      utf8.DecodeRuneInString (drop start s) = (r, size) ∧
      utf8.DecodeLastRuneInString s = (r, size))).
Proof.
  intros Hs last. unfold utf8.DecodeLastRuneInString. fold last.
  destruct (length s =? 0) eqn:E.
  { apply Nat.eqb_eq, length_zero_iff_nil in E. done. }
  apply Nat.eqb_neq in E.
  destruct (last <? utf8.RuneSelf)%N; [by left|]. right. split; [done|].
  set (start := utf8.lastStart s _ _).
  destruct (utf8.DecodeRuneInString (drop start s)) as [r size] eqn:Ed.
  destruct (start + size =? length s) eqn:Es; [|by left].
  apply Nat.eqb_eq in Es. right. exists start, r, size. repeat split; try done.
  pose proof (lastStart_le s (length s - utf8.UTFMax) (length s - 1)). fold start in H.
  lia.
Qed.

Lemma decodeLast_width s :
  s ≠ [] → 1 ≤ snd (utf8.DecodeLastRuneInString s) ≤ length s.
Proof.
  intros Hs. assert (0 < length s) by (destruct s; [done|simpl; lia]).
  destruct (decodeLast_view s Hs) as [[_ ->]|[_ [->|(st & r & sz & ? & ? & _ & ->)]]];
    simpl; lia.
Qed.

(** * [TrimSpace] *)

Lemma trimmed_nil : trimmed [].
Proof. split; reflexivity. Qed.

Lemma take_nonempty (s : list ascii) e : 0 < e ≤ length s → take e s ≠ [].
Proof. destruct s, e; simpl; intros; (done || lia). Qed.

Lemma at_take s e i : i < e → at_ (take e s) i = at_ s i.
Proof.
  unfold at_. revert e i. induction s as [|c s IH]; intros e i Hi.
  - by rewrite take_nil.
  - destruct e; [lia|]. destruct i; [done|]. simpl. apply IH. lia.
Qed.

Lemma drop_at s i : i < length s → ∃ c, drop i s = c :: drop (S i) s ∧ byte c = at_ s i.
Proof.
  unfold at_. revert i. induction s as [|c s IH]; intros i Hi; simpl in *; [lia|].
  destruct i; [by exists c|]. simpl. apply IH. lia.
Qed.

Lemma firstNS_take t b : firstNS t → firstNS (take b t).
Proof.
  unfold firstNS. intros Ht.
  destruct (utf8.DecodeRuneInString (take b t)) as [r w] eqn:E. simpl.
  destruct (decide (r = utf8.RuneError)) as [->|Hr]; [reflexivity|].
  apply (decode_app _ (drop b t)) in E; [|by left].
  rewrite take_drop in E. by rewrite E in Ht.
Qed.

Lemma indexFunc_spec fuel i s :
  length s ≤ fuel →
  match strings.indexFuncFrom fuel i s unicode.IsSpace false with
  | None => True
  | Some k => ∃ d, k = i + d ∧ firstNS (drop d s)
  end.
Proof.
  revert i s. induction fuel as [|fuel IH]; intros i s Hlen; simpl; [done|].
  destruct s as [|c t]; [done|].
  destruct (utf8.DecodeRuneInString (c :: t)) as [r wid] eqn:E.
  destruct (eqb (unicode.IsSpace r) false) eqn:Er.
  - exists 0. split; [lia|]. unfold firstNS. simpl drop. rewrite E.
    by apply eqb_prop in Er.
  - pose proof (decode_width c t) as Hw. rewrite E in Hw. simpl in Hw.
    specialize (IH (i + wid) (drop wid (c :: t))).
    assert (Hl : length (drop wid (c :: t)) ≤ fuel).
    { rewrite length_drop; simpl in *; lia. }
    specialize (IH Hl).
    destruct (strings.indexFuncFrom fuel (i + wid) (drop wid (c :: t)) _ _); [|done].
    destruct IH as (d & -> & Hd).
    exists (wid + d). split; [lia|]. by rewrite drop_drop in Hd.
Qed.

Lemma TrimLeftFunc_spec s :
  ∃ d, strings.TrimLeftFunc s unicode.IsSpace = drop d s ∧
       firstNS (strings.TrimLeftFunc s unicode.IsSpace).
Proof.
  unfold strings.TrimLeftFunc, strings.indexFunc.
  pose proof (indexFunc_spec (length s) 0 s (le_n _)) as Hi.
  destruct (strings.indexFuncFrom _ _ _ _ _) as [k|].
  - destruct Hi as (d & -> & Hd). by exists d.
  - exists (length s). by rewrite drop_all.
Qed.

Lemma TrimLeftFunc_fix s : firstNS s → strings.TrimLeftFunc s unicode.IsSpace = s.
Proof.
  unfold strings.TrimLeftFunc, strings.indexFunc, firstNS.
  destruct s as [|c t]; [done|]. intros Hs.
  cbn [length strings.indexFuncFrom].
  destruct (utf8.DecodeRuneInString (c :: t)) as [r wid]. simpl in Hs.
  by rewrite Hs.
Qed.

Lemma trimRight_cut s e r size :
  0 < e ≤ length s →
  utf8.DecodeLastRuneInString (take e s) = (r, size) →
  startOK (drop e s) →
  (if (utf8.RuneSelf <=? at_ s (e - size))%N
   then take (e - size + snd (utf8.DecodeRuneInString (drop (e - size) s))) s
   else take (e - size + 1) s) = take e s.
Proof.
  intros He Hd Hok.
  assert (Hne : take e s ≠ []).
  { apply take_nonempty; lia. }
  assert (Hlen : length (take e s) = e) by (rewrite length_take; lia).
  pose proof (decodeLast_view _ Hne) as Hv. simpl in Hv. rewrite Hlen in Hv.
  rewrite at_take in Hv by lia.
  assert (Herr : (at_ s (e - 1) <? utf8.RuneSelf)%N = false →
                 snd (utf8.DecodeRuneInString (drop (e - 1) s)) = 1).
  { intros Hhi. destruct (drop_at s (e - 1)) as (c & Hc & Hb); [lia|].
    rewrite Hc. replace (S (e - 1)) with e by lia.
    rewrite decode_cont; [done| |done]. rewrite Hb.
    apply N.ltb_ge in Hhi. by apply N.leb_le. }
  destruct Hv as [[Hlo Hv]|[Hhi [Hv|(start & r' & size' & Hs & Hpos & Hdec & Hv)]]];
    rewrite Hv in Hd; injection Hd as <- <-.
  - rewrite N.leb_antisym, Hlo. simpl. f_equal. lia.
  - rewrite N.leb_antisym, Hhi. simpl. rewrite Herr by done. f_equal. lia.
  - replace (e - size') with start by lia.
    destruct (decide (r' ≠ utf8.RuneError ∨ 1 < size')) as [Hval|Hinv].
    + assert (Hfull : utf8.DecodeRuneInString (drop start s) = (r', size')).
      { rewrite <- (drop_take_drop s start e) by lia. by apply decode_app. }
      rewrite Hfull. simpl.
      destruct (utf8.RuneSelf <=? at_ s start)%N eqn:Hb; [f_equal; lia|].
      exfalso. rewrite N.leb_antisym in Hb. apply negb_false_iff in Hb.
      destruct (drop_at s start) as (c & Hc & Hbc); [lia|].
      rewrite Hc, decode_ascii in Hfull by (by rewrite Hbc).
      injection Hfull as <- <-. replace start with (e - 1) in Hb by lia. congruence.
    + assert (size' = 1) as -> by lia. replace start with (e - 1) by lia.
      rewrite N.leb_antisym, Hhi. simpl. rewrite Herr by done. f_equal. lia.
Qed.

Lemma lastIndex_spec fuel i s :
  i ≤ length s → i ≤ fuel → startOK (drop i s) →
  match strings.lastIndexFuncFrom fuel i s unicode.IsSpace false with
  | None => True
  | Some k =>
      ∃ e r size, 0 < e ≤ length s ∧
        utf8.DecodeLastRuneInString (take e s) = (r, size) ∧
        unicode.IsSpace r = false ∧ k = e - size ∧ startOK (drop e s)
  end.
Proof.
  revert i. induction fuel as [|fuel IH]; intros i Hi Hf Hok; simpl; [done|].
  destruct (i =? 0) eqn:E0; [done|]. apply Nat.eqb_neq in E0.
  destruct (utf8.DecodeLastRuneInString (take i s)) as [r size] eqn:E.
  destruct (eqb (unicode.IsSpace r) false) eqn:Er.
  - apply eqb_prop in Er. exists i, r, size. repeat split; auto; lia.
  - assert (Hsp : unicode.IsSpace r = true) by (by destruct (unicode.IsSpace r)).
    assert (Hne : take i s ≠ []).
    { apply take_nonempty; lia. }
    assert (Hlen : length (take i s) = i) by (rewrite length_take; lia).
    pose proof (decodeLast_width _ Hne) as Hw. rewrite E, Hlen in Hw. simpl in Hw.
    apply IH; [lia|lia|].
    pose proof (decodeLast_view _ Hne) as Hv. simpl in Hv. rewrite Hlen in Hv.
    rewrite at_take in Hv by lia.
    destruct Hv as [[Hlo Hv]|[Hhi [Hv|(start & r' & size' & Hs & Hpos & Hdec & Hv)]]];
      rewrite Hv in E; injection E as <- <-.
    + destruct (drop_at s (i - 1)) as (c & Hc & Hb); [lia|]. rewrite Hc. simpl.
      change utf8.RuneSelf with 128%N in Hlo.
      rewrite RuneStart_byte, Hb, Hlo. done.
    + done.
    + replace (i - size') with start by lia.
      assert (Hst : startOK (drop start (take i s))).
      { eapply decode_start; [done|]. by intros ->. }
      destruct (drop_at s start) as (c & Hc & Hb); [lia|]. rewrite Hc. simpl.
      destruct (drop_at (take i s) start) as (c' & Hc' & Hb'); [lia|].
      rewrite Hc' in Hst. simpl in Hst. rewrite at_take in Hb' by lia.
      rewrite RuneStart_byte, Hb, <- Hb', <- RuneStart_byte. done.
Qed.

Lemma TrimRightFunc_spec s :
  ∃ e, strings.TrimRightFunc s unicode.IsSpace = take e s ∧
       lastNS (strings.TrimRightFunc s unicode.IsSpace).
Proof.
  unfold strings.TrimRightFunc, strings.lastIndexFunc.
  pose proof (lastIndex_spec (length s) (length s) s (le_n _) (le_n _)) as Hi.
  rewrite drop_all in Hi. specialize (Hi I).
  destruct (strings.lastIndexFuncFrom _ _ _ _ _) as [k|].
  - destruct Hi as (e & r & size & He & Hd & Hr & -> & Hok).
    rewrite (trimRight_cut s e r size) by done.
    exists e. split; [done|]. unfold lastNS. by rewrite Hd.
  - exists 0. done.
Qed.

Lemma TrimRightFunc_fix s : lastNS s → strings.TrimRightFunc s unicode.IsSpace = s.
Proof.
  unfold lastNS. intros Hs. destruct s as [|c t]; [done|].
  unfold strings.TrimRightFunc, strings.lastIndexFunc.
  set (s := c :: t) in *. change (length s) with (S (length t)) at 1.
  cbn [strings.lastIndexFuncFrom]. change (length s =? 0) with false. cbv iota.
  rewrite firstn_all.
  destruct (utf8.DecodeLastRuneInString s) as [r size] eqn:E. simpl in Hs.
  rewrite Hs. simpl eqb. cbv iota.
  rewrite (trimRight_cut s (length s) r size).
  - apply firstn_all.
  - subst s. simpl. lia.
  - by rewrite firstn_all.
  - by rewrite drop_all.
Qed.

Lemma TrimFunc_spec s :
  ∃ a e, strings.TrimFunc s unicode.IsSpace = take e (drop a s) ∧
         trimmed (strings.TrimFunc s unicode.IsSpace).
Proof.
  unfold strings.TrimFunc.
  destruct (TrimLeftFunc_spec s) as (d & Hd & Hf).
  destruct (TrimRightFunc_spec (strings.TrimLeftFunc s unicode.IsSpace)) as (e & He & Hl).
  exists d, e. split; [by rewrite He, Hd|]. split; [|done].
  rewrite He. by apply firstNS_take.
Qed.

Lemma trimSpaceStop_spec t stop :
  stop ≤ length t → firstNS t →
  ∃ e, strings.trimSpaceStop t stop = take e t ∧ trimmed (strings.trimSpaceStop t stop).
Proof.
  intros Hs Hf. induction stop as [|k IH]; simpl.
  - exists 0. split; [done|]. rewrite take_0. apply trimmed_nil.
  - destruct (utf8.RuneSelf <=? at_ t k)%N eqn:Hc.
    + destruct (TrimRightFunc_spec (take (S k) t)) as (e & He & Hl).
      exists (min e (S k)). rewrite He, take_take. split; [done|]. split.
      * by apply firstNS_take.
      * rewrite <- take_take, <- He. done.
    + destruct (strings.asciiSpace (at_ t k)) eqn:Ha; [apply IH; lia|].
      exists (S k). split; [done|]. split; [by apply firstNS_take|].
      unfold lastNS.
      assert (Hne : take (S k) t ≠ []).
      { apply take_nonempty; lia. }
      pose proof (decodeLast_view _ Hne) as Hv. simpl in Hv.
      rewrite length_take, Nat.min_l in Hv by lia.
      replace (S k - 1) with k in Hv by lia. rewrite at_take in Hv by lia.
      rewrite N.leb_antisym in Hc. apply negb_false_iff in Hc.
      destruct Hv as [[_ ->]|[? _]]; [|congruence]. simpl.
      unfold at_ in *. by rewrite IsSpace_ascii.
Qed.

Lemma TrimSpace_spec s :
  ∃ a e, strings.TrimSpace s = take e (drop a s) ∧ trimmed (strings.TrimSpace s).
Proof.
  induction s as [|c t IH]; simpl.
  - exists 0, 0. split; [done|]. apply trimmed_nil.
  - destruct (utf8.RuneSelf <=? byte c)%N eqn:Hc.
    + apply (TrimFunc_spec (c :: t)).
    + destruct (strings.asciiSpace (byte c)) eqn:Ha.
      * destruct IH as (a & e & He & Ht). by exists (S a), e.
      * rewrite N.leb_antisym in Hc. apply negb_false_iff in Hc.
        destruct (trimSpaceStop_spec (c :: t) (length (c :: t))) as (e & He & Ht); [done| |].
        -- unfold firstNS. rewrite decode_ascii by done. simpl.
           by rewrite IsSpace_ascii.
        -- by exists 0, e.
Qed.

Lemma TrimSpace_fix u : trimmed u → strings.TrimSpace u = u.
Proof.
  intros [Hf Hl]. destruct u as [|c t]; [done|]. simpl.
  destruct (utf8.RuneSelf <=? byte c)%N eqn:Hc.
  - unfold strings.TrimFunc. rewrite TrimLeftFunc_fix by done.
    by apply TrimRightFunc_fix.
  - rewrite N.leb_antisym in Hc. apply negb_false_iff in Hc.
    unfold firstNS in Hf. rewrite decode_ascii in Hf by done. simpl in Hf.
    rewrite IsSpace_ascii in Hf by done. rewrite Hf.
    set (u := c :: t) in *. change (length u) with (S (length t)).
    cbn [strings.trimSpaceStop].
    rewrite !(firstn_all t). fold u.
    destruct (utf8.RuneSelf <=? at_ u (length t))%N eqn:Hc'.
    + by apply TrimRightFunc_fix.
    + rewrite N.leb_antisym in Hc'. apply negb_false_iff in Hc'.
      assert (Hne : u ≠ []) by done.
      pose proof (decodeLast_view _ Hne) as Hv. cbv zeta in Hv.
      replace (length u - 1) with (length t) in Hv by (subst u; simpl; lia).
      destruct Hv as [[_ Hv]|[? _]]; [|congruence].
      unfold lastNS in Hl. rewrite Hv in Hl. simpl in Hl.
      unfold at_ in *. rewrite IsSpace_ascii in Hl by done. by rewrite Hl.
Qed.

Lemma TrimSpace_idempotent s :
  strings.TrimSpace (strings.TrimSpace s) = strings.TrimSpace s.
Proof. destruct (TrimSpace_spec s) as (_ & _ & _ & Ht). by apply TrimSpace_fix. Qed.

Lemma TrimSpace_occurs p s : occurs p (strings.TrimSpace s) → occurs p s.
Proof.
  destruct (TrimSpace_spec s) as (a & e & -> & _). intros Ho.
  eapply occurs_drop, occurs_take, Ho.
Qed.

(** * [Filter] *)

Lemma Filter_chain name err :
  Filter name err = strings.TrimSpace (replaceChain filter_rules name).
Proof. reflexivity. Qed.

Lemma replaceChain_absent rules s :
  (∀ r, r ∈ rules → r.1 ≠ [] ∧ ¬ occurs r.1 s) → replaceChain rules s = s.
Proof.
  induction rules as [|[o n] rules IH]; intros Hr; simpl; [done|].
  destruct (Hr (o, n)) as [Ho Hno]; [apply list_elem_of_here|]. simpl in *.
  rewrite ReplaceAll_absent by done. apply IH.
  intros r Hin. apply Hr. by apply list_elem_of_further.
Qed.

Lemma filter_rules_ok : chain_ok filter_rules = true.
Proof. vm_compute. reflexivity. Qed.

Lemma chain_clean name r :
  r ∈ filter_rules → ¬ occurs r.1 (replaceChain filter_rules name).
Proof.
  destruct r as [o n]. intros Hin. eapply replaceChain_clean; [|done].
  apply filter_rules_ok.
Qed.

Lemma Filter_clean name err r :
  r ∈ filter_rules → ¬ occurs r.1 (Filter name err).
Proof.
  intros Hin Ho. rewrite Filter_chain in Ho. apply TrimSpace_occurs in Ho.
  by apply (chain_clean name r).
Qed.

Lemma forbidden_rule p : p ∈ forbidden → ∃ n, (p, n) ∈ filter_rules.
Proof.
  unfold forbidden, filter_rules. intros Hp.
  repeat (apply elem_of_cons in Hp as [->|Hp]); [..|by apply elem_of_nil in Hp];
    eexists; repeat first [apply list_elem_of_here | apply list_elem_of_further].
Qed.

(** C8. [Filter] is idempotent, and its result contains none of the
    eleven forbidden characters: applying it to its own result changes
    nothing, and [strings.Contains] finds none of [<], [>], backslash,
    the double quote, [/], [|], [?], [*], [【], [】] and [:] in it. *)
Theorem Filter_idempotent_and_clean (name : list ascii) (err err' : option error) :
  Filter (Filter name err) err' = Filter name err ∧
  ∀ p, p ∈ forbidden → strings.Contains (Filter name err) p = false.
Proof.
  split.
  - rewrite (Filter_chain (Filter name err)).
    rewrite replaceChain_absent.
    + rewrite Filter_chain. apply TrimSpace_idempotent.
    + intros r Hr. split; [|by apply Filter_clean].
      clear -Hr. unfold filter_rules in Hr.
      repeat (apply elem_of_cons in Hr as [->|Hr]); try done.
      by apply elem_of_nil in Hr.
  - intros p Hp. apply Contains_false.
    destruct (forbidden_rule p Hp) as [n Hn].
    apply (Filter_clean name err (p, n) Hn).
Qed.

(** * The monad *)

Lemma bind_Ret {A B} (m : M A) (k : A → M B) σ a σ' :
  m σ = Ret a σ' → bind m k σ = k a σ'.
Proof. unfold bind. by intros ->. Qed.

Lemma bind_ret {A B} (a : A) (k : A → M B) σ : bind (ret a) k σ = k a σ.
Proof. reflexivity. Qed.

Lemma bind_get {B} (k : State → M B) σ : bind get k σ = k σ σ.
Proof. reflexivity. Qed.

Lemma bind_modify {B} f (k : unit → M B) σ : bind (modify f) k σ = k tt (f σ).
Proof. reflexivity. Qed.

Lemma bind_bind {A B C} (m : M A) (k : A → M B) (k' : B → M C) σ :
  bind (bind m k) k' σ = bind m (fun a => bind (k a) k') σ.
Proof. unfold bind. by destruct (m σ). Qed.

(** * [copyFile] and [M4sToAV] *)

Lemma Stat_file σ name content : files σ !! name = Some content → os.Stat name σ = true.
Proof. intros Hf. unfold os.Stat. apply bool_decide_eq_true. left. by rewrite Hf. Qed.

Lemma Create_ok σ dst :
  dst ≠ [] → dst ∉ dirs σ → dst ∉ denied σ →
  os.Create dst σ = Ret (inl (mkFile dst 0)) (set_files (<[dst := []]> (files σ)) σ).
Proof.
  intros H1 H2 H3. unfold os.Create. rewrite bind_get.
  rewrite bool_decide_eq_false_2 by (intros [?|[?|?]]; done). reflexivity.
Qed.

Lemma Create_refused σ dst :
  dst = [] ∨ dst ∈ dirs σ ∨ dst ∈ denied σ →
  os.Create dst σ =
  Ret (inr (PathError "open" dst "The system cannot find the path specified.")) σ.
Proof.
  intros Hd. unfold os.Create. rewrite bind_get.
  by rewrite bool_decide_eq_true_2.
Qed.

(** What [M4sToAV] does to a readable fragment whose destination can be
    created: the destination receives the source from the offset where
    the closure leaves the file, which is 9 when the header is
    complete, whatever the header holds. *)
Lemma M4sToAV_copies σ src dst content :
  files σ !! src = Some content →
  src ≠ dst → dst ≠ [] → dst ∉ dirs σ → dst ∉ denied σ →
  M4sToAV src dst σ =
  Ret None
    (set_files (<[dst := drop (min 9 (length content)) content]> (files σ))
       (if bool_decide (take 9 content = "000000000") then σ
        else add_log LError "音视频文件不是9个0的头，跳过转换" σ)).
Proof.
  intros Hsrc Hne H1 H2 H3.
  remember (min 9 (length content)) as m eqn:Hm.
  unfold M4sToAV, copyFile.
  unfold os.Open. rewrite bind_bind, bind_get, (Stat_file _ _ _ Hsrc), bind_ret.
  unfold io.ReadAtLeast. rewrite !bind_bind, bind_get.
  change (length (replicate 9 zero) <? 9) with false. cbv iota.
  cbn [fname offset]. rewrite Hsrc, bind_ret. rewrite drop_0.
  set (got := take (length (replicate 9 zero)) content).
  assert (Hgot : got = take 9 content) by reflexivity.
  assert (Hlen : length got = m) by (rewrite Hgot, Hm; apply length_take).
  destruct (bool_decide (take 9 content = "000000000")) eqn:Hs.
  - apply bool_decide_eq_true in Hs.
    assert (H9 : length got = 9) by (rewrite Hgot, Hs; reflexivity).
    rewrite H9. change (drop 9 (replicate 9 zero)) with (@nil ascii).
    rewrite app_nil_r, Hgot, Hs.
    rewrite bool_decide_eq_false_2 by (intros Hn; by apply Hn).
    unfold os.Seek. rewrite !bind_bind, !bind_ret. cbn [fname].
    rewrite (bind_Ret _ _ _ _ _ (Create_ok σ dst H1 H2 H3)).
    unfold io.Copy. rewrite bind_bind, bind_get. cbn [fname offset files set_files].
    rewrite lookup_insert_ne by done. rewrite Hsrc.
    rewrite lookup_insert_eq. cbn [default].
    rewrite bind_bind, bind_modify, !bind_ret. unfold ret. f_equal.
    unfold set_files; cbn. f_equal.
    rewrite drop_nil, app_nil_r. rewrite insert_insert_eq.
    rewrite <- H9, Hlen. done.
  - apply bool_decide_eq_false in Hs.
    rewrite bool_decide_eq_true_2.
    2:{ intros Heq. assert (length got ≤ 9) by (rewrite Hlen; lia).
        destruct (decide (length got = 9)) as [E|E].
        - apply Hs. rewrite <- Hgot. rewrite E in Heq.
          change (drop 9 (replicate 9 zero)) with (@nil ascii) in Heq.
          by rewrite app_nil_r in Heq.
        - (* fewer than nine bytes: the buffer keeps a zero byte *)
          assert (Hz : (got ++ drop (length got) (replicate 9 zero)) !! 8 = Some zero).
          { rewrite lookup_app_r by lia. rewrite lookup_drop.
            apply lookup_replicate. split; [done|lia]. }
          rewrite Heq in Hz. discriminate. }
    unfold logrus.Error. rewrite !bind_bind, bind_modify, !bind_ret.
    cbn [fname offset].
    set (σ0 := add_log _ _ σ).
    assert (Hc : os.Create dst σ0 = Ret (inl (mkFile dst 0)) (set_files (<[dst := []]> (files σ0)) σ0)).
    { apply Create_ok; done. }
    rewrite (bind_Ret _ _ _ _ _ Hc).
    unfold io.Copy. rewrite bind_bind, bind_get. cbn [fname offset files set_files].
    change (files σ0) with (files σ).
    rewrite lookup_insert_ne by done. rewrite Hsrc.
    rewrite lookup_insert_eq. cbn [default].
    rewrite bind_bind, bind_modify, !bind_ret. unfold ret. f_equal.
    unfold set_files; cbn. f_equal.
    rewrite drop_nil, app_nil_r. rewrite insert_insert_eq.
    by rewrite <- Hgot, Hlen.
Qed.

(** * Walks as lists of calls *)

Lemma Node_induction (P : Node → Prop) :
  (∀ name, P (File name)) →
  (∀ name readErr entries, Forall P entries → P (Directory name readErr entries)) →
  (∀ name e, P (Broken name e)) →
  ∀ d, P d.
Proof.
  intros Hf Hd Hb. fix IH 1. intros [name|name readErr entries|name e].
  - apply Hf.
  - apply Hd. induction entries as [|d ds IHds]; constructor; [apply IH|apply IHds].
  - apply Hb.
Qed.

Lemma bind_ext {A B} (m : M A) (k k' : A → M B) σ :
  (∀ a σ', k a σ' = k' a σ') → bind m k σ = bind m k' σ.
Proof. intros Hk. unfold bind. destruct (m σ); auto. Qed.

Section Walks.
Context {host : Host} {A : Type}.
Implicit Types (fn : filepath.WalkFunc (A := A)) (a : A).

Lemma runCalls_app fn l1 l2 a σ :
  filepath.runCalls fn (l1 ++ l2) a σ =
  andThen (filepath.runCalls fn l1 a) (filepath.runCalls fn l2) σ.
Proof.
  revert a σ. induction l1 as [|[[p d] e] l1 IH]; intros a σ; simpl.
  - reflexivity.
  - unfold andThen. rewrite bind_bind. apply bind_ext. intros [[e'|] a'] σ'.
    + reflexivity.
    + apply IH.
Qed.

Lemma walkDir_runCalls d : ∀ path fn a σ,
  filepath.walkDir path d fn a σ = filepath.runCalls fn (filepath.walkDirCalls path d) a σ.
Proof.
  induction d as [name|name readErr entries IH|name e] using Node_induction;
    intros path fn a σ.
  - simpl. unfold bind. destruct (fn a path (File name) None σ) as [[[?|] ?] ?| |]; done.
  - cbn [filepath.walkDir filepath.walkDirCalls filepath.runCalls].
    apply bind_ext. intros [[e|] a1] σ1; [done|].
    set (loop := fix loop (ds : list Node) (a : A) : M (option error * A) := _).
    set (each := fix each (ds : list Node) : list (list ascii * Node * option error) := _).
    assert (Hloop : ∀ a σ, loop entries a σ = filepath.runCalls fn (each entries) a σ).
    { clear -IH. induction entries as [|d1 ds IHds]; intros a σ; [done|].
      apply Forall_cons in IH as [IH1 IH]. cbn [loop each].
      rewrite runCalls_app. unfold andThen. unfold bind at 1. rewrite IH1.
      unfold bind. destruct (filepath.runCalls _ _ _ _) as [[[?|] ?] ?| |]; try done.
      by apply IHds. }
    destruct readErr as [e|].
    + cbn [app filepath.runCalls]. apply bind_ext. intros [[e'|] a2] σ2; [done|].
      apply Hloop.
    + rewrite bind_ret. apply Hloop.
  - simpl. unfold bind. destruct (fn a path (Broken name e) None σ) as [[[?|] ?] ?| |]; done.
Qed.

Lemma walk_runCalls info : ∀ path fn a σ,
  filepath.walk path info fn a σ = filepath.runCalls fn (filepath.walkCalls path info) a σ.
Proof.
  induction info as [name|name readErr names IH|name e] using Node_induction;
    intros path fn a σ.
  - simpl. unfold bind. destruct (fn a path (File name) None σ) as [[[?|] ?] ?| |]; done.
  - cbn [filepath.walk filepath.walkCalls filepath.runCalls].
    apply bind_ext. intros [err1 a1] σ1.
    destruct readErr as [e|].
    + destruct err1; reflexivity.
    + destruct err1 as [e1|]; [reflexivity|].
      set (loop := fix loop (ns : list Node) (a : A) : M (option error * A) := _).
      set (each := fix each (ns : list Node) : list (list ascii * Node * option error) := _).
      clear -IH. revert a1 σ1.
      induction names as [|d1 ds IHds]; intros a σ; [done|].
      apply Forall_cons in IH as [IH1 IH]. cbn [loop each].
      rewrite runCalls_app. unfold andThen.
      destruct d1 as [n1|n1 r1 es1|n1 e1].
      * unfold bind at 1. rewrite IH1.
        unfold bind. destruct (filepath.runCalls _ _ _ _) as [[[?|] ?] ?| |]; try done.
        by apply IHds.
      * unfold bind at 1. rewrite IH1.
        unfold bind. destruct (filepath.runCalls _ _ _ _) as [[[?|] ?] ?| |]; try done.
        by apply IHds.
      * cbn [filepath.runCalls]. rewrite bind_bind. apply bind_ext.
        intros [[?|] ?] ?; [done|]. rewrite bind_ret. by apply IHds.
  - simpl. unfold bind. destruct (fn a path (Broken name e) None σ) as [[[?|] ?] ?| |]; done.
Qed.

Lemma WalkDir_runCalls root fn a σ :
  filepath.WalkDir root fn a σ =
  filepath.runCalls fn (filepath.rootCalls filepath.walkDirCalls root (Tree σ root)) a σ.
Proof.
  unfold filepath.WalkDir, filepath.rootCalls. rewrite bind_get.
  destruct (Tree σ root) eqn:E; try apply walkDir_runCalls.
  simpl. unfold bind. destruct (fn a root _ _ σ) as [[[?|] ?] ?| |]; done.
Qed.

Lemma Walk_runCalls root fn a σ :
  filepath.Walk root fn a σ =
  filepath.runCalls fn (filepath.rootCalls filepath.walkCalls root (Tree σ root)) a σ.
Proof.
  unfold filepath.Walk, filepath.rootCalls. rewrite bind_get.
  destruct (Tree σ root) eqn:E; try apply walk_runCalls.
  simpl. unfold bind. destruct (fn a root _ _ σ) as [[[?|] ?] ?| |]; done.
Qed.

(** A walk stops at the first call that returns an error: nothing that
    comes after it in the order of the walk is called. *)
Lemma runCalls_stops fn pre path d err post a σ a1 σ1 e a2 σ2 :
  filepath.runCalls fn pre a σ = Ret (None, a1) σ1 →
  fn a1 path d err σ1 = Ret (Some e, a2) σ2 →
  filepath.runCalls fn (pre ++ (path, d, err) :: post) a σ = Ret (Some e, a2) σ2.
Proof.
  intros Hpre Hfn. rewrite runCalls_app. unfold andThen, bind. rewrite Hpre.
  simpl. unfold bind. by rewrite Hfn.
Qed.

End Walks.

(** * The header repair *)

(** C6. A fragment that starts with the nine zeros is repaired: when the
    source can be read and the destination, a different path, can be
    created, [M4sToAV] returns no error and leaves at the destination
    the bytes of the source from offset 9 on, nine bytes fewer than the
    source, whatever the destination held before; nothing else changes,
    and running it again leaves the same state. *)
Theorem M4sToAV_strips_sentinel (σ : State) (src dst content : list ascii) :
  files σ !! src = Some content →
  take 9 content = "000000000" →
  src ≠ dst → dst ≠ [] → dst ∉ dirs σ → dst ∉ denied σ →
  let σ' := set_files (<[dst := drop 9 content]> (files σ)) σ in
  M4sToAV src dst σ = Ret None σ' ∧
  files σ' !! dst = Some (drop 9 content) ∧
  length (drop 9 content) = length content - 9 ∧
  M4sToAV src dst σ' = Ret None σ'.
Proof.
  intros Hsrc Hs Hne H1 H2 H3 σ'.
  assert (H9 : min 9 (length content) = 9).
  { apply (f_equal length) in Hs. rewrite length_take in Hs. exact Hs. }
  assert (Hrun : ∀ τ, files τ !! src = Some content → dst ∉ dirs τ → dst ∉ denied τ →
            M4sToAV src dst τ = Ret None (set_files (<[dst := drop 9 content]> (files τ)) τ)).
  { intros τ Hτ Hd1 Hd2. rewrite (M4sToAV_copies τ src dst content) by done.
    rewrite H9. by rewrite bool_decide_eq_true_2. }
  split; [by apply Hrun|]. split; [apply lookup_insert_eq|]. split; [apply length_drop|].
  rewrite Hrun; [|by subst σ'; cbn; rewrite lookup_insert_ne|done|done].
  f_equal. subst σ'. unfold set_files. cbn. f_equal. apply insert_insert_eq.
Qed.

Lemma M4sToAV_strips_sentinel_witness :
  let σ := exampleState (<[("cache\100.m4s" : gostring) := ("000000000abc" : gostring)]> ∅) in
  let σ' := set_files (<[("cache\100.video" : gostring) := ("abc" : gostring)]> (files σ)) σ in
  M4sToAV "cache\100.m4s" "cache\100.video" σ = Ret None σ' ∧
  files σ' !! ("cache\100.video" : gostring) = Some ("abc" : gostring) ∧
  length ("abc" : gostring) = 12 - 9 ∧
  M4sToAV "cache\100.m4s" "cache\100.video" σ' = Ret None σ'.
Proof.
  apply (M4sToAV_strips_sentinel
           (exampleState (<[("cache\100.m4s" : gostring) := ("000000000abc" : gostring)]> ∅))
           "cache\100.m4s" "cache\100.video" "000000000abc").
  - reflexivity.
  - reflexivity.
  - discriminate.
  - discriminate.
  - vm_compute. set_solver.
  - vm_compute. set_solver.
Defined.

(** C1. A fragment that does not start with the nine zeros is not
    skipped: [return] leaves the closure only, [copyFile] goes on,
    creates the destination and copies what follows the nine bytes
    read.  Here the source holds [111111111abc]. *)
Theorem M4sToAV_copies_without_sentinel :
  let σ := exampleState (<[("cache\100.m4s" : gostring) := ("111111111abc" : gostring)]> ∅) in
  ∃ σ', M4sToAV "cache\100.m4s" "cache\100.video" σ = Ret None σ' ∧
        files σ !! ("cache\100.video" : gostring) = None ∧
        files σ' !! ("cache\100.video" : gostring) = Some ("abc" : gostring) ∧
        log σ' = [(LError, "音视频文件不是9个0的头，跳过转换" : gostring)].
Proof.
  intros σ. eexists. split; [|split; [|split]].
  - apply (M4sToAV_copies σ "cache\100.m4s" "cache\100.video" "111111111abc").
    + reflexivity.
    + discriminate.
    + discriminate.
    + vm_compute. set_solver.
    + vm_compute. set_solver.
  - reflexivity.
  - apply lookup_insert_eq.
  - reflexivity.
Qed.

(** * The classifier *)

(** C9. [ReplaceAll] rewrites every [.m4s] of the path, not the
    extension alone: below a directory [a.m4s.d] the destination lies in
    another directory, [a.video.d]. *)
Theorem destination_rewrites_directories :
  destination (conver := exampleConver) "cache\a.m4s.d\100.m4s" "100.m4s" "100" "200"
  = ("cache\a.video.d\100.video" : gostring).
Proof. vm_compute. reflexivity. Qed.

Lemma ReplaceAll_suffix (base old new : list ascii) :
  old ≠ [] → strings.Index (base ++ old) old = Some (length base) →
  strings.ReplaceAll (base ++ old) old new = base ++ new.
Proof.
  intros Hold Hidx. unfold strings.ReplaceAll. case_bool_decide as Heq; [by subst|].
  destruct old as [|c old]; [done|].
  assert (Hlen : length (base ++ c :: old) = S (length base + length old)).
  { rewrite length_app. simpl. lia. }
  rewrite Hlen. cbn [strings.replaceEach]. rewrite Hidx.
  rewrite take_app_length.
  replace (drop (length base + length (c :: old)) (base ++ c :: old)) with (@nil ascii)
    by (symmetry; apply drop_ge; rewrite Hlen; simpl; lia).
  rewrite replaceEach_absent, app_nil_r; [done|].
  intros (l & r & Hl). by destruct l.
Qed.

Section Classifier.
Context {conver : Conver} {host : Host}.

(** Where [.m4s] occurs in the path only as its extension, the
    destination is the path with that extension replaced. *)
Lemma destination_replaces_extension (base name videoId audioId : list ascii) :
  M4sSuffix ≠ [] →
  strings.Index (base ++ M4sSuffix) M4sSuffix = Some (length base) →
  videoId ≠ [] → audioId ≠ [] →
  destination (base ++ M4sSuffix) name videoId audioId =
  base ++ (if strings.Contains name audioId then AudioSuffix else VideoSuffix).
Proof.
  intros Hm Hidx Hv Ha. unfold destination.
  rewrite !bool_decide_eq_true_2 by done. cbn [andb].
  destruct (strings.Contains name audioId); by apply ReplaceAll_suffix.
Qed.

(** C10. A manifest that is read and decoded, and whose video or audio
    array is empty, makes [GetVAId] panic at the index 0: only the
    failures of reading and of decoding return the two empty
    identifiers. *)
Theorem GetVAId_panics_on_empty_streams (σ : State) (patch puDate : list ascii)
    (p : PlayUrl) :
  files σ !! Join (Dir patch) PlayUrlSuffix = Some puDate →
  Unmarshal puDate = inl p →
  Video (Dash (Data p)) = [] ∨ Audio (Dash (Data p)) = [] →
  GetVAId patch σ = Panic "runtime error: index out of range [0] with length 0" σ.
Proof.
  intros Hf Hp Hempty. unfold GetVAId, os.ReadFile.
  rewrite bind_bind, bind_get, Hf, bind_ret, Hp.
  destruct Hempty as [Hv|Ha].
  - rewrite Hv. reflexivity.
  - rewrite Ha. destruct (Video (Dash (Data p))); reflexivity.
Qed.

End Classifier.

Lemma GetVAId_panics_on_empty_streams_witness :
  GetVAId (conver := exampleConver) (host := exampleHost (File "cache") (Waited None))
    "cache\s1\100.m4s"
    (exampleState (<[("cache\s1\.playurl" : gostring) := playurl_empty]> ∅))
  = Panic "runtime error: index out of range [0] with length 0"
      (exampleState (<[("cache\s1\.playurl" : gostring) := playurl_empty]> ∅)).
Proof.
  apply (GetVAId_panics_on_empty_streams (conver := exampleConver)
           (host := exampleHost (File "cache") (Waited None))
           _ "cache\s1\100.m4s" playurl_empty (mkPlayUrl (mkData (mkDash [] [])))).
  - reflexivity.
  - reflexivity.
  - left. reflexivity.
Defined.

(** * The fragment walk *)

Section FragmentWalk.
Context {conver : Conver} {host : Host}.

Lemma FindM4sFiles_repair_fails σ src info videoId audioId σ1 e σ2 :
  filepath.Ext (Name info) = M4sSuffix →
  GetVAId src σ = Ret (videoId, audioId) σ1 →
  M4sToAV src (destination src (Name info) videoId audioId) σ1 = Ret (Some e) σ2 →
  FindM4sFiles tt src info None σ =
  Ret (Some e, tt)
    (add_log LMessageBox (src ++ " 转换异常：" ++ ErrorText e)
       (add_log LError (src ++ " 转换异常：" ++ ErrorText e) σ2)).
Proof.
  intros Hext Hid Hrep. unfold FindM4sFiles.
  rewrite bool_decide_eq_true_2 by done.
  rewrite (bind_Ret _ _ _ _ _ Hid). rewrite (bind_Ret _ _ _ _ _ Hrep).
  reflexivity.
Qed.

(** C2, as the code has it.  The walk stops at the first call of
    [FindM4sFiles] that returns an error, and that is the call that
    reports a listing error as well as the call on a fragment whose
    repair fails: the callback shows the error and returns it,
    [WalkDir] returns it to [main] without a call for any later entry,
    and [main] shows it and leaves through [wait]. *)
Theorem walk_stops_at_first_error (elapsed : Z) (σ : State)
    (pre post : list (list ascii * Node * option error))
    (src : list ascii) (info : Node) (err : option error)
    (σ1 σ2 : State) (e : error) :
  let root := CachePath (config σ) in
  filepath.rootCalls filepath.walkDirCalls root (Tree σ root)
    = pre ++ (src, info, err) :: post →
  filepath.runCalls FindM4sFiles pre tt σ = Ret (None, tt) σ1 →
  (err = Some e ∧ σ2 = σ1) ∨
  (err = None ∧ filepath.Ext (Name info) = M4sSuffix ∧
   ∃ videoId audioId σ1' σr,
     GetVAId src σ1 = Ret (videoId, audioId) σ1' ∧
     M4sToAV src (destination src (Name info) videoId audioId) σ1' = Ret (Some e) σr ∧
     σ2 = add_log LMessageBox (src ++ " 转换异常：" ++ ErrorText e)
            (add_log LError (src ++ " 转换异常：" ++ ErrorText e) σr)) →
  filepath.WalkDir root FindM4sFiles tt σ = Ret (Some e, tt) σ2 ∧
  main elapsed σ =
  Exit 0
    (add_log LPrint "按回车键退出..."
       (add_log LMessageBox ("找不到 bilibili 目录下的 m4s 文件：" ++ ErrorText e)
          (add_log LError ("找不到 bilibili 目录下的 m4s 文件：" ++ ErrorText e) σ2))).
Proof.
  intros root Hcalls Hpre Hcase.
  assert (Hfn : FindM4sFiles tt src info err σ1 = Ret (Some e, tt) σ2).
  { destruct Hcase as [[-> ->]|(-> & Hext & v & a & σ1' & σr & Hid & Hrep & ->)].
    - reflexivity.
    - by apply (FindM4sFiles_repair_fails σ1 src info v a σ1' e σr). }
  assert (Hwalk : filepath.WalkDir root FindM4sFiles tt σ = Ret (Some e, tt) σ2).
  { rewrite WalkDir_runCalls, Hcalls.
    by apply (runCalls_stops FindM4sFiles pre src info err post tt σ tt σ1 e tt σ2). }
  split; [done|].
  unfold main. rewrite bind_get. fold root.
  rewrite (bind_Ret _ _ _ _ _ Hwalk). reflexivity.
Qed.

End FragmentWalk.

Lemma walk_stops_at_first_error_witness :
  filepath.WalkDir (host := twoFragmentsHost) "cache"
    (FindM4sFiles (conver := exampleConver) (host := twoFragmentsHost)) tt twoFragmentsState
  = Ret (Some noPath, tt)
      (add_log LMessageBox ("cache\1.m4s 转换异常：" ++ ErrorText noPath)
         (add_log LError ("cache\1.m4s 转换异常：" ++ ErrorText noPath)
            (add_log LError "找不到.playurl文件: cache\.playurl" twoFragmentsState))) ∧
  main (conver := exampleConver) (host := twoFragmentsHost) 0 twoFragmentsState
  = Exit 0
      (add_log LPrint "按回车键退出..."
         (add_log LMessageBox ("找不到 bilibili 目录下的 m4s 文件：" ++ ErrorText noPath)
            (add_log LError ("找不到 bilibili 目录下的 m4s 文件：" ++ ErrorText noPath)
               (add_log LMessageBox ("cache\1.m4s 转换异常：" ++ ErrorText noPath)
                  (add_log LError ("cache\1.m4s 转换异常：" ++ ErrorText noPath)
                     (add_log LError "找不到.playurl文件: cache\.playurl"
                        twoFragmentsState)))))).
Proof.
  apply (walk_stops_at_first_error (conver := exampleConver)
           (host := twoFragmentsHost) 0 twoFragmentsState
           [("cache" : gostring, twoFragments, None)]
           [("cache\2.m4s" : gostring, File "2.m4s", None)]
           "cache\1.m4s" (File "1.m4s") None twoFragmentsState).
  - reflexivity.
  - reflexivity.
  - right. split; [reflexivity|]. split; [reflexivity|].
    exists [], [], (add_log LError "找不到.playurl文件: cache\.playurl" twoFragmentsState),
      (add_log LError "找不到.playurl文件: cache\.playurl" twoFragmentsState).
    split; [reflexivity|]. split; [|reflexivity]. vm_compute. reflexivity.
Defined.

(** C2, as the spec has it, fails on these two fragments: no directory
    fails to list, yet the walk returns the error of the first
    fragment, and the second fragment, which starts with the nine
    zeros, is left as it was: no file is made. *)
Lemma walk_aborts_on_fragment_failure :
  healthy twoFragments = true ∧
  ∃ σ', filepath.WalkDir (host := twoFragmentsHost) "cache"
          (FindM4sFiles (conver := exampleConver) (host := twoFragmentsHost))
          tt twoFragmentsState
        = Ret (Some noPath, tt) σ' ∧
        files σ' = files twoFragmentsState.
Proof.
  split; [reflexivity|]. eexists. split.
  - vm_compute. reflexivity.
  - reflexivity.
Qed.

(** * The search for the repaired pair *)

Lemma last_filter_cons {T} (P : T → bool) x l v :
  default v (last (List.filter P (x :: l))) =
  default (if P x then x else v) (last (List.filter P l)).
Proof.
  simpl. destruct (P x); [|done]. rewrite last_cons.
  by destruct (last (List.filter P l)).
Qed.

Lemma healthy_calls {host : Host} d : ∀ path,
  healthy d = true → Forall (fun c => c.2 = None) (filepath.walkCalls path d).
Proof.
  induction d as [name|name readErr entries IH|name e] using Node_induction;
    intros path Hd; simpl in *.
  - by repeat constructor.
  - destruct readErr; [done|]. constructor; [done|].
    induction entries as [|d1 ds IHds]; [constructor|].
    apply Forall_cons in IH as [IH1 IH]. simpl in Hd.
    apply andb_true_iff in Hd as [Hd1 Hd]. apply Forall_app. split.
    + destruct d1; try discriminate; by apply IH1.
    + by apply IHds.
  - discriminate.
Qed.

Section Resolver.
Context {conver : Conver} {host : Host}.

(** The search never stops the process, starts no command and touches
    no file; without an error among its calls it returns the last
    matches of the two suffixes. *)
Lemma GetAudioAndVideo_runs v σ :
  ∃ r σ', GetAudioAndVideo v σ = Ret r σ' ∧
    started σ' = started σ ∧ files σ' = files σ ∧ dirs σ' = dirs σ ∧
    denied σ' = denied σ ∧
    (Forall (fun c => c.2 = None) (filepath.rootCalls filepath.walkCalls v (Tree σ v)) →
     let fs := visitedFiles (filepath.rootCalls filepath.walkCalls v (Tree σ v)) in
     r = (lastWith VideoSuffix fs, lastWith AudioSuffix fs, None)).
Proof.
  unfold GetAudioAndVideo.
  set (fn := findAudioAndVideo).
  assert (Hgen : ∀ calls video audio τ,
    ∃ err va τ', filepath.runCalls fn calls (video, audio) τ = Ret (err, va) τ' ∧
      started τ' = started τ ∧ files τ' = files τ ∧ dirs τ' = dirs τ ∧
      denied τ' = denied τ ∧
      (Forall (fun c => c.2 = None) calls →
       err = None ∧
       va = (default video (last (List.filter (fun p => strings.Contains p VideoSuffix)
                                    (visitedFiles calls))),
             default audio (last (List.filter (fun p => strings.Contains p AudioSuffix)
                                    (visitedFiles calls)))))).
  { induction calls as [|[[p d] e] calls IH]; intros video audio τ.
    - exists None, (video, audio), τ. by split_and!.
    - cbn [filepath.runCalls]. destruct e as [e|].
      + exists (Some e), (video, audio), τ. split_and!; [done..|].
        intros Hall. apply Forall_cons in Hall as [? _]. done.
      + unfold fn at 1, findAudioAndVideo.
        assert (Hvis : IsDir d = true →
                  visitedFiles ((p, d, None) :: calls) = visitedFiles calls).
        { intros Hd. unfold visitedFiles. cbn [List.filter fst snd]. by rewrite Hd. }
        assert (Hdone : ∀ st, started st = started τ → files st = files τ →
                  dirs st = dirs τ → denied st = denied τ → IsDir d = true →
                  ∃ err va τ', filepath.runCalls fn calls (video, audio) st = Ret (err, va) τ' ∧
                    started τ' = started τ ∧ files τ' = files τ ∧ dirs τ' = dirs τ ∧
                    denied τ' = denied τ ∧
                    (Forall (fun c => c.2 = None) ((p, d, None) :: calls) →
                     err = None ∧
                     va = (default video (last (List.filter
                              (fun p => strings.Contains p VideoSuffix)
                              (visitedFiles ((p, d, None) :: calls)))),
                           default audio (last (List.filter
                              (fun p => strings.Contains p AudioSuffix)
                              (visitedFiles ((p, d, None) :: calls))))))).
        { intros st H1 H2 H3 H4 Hd.
          destruct (IH video audio st) as (err & va & τ' & Hr & ? & ? & ? & ? & Hres).
          exists err, va, τ'. split_and!; [done|congruence..|].
          intros Hall. apply Forall_cons in Hall as [_ Hall]. rewrite Hvis by done.
          by apply Hres. }
        destruct (IsDir d) eqn:Hdir; cbn [negb].
        * rewrite bind_bind, bind_get.
          destruct (negb (AssOFF (config τ))).
          -- destruct (DownloadFile _ _).
             ++ unfold logrus.Warn. rewrite !bind_bind, bind_modify, !bind_ret.
                by apply Hdone.
             ++ rewrite !bind_bind, bind_modify, !bind_ret. by apply Hdone.
          -- rewrite bind_ret. by apply Hdone.
        * rewrite bind_ret.
          match goal with |- context [filepath.runCalls fn calls (?v', ?a') τ] =>
            destruct (IH v' a' τ) as (err & va & τ' & -> & ? & ? & ? & ? & Hres)
          end.
          exists err, va, τ'. split_and!; [done..|].
          intros Hall. apply Forall_cons in Hall as [_ Hall].
          destruct (Hres Hall) as [-> ->]. split; [done|].
          unfold visitedFiles. cbn [List.filter fst snd]. rewrite Hdir.
          cbn [negb map fst]. by rewrite !last_filter_cons. }
  unfold bind at 1. rewrite Walk_runCalls.
  destruct (Hgen (filepath.rootCalls filepath.walkCalls v (Tree σ v)) [] [] σ)
    as (err & va & σ' & -> & ? & ? & ? & ? & Hres).
  destruct err as [e|].
  - exists ([], [], Some e), σ'. split_and!; [done..|].
    intros Hall. by destruct (Hres Hall).
  - exists (va.1, va.2, None), σ'. split_and!; [done..|].
    intros Hall. cbv zeta. destruct (Hres Hall) as [_ ->]. reflexivity.
Qed.

(** C3, as the code has it.  In a session directory that can be walked
    to its end, the pair is made of the last video path and the last
    audio path in the order of the walk: every match overwrites the one
    before. *)
Theorem GetAudioAndVideo_takes_last_match (v : list ascii) (σ : State) :
  healthy (Tree σ v) = true →
  let fs := visitedFiles (filepath.walkCalls v (Tree σ v)) in
  ∃ σ', GetAudioAndVideo v σ =
        Ret (lastWith VideoSuffix fs, lastWith AudioSuffix fs, None) σ'.
Proof.
  intros Hh fs.
  destruct (GetAudioAndVideo_runs v σ) as (r & σ' & Hrun & _ & _ & _ & _ & Hres).
  assert (Hroot : filepath.rootCalls filepath.walkCalls v (Tree σ v)
                  = filepath.walkCalls v (Tree σ v)).
  { unfold filepath.rootCalls. by destruct (Tree σ v). }
  rewrite Hroot in Hres. exists σ'. rewrite Hrun. f_equal.
  apply Hres. by apply healthy_calls.
Qed.

End Resolver.

Lemma GetAudioAndVideo_takes_last_match_witness :
  ∃ σ', GetAudioAndVideo (conver := exampleConver) (host := twoPairsHost) "s1"
          (exampleState ∅)
        = Ret ("s1\b.video" : gostring, "s1\b.audio" : gostring, None) σ'.
Proof.
  apply (GetAudioAndVideo_takes_last_match (conver := exampleConver)
           (host := twoPairsHost) "s1" (exampleState ∅)).
  reflexivity.
Defined.

(** C3, as the spec has it, fails on this session: the first video of
    the walk is [s1\a.video] and the first audio is [s1\a.audio], and
    the pair returned is [s1\b.video] and [s1\b.audio]. *)
Lemma GetAudioAndVideo_not_first_match :
  visitedFiles (filepath.walkCalls (host := twoPairsHost) "s1" twoPairs)
  = [ "s1\a.audio" : gostring; "s1\a.video" : gostring;
      "s1\b.audio" : gostring; "s1\b.video" : gostring ] ∧
  ∃ σ', GetAudioAndVideo (conver := exampleConver) (host := twoPairsHost) "s1"
          (exampleState ∅)
        = Ret ("s1\b.video" : gostring, "s1\b.audio" : gostring, None) σ'.
Proof.
  split; [reflexivity|]. eexists. vm_compute. reflexivity.
Qed.

(** * One session of the loop of [main] *)

Section Session.
Context {conver : Conver} {host : Host}.

Lemma Stat_same σ σ' name :
  files σ' = files σ → dirs σ' = dirs σ → os.Stat name σ' = os.Stat name σ.
Proof. intros Hf Hd. unfold os.Stat. by rewrite Hf, Hd. Qed.

(** [Composition] has one [return], and it returns [nil]. *)
Lemma Composition_returns_nil videoFile audioFile outputFile σ r σ' :
  Composition videoFile audioFile outputFile σ = Ret r σ' → r = None.
Proof.
  unfold Composition. rewrite bind_get, bind_modify.
  destruct (Run σ _ _) as [e|werr].
  - unfold MessageBox, logrus.Error, osExit, bind, modify. discriminate.
  - unfold bind at 1. destruct (copyFile _ _ _ _) as [err τ| |]; [|discriminate..].
    destruct err as [err|], werr as [werr|]; by intros [= <- _].
Qed.

(** C7, as the code has it.  A session whose directory was walked and
    whose manifest was read and decoded is recorded as skipped when its
    status, after [Filter], is not [completed]: its path joins the
    skipped paths, a warning is logged, no command is started, whatever
    pair the walk found, and the loop goes on with the summary. *)
Theorem session_skips_unfinished (v : list ascii) (s : Summary) (σ σ1 : State)
    (video audio infoStr : list ascii) (js : Json) :
  GetAudioAndVideo v σ = Ret (video, audio, None) σ1 →
  files σ !! (if os.Stat (Join v VideoInfoJson) σ
              then Join v VideoInfoJson else Join v VideoInfoSuffix) = Some infoStr →
  NewJson infoStr = inl js →
  uncurry Filter (GetString js "status") ≠ "completed" →
  session v s σ =
  Ret (mkSummary (outputDir s) (outputFiles s) (skipFilePaths s ++ [v]))
      (add_log LWarn
         ("未缓存完成,跳过合成" ++ v ++ uncurry Filter (GetString js "title")
          ++ "-" ++ uncurry Filter (GetString js "uname")) σ1) ∧
  started σ1 = started σ.
Proof.
  intros Hwalk Hinfo Hjs Hstatus.
  destruct (GetAudioAndVideo_runs v σ) as (r & σ' & Hrun & Hst & Hf & Hd & _).
  rewrite Hwalk in Hrun. injection Hrun as <- <-.
  split; [|done].
  unfold session. rewrite (bind_Ret _ _ _ _ _ Hwalk). cbv beta iota.
  unfold Exist. rewrite bind_bind, bind_get, bind_ret.
  rewrite (Stat_same σ σ1) by done.
  unfold os.ReadFile. rewrite bind_bind, bind_get, Hf, Hinfo, bind_ret, Hjs.
  rewrite bool_decide_eq_true_2 by done.
  reflexivity.
Qed.

End Session.

Lemma session_skips_unfinished_witness :
  session (conver := exampleConver) (host := exampleHost oneSession (Waited None))
    "cache\s1" (mkSummary [] [] []) (sessionState "downloading")
  = Ret (mkSummary [] [] ["cache\s1" : gostring])
      (add_log LWarn "未缓存完成,跳过合成cache\s1t-u"
         (set_config (mkConfig "ffmpeg.exe" "cache" "-n" "cache\s1\s1.ass" false)
            (sessionState "downloading"))) ∧
  started (set_config (mkConfig "ffmpeg.exe" "cache" "-n" "cache\s1\s1.ass" false)
             (sessionState "downloading"))
  = started (sessionState "downloading").
Proof.
  apply (session_skips_unfinished (conver := exampleConver)
           (host := exampleHost oneSession (Waited None))
           "cache\s1" (mkSummary [] [] []) (sessionState "downloading")
           (set_config (mkConfig "ffmpeg.exe" "cache" "-n" "cache\s1\s1.ass" false)
              (sessionState "downloading"))
           "cache\s1\100.video" "cache\s1\200.audio" (videoInfo "downloading")
           (exampleObject "downloading")).
  - vm_compute. reflexivity.
  - vm_compute. reflexivity.
  - vm_compute. reflexivity.
  - vm_compute. discriminate.
Defined.

(** C7, as the spec has it, fails on a status that differs from
    [completed] by a leading space: the status compared is the result of
    [Filter], which trims, so the session is not recorded as skipped and
    the muxer is started for it. *)
Lemma session_muxes_padded_status :
  exampleNewJson (videoInfo " completed") = inl (exampleObject " completed") ∧
  exampleGetString (exampleObject " completed") "status"
  = (" completed" : gostring, None) ∧
  ∃ σ', session (conver := exampleConver) (host := exampleHost oneSession (Waited None))
          "cache\s1" (mkSummary [] [] []) (sessionState " completed")
        = Ret (mkSummary "cache\output" ["cache\output\g-u\t.mp4" : gostring] []) σ' ∧
        started σ' = [("ffmpeg.exe" : gostring,
                       ffmpegArgs "cache\s1\100.video" "cache\s1\200.audio")].
Proof.
  split; [vm_compute; reflexivity|]. split; [vm_compute; reflexivity|].
  eexists. split; vm_compute; reflexivity.
Qed.

(** C4. The muxer ends with an error, and the session still adds its
    output path to the summary: [Composition] returns [nil] whatever
    [Wait] returns, so the branch of [main] that would skip the path is
    never taken.  The only trace of the failure is that the line
    [已合成视频文件] is missing from the log. *)
Theorem session_records_failed_mux :
  let host := exampleHost oneSession (Waited (Some (ErrorString "exit status 1"))) in
  ∃ σ', session (conver := exampleConver) (host := host)
          "cache\s1" (mkSummary [] [] []) (sessionState "completed")
        = Ret (mkSummary "cache\output" ["cache\output\g-u\t.mp4" : gostring] []) σ' ∧
        started σ' = [("ffmpeg.exe" : gostring,
                       ffmpegArgs "cache\s1\100.video" "cache\s1\200.audio")] ∧
        Forall (fun l => l.1 ≠ LInfo) (log σ').
Proof.
  intros host. eexists. split; [vm_compute; reflexivity|]. split; [vm_compute; reflexivity|].
  vm_compute. repeat constructor; discriminate.
Qed.

(** C5. No repaired file is found, and the session is not skipped:
    [GetAudioAndVideo] returns two empty paths and no error, and the
    muxer is started with the two empty paths. *)
Theorem session_muxes_missing_pair :
  let host := exampleHost emptySession (Waited None) in
  GetAudioAndVideo (conver := exampleConver) (host := host) "cache\s1"
    (sessionState "completed")
  = Ret ([], [], None)
      (set_config (mkConfig "ffmpeg.exe" "cache" "-n" "cache\s1\s1.ass" false)
         (sessionState "completed")) ∧
  ∃ σ', session (conver := exampleConver) (host := host)
          "cache\s1" (mkSummary [] [] []) (sessionState "completed")
        = Ret (mkSummary "cache\output" ["cache\output\g-u\t.mp4" : gostring] []) σ' ∧
        started σ' = [("ffmpeg.exe" : gostring, ffmpegArgs [] [])].
Proof.
  intros host. split; [vm_compute; reflexivity|].
  eexists. split; vm_compute; reflexivity.
Qed.

(** * More about [copyFile] and [M4sToAV] *)

(** X1. [M4sToAV] always returns to its caller: it neither exits nor
    panics, and whatever it returns it has written to no path but the
    destination.  Every other file, the source included, the
    directories, the refused paths, the configuration and the list of
    started commands are as before. *)
Theorem M4sToAV_touches_only_destination (src dst : list ascii) (σ : State) :
  ∃ r σ', M4sToAV src dst σ = Ret r σ' ∧
    (∀ p, p ≠ dst → files σ' !! p = files σ !! p) ∧
    dirs σ' = dirs σ ∧ denied σ' = denied σ ∧
    config σ' = config σ ∧ started σ' = started σ.
Proof.
  unfold M4sToAV, copyFile, os.Open, os.Create, os.Seek, io.ReadAtLeast, io.Copy,
    logrus.Error, bind, ret, get, modify.
  cbn [fname offset].
  repeat case_match; simplify_eq; do 2 eexists; (split; [reflexivity|]);
    cbn; split_and!; try done; intros p Hp; by rewrite ?lookup_insert_ne.
Qed.

(** X2. A source that is neither a file nor a directory: [M4sToAV]
    returns the error of [os.Open]; the closure is not run, nothing is
    logged and nothing is created. *)
Theorem M4sToAV_missing_source (src dst : list ascii) (σ : State) :
  files σ !! src = None → src ∉ dirs σ →
  M4sToAV src dst σ =
  Ret (Some (PathError "open" src "The system cannot find the file specified.")) σ.
Proof.
  intros Hf Hd. unfold M4sToAV, copyFile, os.Open.
  rewrite bind_bind, bind_get.
  assert (Hs : os.Stat src σ = false).
  { unfold os.Stat. apply bool_decide_eq_false. intros [[? Hs]|?]; [congruence|done]. }
  rewrite Hs. reflexivity.
Qed.

Lemma M4sToAV_missing_source_witness :
  M4sToAV "cache\100.m4s" "cache\100.video" (exampleState ∅) =
  Ret (Some (PathError "open" "cache\100.m4s" "The system cannot find the file specified."))
    (exampleState ∅).
Proof.
  apply (M4sToAV_missing_source "cache\100.m4s" "cache\100.video" (exampleState ∅)).
  - reflexivity.
  - vm_compute. set_solver.
Defined.

(** X3. A destination that cannot be created (the empty path, a
    directory, a refused place): [M4sToAV] returns the error of
    [os.Create], after the closure has read the header, and no file is
    made or changed. *)
Theorem M4sToAV_refused_destination (src dst content : list ascii) (σ : State) :
  files σ !! src = Some content →
  dst = [] ∨ dst ∈ dirs σ ∨ dst ∈ denied σ →
  ∃ σ', M4sToAV src dst σ =
        Ret (Some (PathError "open" dst "The system cannot find the path specified.")) σ' ∧
        files σ' = files σ.
Proof.
  intros Hf Hd.
  unfold M4sToAV, copyFile, os.Open, os.Create, os.Seek, io.ReadAtLeast,
    logrus.Error, bind, ret, get, modify.
  cbv beta. cbn [fname offset]. rewrite (Stat_file _ _ _ Hf). cbv beta iota.
  cbn [fname offset]. rewrite Hf.
  change (length (replicate 9 zero) <? 9) with false. cbv beta iota.
  destruct (bool_decide (_ ≠ _)); cbn.
  - rewrite bool_decide_eq_true_2 by done. by eexists.
  - rewrite bool_decide_eq_true_2 by done. by eexists.
Qed.

Lemma M4sToAV_refused_destination_witness :
  ∃ σ', M4sToAV "cache\100.m4s" []
          (exampleState (<[("cache\100.m4s" : gostring) := ("000000000abc" : gostring)]> ∅)) =
        Ret (Some (PathError "open" [] "The system cannot find the path specified.")) σ' ∧
        files σ' =
        files (exampleState (<[("cache\100.m4s" : gostring) := ("000000000abc" : gostring)]> ∅)).
Proof.
  apply (M4sToAV_refused_destination "cache\100.m4s" [] "000000000abc"
           (exampleState (<[("cache\100.m4s" : gostring) := ("000000000abc" : gostring)]> ∅))).
  - reflexivity.
  - left. reflexivity.
Defined.

(** X4. Source and destination are the same path: [os.Create] truncates
    the file before [io.Copy] reads it, so the fragment is left empty
    and no error is returned. *)
Theorem M4sToAV_onto_itself_empties (src content : list ascii) (σ : State) :
  files σ !! src = Some content →
  src ≠ [] → src ∉ dirs σ → src ∉ denied σ →
  ∃ σ', M4sToAV src src σ = Ret None σ' ∧ files σ' !! src = Some [].
Proof.
  intros Hf H1 H2 H3.
  unfold M4sToAV, copyFile, os.Open, os.Create, os.Seek, io.ReadAtLeast, io.Copy,
    logrus.Error, bind, ret, get, modify.
  cbv beta. cbn [fname offset]. rewrite (Stat_file _ _ _ Hf). cbv beta iota.
  cbn [fname offset]. rewrite Hf.
  change (length (replicate 9 zero) <? 9) with false. cbv beta iota.
  destruct (bool_decide (_ ≠ _)); cbn;
    rewrite bool_decide_eq_false_2 by (intros [?|[?|?]]; done); cbn;
    rewrite lookup_insert_eq; cbn; eexists; (split; [reflexivity|]); cbn;
    rewrite insert_insert_eq, lookup_insert_eq; by rewrite ?drop_nil.
Qed.

Lemma M4sToAV_onto_itself_empties_witness :
  ∃ σ', M4sToAV "cache\100.m4s" "cache\100.m4s"
          (exampleState (<[("cache\100.m4s" : gostring) := ("000000000abc" : gostring)]> ∅)) =
        Ret None σ' ∧
        files σ' !! ("cache\100.m4s" : gostring) = Some [].
Proof.
  apply (M4sToAV_onto_itself_empties "cache\100.m4s" "000000000abc"
           (exampleState (<[("cache\100.m4s" : gostring) := ("000000000abc" : gostring)]> ∅))).
  - reflexivity.
  - discriminate.
  - vm_compute. set_solver.
  - vm_compute. set_solver.
Defined.

(** * The fragment callback, whole *)

(** [strconv.Itoa] writes at least one digit. *)
Lemma Itoa_nonempty (i : Z) : strconv.Itoa i ≠ [].
Proof.
  unfold strconv.Itoa.
  assert (Hu : ∀ d, d ≠ Decimal.Nil → NilZero.string_of_uint d ≠ EmptyString).
  { intros [] Hd; try done. }
  assert (Hp : ∀ p, Pos.to_uint p ≠ Decimal.Nil).
  { intros p. apply DecimalPos.Unsigned.to_uint_nonnil. }
  destruct i as [|p|p]; cbn.
  - discriminate.
  - specialize (Hu _ (Hp p)). destruct (NilZero.string_of_uint _); [done|]. discriminate.
  - discriminate.
Qed.

Section Fragment.
Context {conver : Conver} {host : Host}.

(** With the empty destination the repair fails whatever the source
    is, and no file is made or changed. *)
Lemma M4sToAV_empty_destination (src : list ascii) (σ : State) :
  ∃ e σ', M4sToAV src [] σ = Ret (Some e) σ' ∧
    files σ' = files σ ∧ dirs σ' = dirs σ ∧ started σ' = started σ.
Proof.
  unfold M4sToAV, copyFile, os.Open, os.Create, os.Seek, io.ReadAtLeast, io.Copy,
    logrus.Error, bind, ret, get, modify.
  cbn [fname offset].
  repeat case_match; simplify_eq; try (by do 2 eexists);
    match goal with
    | H : bool_decide _ = false |- _ => apply bool_decide_eq_false in H; destruct H; by left
    end.
Qed.

(** A manifest that cannot be read or decoded: one line is logged and
    the two identifiers are empty. *)
Lemma GetVAId_without_manifest (src : list ascii) (σ : State) :
  files σ !! Join (Dir src) PlayUrlSuffix = None ∨
  (∃ puDate e, files σ !! Join (Dir src) PlayUrlSuffix = Some puDate ∧
               Unmarshal puDate = inr e) →
  ∃ msg, GetVAId src σ = Ret ([], []) (add_log LError msg σ).
Proof.
  unfold GetVAId, os.ReadFile. rewrite bind_bind, bind_get.
  intros [->|(puDate & e & -> & Hu)].
  - by eexists.
  - rewrite bind_ret, Hu. by eexists.
Qed.

(** X5. A fragment whose manifest cannot be read, or cannot be decoded,
    is never repaired: [GetVAId] returns two empty identifiers, the
    destination stays empty, [M4sToAV] fails on it, and [FindM4sFiles]
    shows the error in a message box and returns it, which stops the
    walk.  No file or directory is made or changed and no command is
    started. *)
Theorem FindM4sFiles_fails_without_manifest (src : list ascii) (info : Node) (σ : State) :
  filepath.Ext (Name info) = M4sSuffix →
  files σ !! Join (Dir src) PlayUrlSuffix = None ∨
  (∃ puDate e, files σ !! Join (Dir src) PlayUrlSuffix = Some puDate ∧
               Unmarshal puDate = inr e) →
  ∃ e σ', FindM4sFiles tt src info None σ = Ret (Some e, tt) σ' ∧
    files σ' = files σ ∧ dirs σ' = dirs σ ∧ started σ' = started σ ∧
    last (log σ') = Some (LMessageBox, src ++ " 转换异常：" ++ ErrorText e).
Proof.
  intros Hext Hm.
  destruct (GetVAId_without_manifest src σ Hm) as [msg Hid].
  destruct (M4sToAV_empty_destination src (add_log LError msg σ))
    as (e & σ2 & Hrep & Hf & Hd & Hs).
  exists e. eexists. split.
  - apply (FindM4sFiles_repair_fails σ src info [] [] _ e σ2 Hext Hid).
    unfold destination. by rewrite bool_decide_eq_false_2 by (by intros ?).
  - cbn. split_and!; try done. by rewrite last_snoc.
Qed.

(** X6. A fragment beside a manifest that names a first video and a first
    audio stream.  Its destination is its path with every [M4sSuffix]
    replaced, by [AudioSuffix] when the decimal identifier of the
    audio stream occurs in the name of the fragment and by
    [VideoSuffix] otherwise.  When that destination can be created,
    [FindM4sFiles] writes the fragment without its first nine bytes
    there, whatever these bytes are, logs the conversion last, returns
    no error and starts no command. *)
Theorem FindM4sFiles_repairs_fragment (src puDate content : list ascii) (info : Node)
    (p : PlayUrl) (v a : Stream) (vs as_ : list Stream) (σ : State) :
  let dst := strings.ReplaceAll src M4sSuffix
               (if strings.Contains (Name info) (strconv.Itoa (ID a))
                then AudioSuffix else VideoSuffix) in
  filepath.Ext (Name info) = M4sSuffix →
  files σ !! Join (Dir src) PlayUrlSuffix = Some puDate →
  Unmarshal puDate = inl p →
  Video (Dash (Data p)) = v :: vs →
  Audio (Dash (Data p)) = a :: as_ →
  files σ !! src = Some content →
  src ≠ dst → dst ≠ [] → dst ∉ dirs σ → dst ∉ denied σ →
  ∃ σ', FindM4sFiles tt src info None σ = Ret (None, tt) σ' ∧
    files σ' = <[dst := drop (min 9 (length content)) content]> (files σ) ∧
    last (log σ') = Some (LInfo, "已将m4s转换为音视频文件:" ++ dst) ∧
    started σ' = started σ.
Proof.
  intros dst Hext Hpu Hp Hv Ha Hsrc Hne H1 H2 H3.
  assert (Hid : GetVAId src σ = Ret (strconv.Itoa (ID v), strconv.Itoa (ID a)) σ).
  { unfold GetVAId, os.ReadFile. rewrite bind_bind, bind_get, Hpu, bind_ret, Hp, Hv, Ha.
    reflexivity. }
  assert (Hdst : destination src (Name info) (strconv.Itoa (ID v)) (strconv.Itoa (ID a)) = dst).
  { unfold destination, dst.
    rewrite !bool_decide_eq_true_2 by apply Itoa_nonempty. cbn [andb].
    by destruct (strings.Contains _ _). }
  unfold FindM4sFiles. rewrite bool_decide_eq_true_2 by done.
  rewrite (bind_Ret _ _ _ _ _ Hid), Hdst.
  rewrite (bind_Ret _ _ _ _ _ (M4sToAV_copies σ src dst content Hsrc Hne H1 H2 H3)).
  eexists. split; [reflexivity|]. cbn. split_and!; [done| |by case_bool_decide].
  by rewrite last_snoc.
Qed.

(** X7. A walk none of whose calls reports an error or meets a name with
    the extension [M4sSuffix] does nothing: [WalkDir] with
    [FindM4sFiles] returns no error and the state is the one it started
    in. *)
Theorem WalkDir_without_fragments (root : list ascii) (σ : State) :
  Forall (fun c => c.2 = None ∧ filepath.Ext (Name c.1.2) ≠ M4sSuffix)
    (filepath.rootCalls filepath.walkDirCalls root (Tree σ root)) →
  filepath.WalkDir root FindM4sFiles tt σ = Ret (None, tt) σ.
Proof.
  rewrite WalkDir_runCalls.
  generalize (filepath.rootCalls filepath.walkDirCalls root (Tree σ root)).
  intros calls Hall. induction Hall as [|[[p d] e] calls [He Hx] _ IH]; [done|].
  cbn in He, Hx. subst e. cbn [filepath.runCalls]. unfold FindM4sFiles at 1.
  rewrite bool_decide_eq_false_2 by done. rewrite bind_ret. apply IH.
Qed.

(** X30. [FindM4sFiles] looks at the name only: an entry with the
    extension [M4sSuffix] that is a directory, beside a manifest that
    names both streams, is repaired like a fragment.  [os.Open]
    succeeds on it, the destination is created empty, [io.Copy] fails
    to read the directory, and the error is returned, which stops the
    walk and leaves the empty destination behind. *)
Theorem FindM4sFiles_takes_directory_for_fragment (src puDate : list ascii) (info : Node)
    (p : PlayUrl) (v a : Stream) (vs as_ : list Stream) (σ : State) :
  let dst := strings.ReplaceAll src M4sSuffix
               (if strings.Contains (Name info) (strconv.Itoa (ID a))
                then AudioSuffix else VideoSuffix) in
  filepath.Ext (Name info) = M4sSuffix →
  files σ !! Join (Dir src) PlayUrlSuffix = Some puDate →
  Unmarshal puDate = inl p →
  Video (Dash (Data p)) = v :: vs →
  Audio (Dash (Data p)) = a :: as_ →
  src ∈ dirs σ → files σ !! src = None →
  dst ≠ [] → dst ∉ dirs σ → dst ∉ denied σ →
  ∃ σ', FindM4sFiles tt src info None σ =
          Ret (Some (PathError "read" src "Incorrect function."), tt) σ' ∧
    files σ' = <[dst := []]> (files σ) ∧ started σ' = started σ.
Proof.
  intros dst Hext Hpu Hp Hv Ha Hdir Hnone H1 H2 H3.
  assert (Hid : GetVAId src σ = Ret (strconv.Itoa (ID v), strconv.Itoa (ID a)) σ).
  { unfold GetVAId, os.ReadFile. rewrite bind_bind, bind_get, Hpu, bind_ret, Hp, Hv, Ha.
    reflexivity. }
  assert (Hdst : destination src (Name info) (strconv.Itoa (ID v)) (strconv.Itoa (ID a)) = dst).
  { unfold destination, dst.
    rewrite !bool_decide_eq_true_2 by apply Itoa_nonempty. cbn [andb].
    by destruct (strings.Contains _ _). }
  assert (Hne : src ≠ dst) by (intros Heq; apply H2; by rewrite <- Heq).
  assert (Hst : os.Stat src σ = true).
  { unfold os.Stat. apply bool_decide_eq_true. by right. }
  eexists. split.
  - eapply FindM4sFiles_repair_fails; [exact Hext|exact Hid|]. rewrite Hdst.
    unfold M4sToAV, copyFile, os.Open. rewrite bind_bind, bind_get, Hst, bind_ret.
    unfold io.ReadAtLeast. rewrite !bind_bind, bind_get.
    change (length (replicate 9 zero) <? 9) with false. cbv iota.
    cbn [fname offset]. rewrite Hnone, bind_ret. cbv beta iota.
    rewrite bool_decide_eq_true_2 by (by vm_compute).
    unfold logrus.Error. rewrite !bind_bind, bind_modify, bind_ret.
    match goal with |- bind _ _ ?τ = _ =>
      rewrite (bind_Ret _ _ _ _ _ (Create_ok τ dst H1 H2 H3))
    end.
    unfold io.Copy. rewrite bind_bind, bind_get. cbn [fname files set_files add_log].
    rewrite lookup_insert_ne by done. rewrite Hnone. reflexivity.
  - done.
Qed.

End Fragment.

Lemma FindM4sFiles_fails_without_manifest_witness :
  ∃ e σ', FindM4sFiles (conver := exampleConver) (host := twoFragmentsHost) tt
            "cache\1.m4s" (File "1.m4s") None twoFragmentsState = Ret (Some e, tt) σ' ∧
    files σ' = files twoFragmentsState ∧ dirs σ' = dirs twoFragmentsState ∧
    started σ' = started twoFragmentsState ∧
    last (log σ') = Some (LMessageBox, "cache\1.m4s" ++ " 转换异常：" ++ ErrorText e).
Proof.
  apply (FindM4sFiles_fails_without_manifest (conver := exampleConver)
           (host := twoFragmentsHost) "cache\1.m4s" (File "1.m4s") twoFragmentsState).
  - reflexivity.
  - left. reflexivity.
Defined.

Lemma FindM4sFiles_repairs_fragment_witness :
  ∃ σ', FindM4sFiles (conver := exampleConver) (host := exampleHost (File "cache") (Waited None))
          tt "cache\s1\100.m4s" (File "100.m4s") None manifestState = Ret (None, tt) σ' ∧
    files σ' = <[("cache\s1\100.video" : gostring) := ("abc" : gostring)]> (files manifestState) ∧
    last (log σ') = Some (LInfo, "已将m4s转换为音视频文件:cache\s1\100.video" : gostring) ∧
    started σ' = started manifestState.
Proof.
  apply (FindM4sFiles_repairs_fragment (conver := exampleConver)
           (host := exampleHost (File "cache") (Waited None))
           "cache\s1\100.m4s" playurl_100_200 "000000000abc" (File "100.m4s")
           (mkPlayUrl (mkData (mkDash [mkStream 100] [mkStream 200])))
           (mkStream 100) (mkStream 200) [] [] manifestState).
  - reflexivity.
  - reflexivity.
  - reflexivity.
  - reflexivity.
  - reflexivity.
  - reflexivity.
  - vm_compute. discriminate.
  - vm_compute. discriminate.
  - vm_compute. set_solver.
  - vm_compute. set_solver.
Defined.

Lemma WalkDir_without_fragments_witness :
  filepath.WalkDir (host := exampleHost oneSession (Waited None)) "s1"
    (FindM4sFiles (conver := exampleConver) (host := exampleHost oneSession (Waited None)))
    tt (exampleState ∅)
  = Ret (None, tt) (exampleState ∅).
Proof.
  apply (WalkDir_without_fragments (conver := exampleConver)
           (host := exampleHost oneSession (Waited None)) "s1" (exampleState ∅)).
  repeat (constructor; [split; [reflexivity|vm_compute; discriminate]|]).
  constructor.
Defined.

Lemma FindM4sFiles_takes_directory_for_fragment_witness :
  ∃ σ', FindM4sFiles (conver := exampleConver)
          (host := exampleHost (File "cache") (Waited None)) tt
          "cache\s1\100.m4s" (Directory "100.m4s" None []) None fragmentDirState =
          Ret (Some (PathError "read" "cache\s1\100.m4s" "Incorrect function."), tt) σ' ∧
    files σ' = <[("cache\s1\100.video" : gostring) := []]> (files fragmentDirState) ∧
    started σ' = started fragmentDirState.
Proof.
  apply (FindM4sFiles_takes_directory_for_fragment (conver := exampleConver)
           (host := exampleHost (File "cache") (Waited None))
           "cache\s1\100.m4s" playurl_100_200 (Directory "100.m4s" None [])
           (mkPlayUrl (mkData (mkDash [mkStream 100] [mkStream 200])))
           (mkStream 100) (mkStream 200) [] [] fragmentDirState).
  - reflexivity.
  - reflexivity.
  - reflexivity.
  - reflexivity.
  - reflexivity.
  - vm_compute. set_solver.
  - reflexivity.
  - vm_compute. discriminate.
  - vm_compute. set_solver.
  - vm_compute. set_solver.
Defined.

(** * The session directories *)

Section CacheDirs.
Context {conver : Conver} {host : Host}.

(** The root of a tree that can be listed is not broken. *)
Lemma rootCalls_healthy root d :
  healthy d = true →
  filepath.rootCalls filepath.walkCalls root d = filepath.walkCalls root d.
Proof. by destruct d. Qed.

(** The callback of [GetCacheDir] over any list of calls: the state is
    untouched, an error leaves no directory, and every directory
    returned was visited, is not the root and has no [output] in its
    path. *)
Lemma GetCacheDir_calls (root : list ascii) (σ : State) calls :
  ∃ ds err,
    (let* (err, dirs) :=
       filepath.runCalls (fun dirs path info err =>
         match err with
         | Some err => ret (Some err, dirs)
         | None =>
             if IsDir info && bool_decide (path ≠ root) then
               if negb (strings.Contains path "output")
               then ret (None, dirs ++ [path])
               else ret (None, dirs)
             else ret (None, dirs)
         end) calls [] in
     match err with
     | Some err => ret ([], Some err)
     | None => ret (dirs, None)
     end) σ = Ret (ds, err) σ ∧
    (err ≠ None → ds = []) ∧
    (Forall (fun c => c.2 = None) calls → ds = cacheDirs root calls ∧ err = None) ∧
    ∀ p, p ∈ ds →
      p ≠ root ∧ ¬ occurs "output" p ∧
      ∃ d, IsDir d = true ∧ (p, d, None) ∈ calls.
Proof.
  match goal with |- context [filepath.runCalls ?f _ _] => set (fn := f) end.
  set (good := fun p : list ascii =>
    p ≠ root ∧ ¬ occurs "output" p ∧ ∃ d, IsDir d = true ∧ (p, d, None) ∈ calls).
  assert (Hgen : ∀ cs acc, cs ⊆ calls → Forall good acc →
            ∃ err ds, filepath.runCalls fn cs acc σ = Ret (err, ds) σ ∧ Forall good ds ∧
              (Forall (fun c => c.2 = None) cs → ds = acc ++ cacheDirs root cs ∧ err = None)).
  { intros cs. induction cs as [|[[p d] e] cs IH]; intros acc Hsub Hacc.
    - exists None, acc. split_and!; try done. intros _. by rewrite app_nil_r.
    - cbn [filepath.runCalls]. unfold fn at 1.
      assert (Hcs : cs ⊆ calls) by set_solver.
      destruct e as [e|].
      { exists (Some e), acc. split_and!; try done.
        intros Hall. apply Forall_cons in Hall as [? _]. done. }
      unfold cacheDirs. cbn [List.filter fst snd].
      assert (Hskip : ∀ acc', Forall good acc' → acc' = acc →
                ∃ err ds, filepath.runCalls fn cs acc' σ = Ret (err, ds) σ ∧ Forall good ds ∧
                  (Forall (fun c => c.2 = None) ((p, d, None) :: cs) →
                   ds = acc ++ cacheDirs root cs ∧ err = None)).
      { intros acc' Hacc' ->. destruct (IH acc Hcs Hacc') as (err & ds & Hr & Hg & Hres).
        exists err, ds. split_and!; try done. intros Hall.
        apply Forall_cons in Hall as [_ Hall]. by apply Hres. }
      destruct (IsDir d) eqn:Hd; cbn [andb]; [|rewrite bind_ret; by apply Hskip].
      case_bool_decide as Hp; cbn [andb]; [|rewrite bind_ret; by apply Hskip].
      destruct (strings.Contains p "output") eqn:Hc; cbn [negb]; rewrite bind_ret;
        [by apply Hskip|].
      destruct (IH (acc ++ [p]) Hcs) as (err & ds & Hr & Hg & Hres).
      { apply Forall_app. split; [done|]. constructor; [|done].
        split; [done|]. split; [by apply Contains_false|].
        exists d. split; [done|]. apply Hsub. by left. }
      exists err, ds. split_and!; try done. intros Hall.
      apply Forall_cons in Hall as [_ Hall]. destruct (Hres Hall) as [-> ->].
      cbn [map fst]. by rewrite <- app_assoc. }
  destruct (Hgen calls [] ltac:(done) ltac:(constructor)) as (err & ds & Hr & Hds & Hres).
  unfold bind. rewrite Hr.
  destruct err as [e|].
  - exists [], (Some e). split_and!; try done.
    + intros Hall. by destruct (Hres Hall).
    + intros p Hp. by apply elem_of_nil in Hp.
  - exists ds, None. split_and!; try done.
    intros p Hp. by apply (proj1 (Forall_forall _ _) Hds).
Qed.

(** [GetCacheDir] itself, through the calls of its walk. *)
Lemma GetCacheDir_runs (root : list ascii) (σ : State) :
  let calls := filepath.rootCalls filepath.walkCalls root (Tree σ root) in
  ∃ ds err, GetCacheDir root σ = Ret (ds, err) σ ∧
    (err ≠ None → ds = []) ∧
    (Forall (fun c => c.2 = None) calls → ds = cacheDirs root calls ∧ err = None) ∧
    ∀ p, p ∈ ds →
      p ≠ root ∧ ¬ occurs "output" p ∧
      ∃ d, IsDir d = true ∧ (p, d, None) ∈ calls.
Proof.
  intros calls. destruct (GetCacheDir_calls root σ calls) as (ds & err & Hr & H).
  exists ds, err. split; [|done]. rewrite <- Hr.
  unfold GetCacheDir. unfold bind. by rewrite Walk_runCalls.
Qed.

(** X8. On a tree every part of which can be listed, [GetCacheDir]
    returns, in the order of the walk, the paths of all the
    directories below the root, at any depth, whose path does not
    contain [output]; it returns no error and leaves the state as it
    was. *)
Theorem GetCacheDir_lists_directories (root : list ascii) (σ : State) :
  healthy (Tree σ root) = true →
  GetCacheDir root σ =
  Ret (cacheDirs root (filepath.walkCalls root (Tree σ root)), None) σ.
Proof.
  intros Hh.
  destruct (GetCacheDir_runs root σ) as (ds & err & -> & _ & Hres & _).
  rewrite rootCalls_healthy in Hres by done.
  by destruct (Hres (healthy_calls _ _ Hh)) as [-> ->].
Qed.

(** X9. On any tree [GetCacheDir] returns and leaves the state as it was.
    With an error it returns no directory at all, not those found
    before the error; and every path it returns is the path of a
    directory the walk visited, differs from the root and does not
    contain [output]. *)
Theorem GetCacheDir_is_safe (root : list ascii) (σ : State) :
  ∃ ds err, GetCacheDir root σ = Ret (ds, err) σ ∧
    (err ≠ None → ds = []) ∧
    ∀ p, p ∈ ds →
      p ≠ root ∧ ¬ occurs "output" p ∧
      ∃ d, IsDir d = true ∧
        (p, d, None) ∈ filepath.rootCalls filepath.walkCalls root (Tree σ root).
Proof.
  destruct (GetCacheDir_runs root σ) as (ds & err & Hr & He & _ & Hp).
  by exists ds, err.
Qed.

End CacheDirs.

Lemma GetCacheDir_lists_directories_witness :
  GetCacheDir (host := exampleHost cacheTree (Waited None)) "cache" (exampleState ∅)
  = Ret (["cache\s1" : gostring], None) (exampleState ∅).
Proof.
  apply (GetCacheDir_lists_directories (host := exampleHost cacheTree (Waited None))
           "cache" (exampleState ∅)).
  reflexivity.
Defined.

(** * The search, whatever the tree *)

Section Search.
Context {conver : Conver} {host : Host}.

(** The callback of [GetAudioAndVideo] over any list of calls. *)
Lemma findAudioAndVideo_calls calls : ∀ video audio τ,
  ∃ err va τ', filepath.runCalls findAudioAndVideo calls (video, audio) τ = Ret (err, va) τ' ∧
    started τ' = started τ ∧ sameButAssPath (config τ) (config τ') ∧
    (AssOFF (config τ) = true → τ' = τ) ∧
    (va.1 = video ∨ occurs VideoSuffix va.1 ∧ va.1 ∈ visitedFiles calls) ∧
    (va.2 = audio ∨ occurs AudioSuffix va.2 ∧ va.2 ∈ visitedFiles calls) ∧
    (Forall (fun c => c.2 = None) calls → AssOFF (config τ) = false →
     AssPath (config τ') = default (AssPath (config τ)) (last (subtitlePaths calls))).
Proof.
  induction calls as [|[[p d] e] calls IH]; intros video audio τ.
  - exists None, (video, audio), τ. cbn. split_and!; try done; by left.
  - cbn [filepath.runCalls]. destruct e as [e|].
    + exists (Some e), (video, audio), τ. cbn. split_and!; try done; try by left.
      intros Hall. apply Forall_cons in Hall as [? _]. done.
    + unfold findAudioAndVideo at 1.
      destruct (IsDir d) eqn:Hdir; cbn [negb].
      * assert (Hvis : visitedFiles ((p, d, None) :: calls) = visitedFiles calls).
        { unfold visitedFiles. cbn [List.filter fst snd]. by rewrite Hdir. }
        rewrite Hvis. rewrite bind_bind, bind_get.
        destruct (AssOFF (config τ)) eqn:Hoff; cbn [negb].
        -- rewrite bind_ret.
           destruct (IH video audio τ) as (err & va & τ' & -> & ? & ? & Hst & ? & ? & _).
           exists err, va, τ'. split_and!; try done; try (intros _; by apply Hst).
        -- unfold subtitlePaths. cbn [List.filter fst snd]. rewrite Hdir. cbn [andb].
           destruct (DownloadFile _ _) eqn:Hdl.
           ++ rewrite bool_decide_eq_false_2 by done.
              unfold logrus.Warn. rewrite !bind_bind, bind_modify, !bind_ret.
              destruct (IH video audio (add_log LWarn ("XML弹幕下载失败:" ++ SprintErr None) τ))
                as (err & va & τ' & -> & ? & ? & _ & ? & ? & Hass).
              exists err, va, τ'. split_and!; try done. intros Hall _.
              apply Forall_cons in Hall as [_ Hall]. by apply Hass.
           ++ rewrite bool_decide_eq_true_2 by done.
              rewrite !bind_bind, bind_modify, !bind_ret.
              match goal with |- context [filepath.runCalls _ calls _ ?st] =>
                destruct (IH video audio st)
                  as (err & va & τ' & -> & ? & (?&?&?&?) & _ & ? & ? & Hass)
              end.
              cbn in *.
              exists err, va, τ'. split_and!; try done; [unfold sameButAssPath; split_and!; congruence|].
              intros Hall _. apply Forall_cons in Hall as [_ Hall].
              rewrite Hass by done. cbn [map fst snd]. rewrite last_cons.
              by destruct (last _).
      * rewrite bind_ret.
        assert (Hvis : visitedFiles ((p, d, None) :: calls) = p :: visitedFiles calls).
        { unfold visitedFiles. cbn [List.filter fst snd]. by rewrite Hdir. }
        rewrite Hvis.
        assert (Hsub : subtitlePaths ((p, d, None) :: calls) = subtitlePaths calls).
        { unfold subtitlePaths. cbn [List.filter fst snd]. by rewrite Hdir. }
        rewrite Hsub.
        match goal with |- context [filepath.runCalls _ calls (?v', ?a') τ] =>
          destruct (IH v' a' τ) as (err & va & τ' & -> & ? & ? & ? & Hv & Ha & Hass)
        end.
        exists err, va, τ'. split_and!; try done.
        -- destruct Hv as [->|[? ?]].
           ++ destruct (strings.Contains p VideoSuffix) eqn:Hc; [|by left].
              right. split; [by apply Contains_true|]. by left.
           ++ right. split; [done|]. by right.
        -- destruct Ha as [->|[? ?]].
           ++ destruct (strings.Contains p AudioSuffix) eqn:Hc; [|by left].
              right. split; [by apply Contains_true|]. by left.
           ++ right. split; [done|]. by right.
        -- intros Hall. apply Forall_cons in Hall as [_ Hall]. by apply Hass.
Qed.

(** X10. With the subtitles switched off ([c.AssOFF]) the search only
    reads: whatever the tree, [GetAudioAndVideo] returns and the state
    is the one it started in, so nothing is downloaded, logged or
    assigned. *)
Theorem GetAudioAndVideo_subtitles_off (v : list ascii) (σ : State) :
  AssOFF (config σ) = true →
  ∃ r, GetAudioAndVideo v σ = Ret r σ.
Proof.
  intros Hoff. unfold GetAudioAndVideo. unfold bind at 1. rewrite Walk_runCalls.
  destruct (findAudioAndVideo_calls
              (filepath.rootCalls filepath.walkCalls v (Tree σ v)) [] [] σ)
    as (err & va & σ' & -> & _ & _ & Hst & _).
  rewrite (Hst Hoff). destruct err; by eexists.
Qed.

(** X11. On any tree [GetAudioAndVideo] returns.  The video path it
    returns is empty or is the path of a visited file that contains
    [VideoSuffix] somewhere, and likewise for the audio path and
    [AudioSuffix]; with an error both paths are empty.  No command is
    started and of the configuration only the subtitle path can
    change. *)
Theorem GetAudioAndVideo_pair_has_suffixes (v : list ascii) (σ : State) :
  ∃ video audio err σ', GetAudioAndVideo v σ = Ret (video, audio, err) σ' ∧
    (video = [] ∨ occurs VideoSuffix video ∧
       video ∈ visitedFiles (filepath.rootCalls filepath.walkCalls v (Tree σ v))) ∧
    (audio = [] ∨ occurs AudioSuffix audio ∧
       audio ∈ visitedFiles (filepath.rootCalls filepath.walkCalls v (Tree σ v))) ∧
    (err ≠ None → video = [] ∧ audio = []) ∧
    started σ' = started σ ∧ sameButAssPath (config σ) (config σ').
Proof.
  unfold GetAudioAndVideo. unfold bind at 1. rewrite Walk_runCalls.
  destruct (findAudioAndVideo_calls
              (filepath.rootCalls filepath.walkCalls v (Tree σ v)) [] [] σ)
    as (err & [video audio] & σ' & -> & ? & ? & _ & Hv & Ha & _).
  destruct err as [e|].
  - exists [], [], (Some e), σ'. split_and!; try done; by left.
  - exists video, audio, None, σ'. by split_and!.
Qed.

(** X12. With the subtitles switched on, on a tree every part of which
    can be listed, the subtitle path after [GetAudioAndVideo] is the
    one converted for the last directory of the walk whose comment
    file was downloaded; when no download succeeds it is the path the
    configuration held before, that of an earlier session. *)
Theorem GetAudioAndVideo_subtitle_path (v : list ascii) (σ : State) :
  healthy (Tree σ v) = true →
  AssOFF (config σ) = false →
  ∃ r σ', GetAudioAndVideo v σ = Ret r σ' ∧
    AssPath (config σ') =
    default (AssPath (config σ))
      (last (subtitlePaths (filepath.walkCalls v (Tree σ v)))).
Proof.
  intros Hh Hoff. unfold GetAudioAndVideo. unfold bind at 1. rewrite Walk_runCalls.
  assert (Hroot : filepath.rootCalls filepath.walkCalls v (Tree σ v)
                  = filepath.walkCalls v (Tree σ v)).
  { unfold filepath.rootCalls. by destruct (Tree σ v). }
  rewrite Hroot.
  destruct (findAudioAndVideo_calls (filepath.walkCalls v (Tree σ v)) [] [] σ)
    as (err & va & σ' & -> & _ & _ & _ & _ & _ & Hass).
  specialize (Hass (healthy_calls _ _ Hh) Hoff).
  destruct err; by do 2 eexists.
Qed.

End Search.

Lemma GetAudioAndVideo_subtitles_off_witness :
  ∃ r, GetAudioAndVideo (conver := exampleConver) (host := twoPairsHost) "s1" quietState
       = Ret r quietState.
Proof.
  apply (GetAudioAndVideo_subtitles_off (conver := exampleConver) (host := twoPairsHost)
           "s1" quietState).
  reflexivity.
Defined.

Lemma GetAudioAndVideo_subtitle_path_witness :
  ∃ r σ', GetAudioAndVideo (conver := exampleConver) (host := twoPairsHost) "s1"
            (exampleState ∅) = Ret r σ' ∧
    AssPath (config σ') = ("s1\s1.ass" : gostring).
Proof.
  apply (GetAudioAndVideo_subtitle_path (conver := exampleConver) (host := twoPairsHost)
           "s1" (exampleState ∅)).
  - reflexivity.
  - reflexivity.
Defined.

(** * The muxer *)

Section Mux.
Context {conver : Conver} {host : Host}.

(** [copyFile] with the closure that does nothing. *)
Lemma copyFile_plain (src dst : list ascii) (σ : State) :
  ∃ r σ', copyFile src dst (fun f => ret f) σ = Ret r σ' ∧
    (∀ p, p ≠ dst → files σ' !! p = files σ !! p) ∧
    dirs σ' = dirs σ ∧ denied σ' = denied σ ∧ config σ' = config σ ∧
    started σ' = started σ ∧ log σ' = log σ ∧
    (os.Stat src σ = false →
     r = Some (PathError "open" src "The system cannot find the file specified.") ∧ σ' = σ) ∧
    (∀ content, files σ !! src = Some content → src ≠ dst →
       dst ≠ [] → dst ∉ dirs σ → dst ∉ denied σ →
       r = None ∧ files σ' = <[dst := content]> (files σ)).
Proof.
  unfold copyFile, os.Open, os.Create, io.Copy, bind, ret, get, modify.
  destruct (os.Stat src σ) eqn:Hs; cbn [fname offset].
  - case_bool_decide as Hd.
    + do 2 eexists. split; [reflexivity|]. split_and!; try done.
      intros content _ _ H1 H2 H3. destruct Hd as [?|[?|?]]; done.
    + cbn. destruct (decide (src = dst)) as [->|Hne].
      * rewrite lookup_insert_eq. do 2 eexists. split; [reflexivity|]. cbn.
        split_and!; try done. intros p Hp. by rewrite !lookup_insert_ne.
      * rewrite lookup_insert_ne by done.
        destruct (files σ !! src) as [content|] eqn:Hf.
        -- do 2 eexists. split; [reflexivity|]. cbn.
           split_and!; try done.
           ++ intros p Hp. by rewrite !lookup_insert_ne.
           ++ intros content' [= <-] _ _ _ _. split; [done|].
              rewrite lookup_insert_eq. cbn. rewrite insert_insert_eq.
              by rewrite ?drop_0, ?drop_nil, ?app_nil_r.
        -- do 2 eexists. split; [reflexivity|]. cbn.
           split_and!; try done. intros p Hp. by rewrite !lookup_insert_ne.
  - do 2 eexists. split; [reflexivity|]. split_and!; try done.
    intros content Hf. by rewrite (Stat_file _ _ _ Hf) in Hs.
Qed.




End Mux.



(** * How computations end *)

(** The rule of sequence. *)
Lemma ends_bind {A B} (m : M A) (k : A → M B) R R' E P σ :
  ends R E P (m σ) → (∀ a σ', R a σ' → ends R' E P (k a σ')) →
  ends R' E P (bind m k σ).
Proof. unfold bind. destruct (m σ); cbn; auto. Qed.

(** The rule of consequence. *)
Lemma ends_weaken {A} (R R' : A → State → Prop) (E E' : Z → State → Prop)
    (P P' : list ascii → State → Prop) o :
  ends R E P o → (∀ a σ, R a σ → R' a σ) → (∀ c σ, E c σ → E' c σ) →
  (∀ m σ, P m σ → P' m σ) → ends R' E' P' o.
Proof. destruct o; cbn; auto. Qed.

Section WalkEnds.
Context {host : Host} {A : Type}.

(** A property of the state that every call of the callback keeps is
    kept by the calls in a row. *)
Lemma runCalls_ends (I : State → Prop) E P (fn : filepath.WalkFunc (A := A)) calls :
  (∀ a p d e σ, I σ → ends (fun _ τ => I τ) E P (fn a p d e σ)) →
  ∀ a σ, I σ → ends (fun _ τ => I τ) E P (filepath.runCalls fn calls a σ).
Proof.
  intros Hfn. induction calls as [|[[p d] e] calls IH]; intros a σ Hσ; [done|].
  cbn [filepath.runCalls]. eapply ends_bind; [by apply Hfn|].
  cbv beta. intros [[e'|] a'] σ' Hσ'; [done|]. by apply IH.
Qed.

End WalkEnds.

(** * The loop of [main] *)

Section Loop.
Context {conver : Conver} {host : Host}.

(** [Composition] returns [nil] or exits with code 1, one command later. *)
Lemma Composition_runs videoFile audioFile outputFile σ :
  let cmd := (FFMpegPath (config σ),
              muxArgs (Overlay (config σ)) videoFile audioFile outputFile) in
  ∃ σ', (Composition videoFile audioFile outputFile σ = Ret None σ' ∨
         Composition videoFile audioFile outputFile σ = Exit 1 σ') ∧
        started σ' = started σ ++ [cmd].
Proof.
  intros cmd. subst cmd. unfold muxArgs, Composition. rewrite bind_get, bind_modify.
  destruct (Run σ _ _) as [e|werr].
  - eexists. split; [right; reflexivity|]. done.
  - match goal with |- context [add_started ?a ?b σ] => set (σ0 := add_started a b σ) end.
    destruct (copyFile_plain (AssPath (config σ)) (assFileOf outputFile) σ0)
      as (r & σ1 & Hcp & _ & _ & _ & _ & Hs & _).
    unfold assFileOf in Hcp. rewrite (bind_Ret _ _ _ _ _ Hcp).
    unfold logrus.Error, logrus.Info.
    destruct r as [err|], werr as [w|]; cbn; eexists; (split; [left; reflexivity|]); cbn;
      by rewrite Hs.
Qed.

(** [Exist] and [os.Mkdir] start no command. *)
Lemma Exist_ends path σ (E : Z → State → Prop) P :
  ends (fun found τ => τ = σ ∧ found = os.Stat path σ) E P (Exist path σ).
Proof. done. Qed.

Lemma Mkdir_ends path σ (E : Z → State → Prop) P :
  ends (fun _ τ => started τ = started σ) E P (os.Mkdir path σ).
Proof. unfold os.Mkdir. rewrite bind_get. repeat case_match; done. Qed.

(** One session: what it can do to the summary and to the commands
    started, and how it can leave the process. *)
Lemma session_ends (v : list ascii) (s : Summary) (σ : State) :
  ends
    (fun s' σ' =>
       (s' = s ∧ started σ' = started σ) ∨
       (s' = mkSummary (outputDir s) (outputFiles s) (skipFilePaths s ++ [v]) ∧
        started σ' = started σ) ∨
       (∃ f cmd, s' = mkSummary (Join (Dir v) "output") (outputFiles s ++ [f])
                        (skipFilePaths s) ∧
                 started σ' = started σ ++ [cmd] ∧ f ∈ cmd.2))
    (fun code σ' =>
       (code = 0%Z ∧ started σ' = started σ ∧ prompted σ') ∨
       (code = 1%Z ∧ ∃ cmd, started σ' = started σ ++ [cmd]))
    (fun _ _ => False)
    (session v s σ).
Proof.
  unfold session.
  destruct (GetAudioAndVideo_runs v σ) as ([[video audio] e] & σ1 & Hrun & Hst & _).
  rewrite (bind_Ret _ _ _ _ _ Hrun). cbv beta iota. rewrite <- Hst. clear Hrun Hst.
  destruct e as [e|].
  { cbn. left. by destruct s. }
  unfold Exist at 1, os.ReadFile.
  rewrite bind_bind, bind_get, bind_ret, bind_bind, bind_get.
  destruct (files σ1 !! _) as [infoStr|]; [|cbn; left; by destruct s].
  rewrite bind_ret. destruct (NewJson infoStr) as [js|]; [|cbn; left; by destruct s].
  case_bool_decide; [cbn; right; by left|].
  set (dir := Join (Dir v) "output").
  set (groupDir := Join dir _).
  set (outputFile := Join groupDir _).
  eapply ends_bind; [apply Exist_ends|]. cbv beta.
  intros found ? [-> _].
  apply ends_bind with (R := fun _ τ => started τ = started σ1).
  { destruct found; cbn [negb]; [done|].
    eapply ends_bind; [apply Mkdir_ends|]. by intros. }
  intros _ σ2 H2.
  eapply ends_bind; [apply Exist_ends|]. cbv beta. intros found' ? [-> _].
  apply ends_bind with (R := fun _ τ => started τ = started σ1).
  { destruct found'; cbn [negb]; [done|].
    eapply ends_bind; [apply Mkdir_ends|]. intros [err|] σ3 H3; [|cbn; congruence].
    cbn. left. split; [done|]. split; [congruence|].
    unfold prompted. cbn. by rewrite last_snoc. }
  intros _ σ3 H3.
  destruct (Composition_runs video audio outputFile σ3) as (τ' & [Hc|Hc] & Hs).
  - rewrite (bind_Ret _ _ _ _ _ Hc). cbn. right. right.
    eexists _, _. split; [done|]. rewrite Hs, H3. split; [done|].
    cbn. unfold muxArgs. set_solver.
  - unfold bind. rewrite Hc. right. split; [done|]. eexists. by rewrite Hs, H3.
Qed.

(** The sessions in a row. *)
Lemma sessions_ends (dirs : list (list ascii)) : ∀ (s : Summary) (σ : State),
  ends
    (fun s' σ' =>
       ∃ outs skips cmds,
         outputFiles s' = outputFiles s ++ outs ∧
         skipFilePaths s' = skipFilePaths s ++ skips ∧
         started σ' = started σ ++ cmds ∧
         Forall2 (fun f cmd => f ∈ cmd.2) outs cmds ∧
         length outs + length skips ≤ length dirs ∧
         skips ⊆ dirs ∧
         (outs = [] → outputDir s' = outputDir s))
    (fun code σ' =>
       (code = 0%Z ∧ prompted σ') ∨
       (code = 1%Z ∧ length (started σ) < length (started σ')))
    (fun _ _ => False)
    (sessions dirs s σ).
Proof.
  induction dirs as [|v dirs IH]; intros s σ.
  - cbn. exists [], [], []. rewrite !app_nil_r. by split_and!.
  - cbn [sessions]. eapply ends_bind.
    { eapply ends_weaken; [apply session_ends| | |]; cbv beta.
      - intros a τ Ha. exact Ha.
      - intros c τ [(-> & _ & ?)|(-> & cmd & Hc)]; [by left|right].
        split; [done|]. rewrite Hc, length_app. cbn. lia.
      - done. }
    cbv beta. intros s1 σ1 Hs1.
    eapply ends_weaken; [apply IH| | |]; cbv beta.
    + intros s2 σ2 (outs & skips & cmds & Ho & Hk & Hc & Hf & Hl & Hsub & Hdir).
      destruct Hs1 as [[-> Hst]|[[-> Hst]|(f & cmd & -> & Hst & Hin)]]; cbn in *.
      * exists outs, skips, cmds. rewrite Hst in Hc. split_and!; try done; try lia.
        intros x Hx. apply list_elem_of_further. by apply Hsub.
      * exists outs, (v :: skips), cmds. rewrite Hst in Hc.
        rewrite <- app_assoc in Hk. split_and!; try done; try (cbn; lia).
        intros x [->|Hx]%elem_of_cons;
          [apply list_elem_of_here|apply list_elem_of_further; by apply Hsub].
      * exists (f :: outs), skips, (cmd :: cmds). rewrite Hst in Hc.
        rewrite <- app_assoc in Ho, Hc. split_and!; try done; try (by constructor); try (cbn; lia).
        intros x Hx. apply list_elem_of_further. by apply Hsub.
    + intros c σ2 [[-> ?]|[-> Hlen]]; [by left|right]. split; [done|].
      destruct Hs1 as [[_ Hst]|[[_ Hst]|(f & cmd & _ & Hst & _)]]; rewrite Hst in Hlen;
        rewrite ?length_app in Hlen; cbn in Hlen; lia.
    + done.
Qed.

(** X16. The loop of [main] over any list of session directories never
    panics.  When it returns, the output paths and the skipped paths
    of the summary have only grown, by at most one entry per session
    in all, the skipped paths added are session directories, and the
    commands handed to the system during the loop are as many as the
    output paths added, each output path being an argument of its
    command: every mux that was run is recorded as an output.  When
    the loop exits, the code is 0, or 1 after one more command was
    handed to the system. *)
Theorem sessions_record_every_command (dirs : list (list ascii)) (s : Summary) (σ : State) :
  match sessions dirs s σ with
  | Ret s' σ' =>
      ∃ outs skips cmds,
        outputFiles s' = outputFiles s ++ outs ∧
        skipFilePaths s' = skipFilePaths s ++ skips ∧
        started σ' = started σ ++ cmds ∧
        Forall2 (fun f cmd => f ∈ cmd.2) outs cmds ∧
        length outs + length skips ≤ length dirs ∧
        skips ⊆ dirs
  | Exit code σ' =>
      code = 0%Z ∨ (code = 1%Z ∧ length (started σ) < length (started σ'))
  | Panic _ _ => False
  end.
Proof.
  pose proof (sessions_ends dirs s σ) as H.
  destruct (sessions dirs s σ) as [s' σ'|code σ'|]; cbn in H; [| |done].
  - destruct H as (outs & skips & cmds & ? & ? & ? & ? & ? & ? & _).
    by exists outs, skips, cmds.
  - destruct H as [[-> _]|[-> ?]]; [by left|by right].
Qed.

(** The calls of the fragment walk start no command; only [GetVAId]
    can panic. *)
Lemma M4sToAV_returns (src dst : list ascii) (σ : State) :
  ∃ r σ', M4sToAV src dst σ = Ret r σ' ∧ started σ' = started σ.
Proof.
  unfold M4sToAV, copyFile, os.Open, os.Create, os.Seek, io.ReadAtLeast, io.Copy,
    logrus.Error, bind, ret, get, modify.
  cbn [fname offset].
  repeat case_match; simplify_eq; by do 2 eexists.
Qed.

Lemma GetVAId_ends (patch : list ascii) (σ : State) :
  ends (fun _ τ => started τ = started σ) (fun _ _ => False)
    (fun msg τ => msg = indexPanic ∧ τ = σ) (GetVAId patch σ).
Proof.
  unfold GetVAId, os.ReadFile. rewrite bind_bind, bind_get.
  destruct (files σ !! _) as [puDate|]; [|done].
  rewrite bind_ret. destruct (Unmarshal puDate) as [p|]; [|done].
  destruct (Video _); [done|]. destruct (Audio _); done.
Qed.

Lemma FindM4sFiles_ends (σ0 : State) a src info err (σ : State) :
  started σ = started σ0 →
  ends (fun _ τ => started τ = started σ0) (fun _ _ => False)
    (fun msg τ => msg = indexPanic ∧ started τ = started σ0)
    (FindM4sFiles a src info err σ).
Proof.
  intros Hσ. unfold FindM4sFiles. destruct err as [e|]; [done|].
  case_bool_decide; [|done].
  eapply ends_bind.
  { eapply ends_weaken; [apply GetVAId_ends|..]; cbv beta.
    - intros r τ Hr. exact Hr.
    - done.
    - intros m τ [-> ->]. done. }
  cbv beta. intros [videoId audioId] σ1 H1.
  destruct (M4sToAV_returns src (destination src (Name info) videoId audioId) σ1)
    as (r & σ2 & Hr & H2).
  rewrite (bind_Ret _ _ _ _ _ Hr). destruct r; cbn; congruence.
Qed.

(** How [main] ends. *)
Lemma main_ends (elapsed : Z) (σ : State) :
  ends (fun _ _ => False)
    (fun code σ' =>
       (code = 0%Z ∧ prompted σ') ∨
       (code = 1%Z ∧ length (started σ) < length (started σ')))
    (fun msg σ' => msg = indexPanic ∧ started σ' = started σ)
    (main elapsed σ).
Proof.
  unfold main. rewrite bind_get.
  assert (Hwait : ∀ τ B text,
    ends (fun (_ : B) _ => False)
      (fun code σ' => (code = 0%Z ∧ prompted σ') ∨
                      (code = 1%Z ∧ length (started σ) < length (started σ')))
      (fun msg σ' => msg = indexPanic ∧ started σ' = started σ)
      ((MessageBox text;; wait) τ)).
  { intros τ B text. cbn. left. split; [done|]. unfold prompted. cbn. by rewrite last_snoc. }
  apply ends_bind with (R := fun _ τ => started τ = started σ).
  { rewrite WalkDir_runCalls.
    apply (runCalls_ends (fun τ => started τ = started σ)); [|done].
    intros a p d e τ Hτ.
    eapply ends_weaken; [by apply (FindM4sFiles_ends σ)|..]; by cbv beta. }
  intros [err []] σ1 H1.
  apply ends_bind with (R := fun _ τ => started τ = started σ).
  { destruct err; [|done]. eapply ends_weaken; [apply Hwait|..]; done. }
  intros _ σ2 H2.
  destruct (GetCacheDir_runs (CachePath (config σ)) σ2) as (ds & err' & Hr & _).
  rewrite (bind_Ret _ _ _ _ _ Hr).
  apply ends_bind with (R := fun _ τ => started τ = started σ).
  { destruct err'; [|done]. eapply ends_weaken; [apply Hwait|..]; done. }
  intros _ σ3 H3.
  apply ends_bind with (R := fun _ τ => started τ = started σ).
  { destruct ds; [|done]. unfold Exist. cbn. by destruct (_ || _). }
  intros dirs σ4 H4.
  eapply ends_bind.
  { eapply ends_weaken; [apply sessions_ends|..]; cbv beta.
    - intros s' τ Hs. exact Hs.
    - intros c τ [?|[-> Hlen]]; [by left|right]. split; [done|]. by rewrite <- H4.
    - done. }
  cbv beta. intros s' σ5 _.
  unfold logrus.Print, logrus.Warn, wait, osExit.
  rewrite !bind_modify.
  destruct (skipFilePaths s'), (outputFiles s'); cbn; left; (split; [done|]);
    unfold prompted; cbn; by rewrite last_snoc.
Qed.

(** X17. [main], from the first walk on, never returns to its caller.  It
    exits with code 0 after the prompt of [wait], or with code 1 after
    at least one command was handed to the system, or it panics with
    the index error of [GetVAId] before any command. *)
Theorem main_never_returns (elapsed : Z) (σ : State) :
  match main elapsed σ with
  | Ret _ _ => False
  | Exit code σ' =>
      (code = 0%Z ∧ prompted σ') ∨
      (code = 1%Z ∧ length (started σ) < length (started σ'))
  | Panic msg σ' => msg = indexPanic ∧ started σ' = started σ
  end.
Proof.
  pose proof (main_ends elapsed σ) as H.
  by destruct (main elapsed σ).
Qed.


(** [os.Mkdir] touches nothing but the directory it is asked for. *)
Lemma Mkdir_frame path σ :
  ∃ r σ', os.Mkdir path σ = Ret r σ' ∧
    files σ' = files σ ∧ denied σ' = denied σ ∧ started σ' = started σ ∧
    config σ' = config σ ∧ log σ' = log σ ∧
    (∀ p, p ≠ path → (p ∈ dirs σ' ↔ p ∈ dirs σ)).
Proof.
  unfold os.Mkdir. rewrite bind_get.
  repeat case_match; do 2 eexists; (split; [reflexivity|]); cbn; split_and!; try done.
  intros p Hp. rewrite elem_of_union, elem_of_singleton. split; [by intros [?|?]|by right].
Qed.

Lemma Stat_frame σ σ' path name :
  files σ' = files σ → (∀ p, p ≠ path → (p ∈ dirs σ' ↔ p ∈ dirs σ)) → name ≠ path →
  os.Stat name σ' = os.Stat name σ.
Proof.
  intros Hf Hd Hne. unfold os.Stat. rewrite Hf.
  apply bool_decide_ext. by rewrite (Hd name Hne).
Qed.


(** X19. The same session on a disk where the group directory is missing
    and cannot be made: the failure is shown in a message box, the
    process leaves through [wait] with exit code 0, and no command is
    started. *)
Theorem session_group_dir_failure (v : list ascii) (s : Summary) (σ σ1 : State)
    (video audio infoStr : list ascii) (js : Json) :
  GetAudioAndVideo v σ = Ret (video, audio, None) σ1 →
  files σ !! (if os.Stat (Join v VideoInfoJson) σ
              then Join v VideoInfoJson else Join v VideoInfoSuffix) = Some infoStr →
  NewJson infoStr = inl js →
  uncurry Filter (GetString js "status") = "completed" →
  os.Stat (groupDirOf v js) σ = false →
  groupDirOf v js ≠ Join (Dir v) "output" →
  groupDirOf v js = [] ∨ groupDirOf v js ∈ denied σ →
  ∃ σ', session v s σ = Exit 0 σ' ∧ started σ' = started σ ∧
    ∃ l, log σ' = l ++ [(LError, "无法创建目录：" ++ groupDirOf v js);
                        (LMessageBox, "无法创建目录：" ++ groupDirOf v js);
                        (LPrint, "按回车键退出..." : gostring)].
Proof.
  intros Hwalk Hinfo Hjs Hstatus Hex Hne Hbad.
  destruct (GetAudioAndVideo_runs v σ) as (r & σ' & Hrun & Hst & Hf & Hd & Hden & _).
  rewrite Hwalk in Hrun. injection Hrun as <- <-.
  set (msg := "无法创建目录：" ++ groupDirOf v js).
  set (tail := [(LError, msg); (LMessageBox, msg); (LPrint, "按回车键退出..." : gostring)]).
  assert (H : ends (fun _ _ => False)
    (fun code τ => code = 0%Z ∧ started τ = started σ ∧ ∃ l, log τ = l ++ tail)
    (fun _ _ => False) (session v s σ)).
  { unfold session. rewrite (bind_Ret _ _ _ _ _ Hwalk). cbv beta iota.
    unfold Exist at 1. rewrite bind_bind, bind_get, bind_ret.
    rewrite (Stat_same σ σ1) by done.
    unfold os.ReadFile. rewrite bind_bind, bind_get, Hf, Hinfo, bind_ret, Hjs.
    rewrite bool_decide_eq_false_2 by (by intros ?).
    fold (groupDirOf v js). fold (outputFileOf v js).
    set (dir := Join (Dir v) "output").
    set (same := fun (_ : unit) τ =>
      started τ = started σ1 ∧ denied τ = denied σ1 ∧
      os.Stat (groupDirOf v js) τ = false).
    assert (Hex1 : os.Stat (groupDirOf v js) σ1 = false) by by rewrite (Stat_same σ σ1).
    eapply ends_bind; [apply Exist_ends|]. cbv beta. intros found ? [-> _].
    apply ends_bind with (R := same).
    { destruct found; cbn [negb]; [done|].
      destruct (Mkdir_frame dir σ1) as (r & σ2 & Hr & ? & ? & ? & _ & _ & Hdirs).
      rewrite (bind_Ret _ _ _ _ _ Hr). cbn. split_and!; try done.
      by rewrite (Stat_frame σ1 σ2 dir). }
    intros _ σ2 (Hs2 & Hd2 & Hx2).
    eapply ends_bind; [apply Exist_ends|]. cbv beta. intros found' ? [-> ->].
    rewrite Hx2. cbn [negb].
    unfold os.Mkdir. rewrite !bind_bind, bind_get, Hx2.
    rewrite bool_decide_eq_true_2 by (rewrite Hd2, Hden; destruct Hbad; [by left|by right]).
    cbn. split; [done|]. split; [congruence|]. exists (log σ2).
    by rewrite <- !app_assoc. }
  destruct (session v s σ) as [s' τ|code τ|]; cbn in H; [done| |done].
  destruct H as (-> & ? & ?). by exists τ.
Qed.

End Loop.



Lemma session_group_dir_failure_witness :
  ∃ σ', session (conver := exampleConver) (host := exampleHost oneSession (Waited None))
          "cache\s1" (mkSummary [] [] []) refusedState = Exit 0 σ' ∧
    started σ' = started refusedState ∧
    ∃ l, log σ' = l ++ [(LError, "无法创建目录：cache\output\g-u" : gostring);
                        (LMessageBox, "无法创建目录：cache\output\g-u" : gostring);
                        (LPrint, "按回车键退出..." : gostring)].
Proof.
  apply (session_group_dir_failure (conver := exampleConver)
           (host := exampleHost oneSession (Waited None))
           "cache\s1" (mkSummary [] [] []) refusedState
           (set_config (mkConfig "ffmpeg.exe" "cache" "-n" "cache\s1\s1.ass" false)
              refusedState)
           "cache\s1\100.video" "cache\s1\200.audio" (videoInfo "completed")
           (exampleObject "completed")).
  - vm_compute. reflexivity.
  - vm_compute. reflexivity.
  - vm_compute. reflexivity.
  - vm_compute. reflexivity.
  - vm_compute. reflexivity.
  - vm_compute. discriminate.
  - right. vm_compute. set_solver.
Defined.

(** * The start of the process *)


Section Start.
Context {conver : Conver} {host : Host} {desktop : Desktop}.

(** [findM4sFiles] through the calls of its walk. *)
Lemma findM4sFiles_runs (directory : list ascii) (σ : State) :
  let calls := filepath.rootCalls filepath.walkCalls directory (Tree σ directory) in
  ∃ r, findM4sFiles directory σ = Ret r σ ∧
    (r = None → fragments calls ≠ []) ∧
    (Forall (fun c => c.2 = None) calls →
     r = if bool_decide (fragments calls = [])
         then Some (ErrorString ("找不到缓存目录: " ++ directory)) else None).
Proof.
  intros calls. unfold findM4sFiles. unfold bind at 1. rewrite Walk_runCalls. fold calls.
  match goal with |- context [filepath.runCalls ?f _ _ _] => set (fn := f) end.
  assert (Hgen : ∀ cs acc,
            ∃ err found, filepath.runCalls fn cs acc σ = Ret (err, found) σ ∧
              (∃ pre, found = acc ++ pre ∧ ∀ p, p ∈ pre → p ∈ fragments cs) ∧
              (Forall (fun c => c.2 = None) cs →
               err = None ∧ found = acc ++ fragments cs)).
  { intros cs. induction cs as [|[[p d] e] cs IH]; intros acc.
    - exists None, acc. split; [done|]. split.
      + exists []. rewrite app_nil_r. split; [done|]. intros q Hq. by apply elem_of_nil in Hq.
      + intros _. by rewrite app_nil_r.
    - cbn [filepath.runCalls]. unfold fn at 1.
      destruct e as [e|].
      { exists (Some e), acc. split; [done|]. split.
        - exists []. rewrite app_nil_r. split; [done|]. intros q Hq.
          by apply elem_of_nil in Hq.
        - intros Hall. apply Forall_cons in Hall as [? _]. done. }
      assert (Hfr : fragments ((p, d, None) :: cs) =
                if IsDir d then fragments cs
                else if bool_decide (filepath.Ext p = M4sSuffix)
                     then p :: fragments cs else fragments cs).
      { unfold fragments, visitedFiles. cbn. by destruct (IsDir d). }
      rewrite Hfr. clear Hfr.
      destruct (IsDir d) eqn:Hd; cbn [negb andb].
      + rewrite bind_ret. destruct (IH acc) as (err & found & Hr & Hpre & Hres).
        exists err, found. split; [done|]. split; [done|].
        intros Hall. apply Forall_cons in Hall as [_ Hall]. by apply Hres.
      + case_bool_decide as Hx; rewrite bind_ret.
        * destruct (IH (acc ++ [p])) as (err & found & Hr & (pre & -> & Hpre) & Hres).
          exists err, (acc ++ [p] ++ pre). rewrite <- app_assoc in Hr.
          split; [done|]. split.
          -- exists (p :: pre). split; [done|]. intros q [->|Hq]%elem_of_cons;
               [apply list_elem_of_here|apply list_elem_of_further; by apply Hpre].
          -- intros Hall. apply Forall_cons in Hall as [_ Hall].
             destruct (Hres Hall) as [-> Hf]. split; [done|].
             rewrite <- !app_assoc in Hf. by apply app_inv_head in Hf as ->.
        * destruct (IH acc) as (err & found & Hr & Hpre & Hres).
          exists err, found. split; [done|]. split; [done|].
          intros Hall. apply Forall_cons in Hall as [_ Hall]. by apply Hres. }
  destruct (Hgen calls []) as (err & found & -> & (pre & -> & Hpre) & Hres).
  cbn [app] in *. destruct err as [e|].
  - exists (Some e). split; [done|]. split; [done|].
    intros Hall. by destruct (Hres Hall).
  - case_bool_decide as Hlen.
    + eexists. split; [reflexivity|]. split; [done|].
      intros Hall. destruct (Hres Hall) as [_ ->].
      apply length_zero_iff_nil in Hlen. rewrite Hlen. by rewrite bool_decide_eq_true_2.
    + exists None. split; [done|]. split.
      * intros _ Hnil. destruct pre as [|q pre]; [done|].
        specialize (Hpre q (list_elem_of_here _ _)). rewrite Hnil in Hpre.
        by apply elem_of_nil in Hpre.
      * intros Hall. destruct (Hres Hall) as [_ ->].
        rewrite bool_decide_eq_false_2; [done|]. intros Hnil. by rewrite Hnil in Hlen.
Qed.

(** X20. On a tree every part of which can be listed, [findM4sFiles]
    returns [nil] exactly when the walk visits a file, not a
    directory, whose path has the extension [M4sSuffix]; otherwise it
    returns the error that names the directory.  The state is as it
    was. *)
Theorem findM4sFiles_finds (directory : list ascii) (σ : State) :
  healthy (Tree σ directory) = true →
  findM4sFiles directory σ =
  Ret (if bool_decide (fragments (filepath.walkCalls directory (Tree σ directory)) = [])
       then Some (ErrorString ("找不到缓存目录: " ++ directory)) else None) σ.
Proof.
  intros Hh. destruct (findM4sFiles_runs directory σ) as (r & -> & _ & Hres).
  rewrite rootCalls_healthy in Hres by done.
  by rewrite (Hres (healthy_calls _ _ Hh)).
Qed.

(** [SelectDirectory] from any state that agrees with the one the
    dialog was opened in. *)
Lemma SelectDirectory_ends (answers : Dialog) : ∀ σ0 σ,
  files σ = files σ0 → dirs σ = dirs σ0 → started σ = started σ0 →
  denied σ = denied σ0 →
  sameButCachePath (config σ0) (config σ) →
  ends
    (fun _ σ' =>
       ∃ pre p post, picks answers = pre ++ p :: post ∧
         Forall (fun q => marked σ0 q = false) pre ∧ marked σ0 p = true ∧
         CachePath (config σ') = p ∧ sameButCachePath (config σ0) (config σ') ∧
         files σ' = files σ0 ∧ dirs σ' = dirs σ0 ∧ started σ' = started σ0 ∧
         denied σ' = denied σ0)
    (fun code σ' =>
       code = 1%Z ∧ Forall (fun q => marked σ0 q = false) (picks answers) ∧
       last (log σ') = Some (LWarn, "关闭对话框后自动退出程序" : gostring))
    (fun _ _ => False)
    (SelectDirectory answers σ).
Proof.
  induction answers as [|path next IH]; intros σ0 σ Hf Hd Hs Hden Hc.
  - cbn. split; [done|]. split; [constructor|]. by rewrite last_snoc.
  - cbn [SelectDirectory picks]. rewrite bind_modify.
    unfold Exist. rewrite !bind_bind, bind_get, bind_ret, !bind_bind, bind_get, bind_ret,
      !bind_bind, bind_get, bind_ret.
    assert (Hm : os.Stat (Join path VideoInfoSuffix) (setCachePath path σ)
                 || os.Stat (Join path VideoInfoJson) (setCachePath path σ)
                 || os.Stat (Join path "load_log") (setCachePath path σ)
                 = marked σ0 path).
    { unfold marked. by rewrite !(Stat_same σ0 (setCachePath path σ)). }
    rewrite Hm. destruct Hc as (? & ? & ? & ?).
    destruct (marked σ0 path) eqn:Hp.
    + cbn. exists [], path, (picks next). split_and!; try done.
    + unfold MessageBox, logrus.Error. rewrite !bind_bind, !bind_modify.
      eapply ends_weaken; [apply (IH σ0)|..]; cbv beta; try done.
      * intros _ σ' (pre & p & post & -> & Hpre & ? & ?).
        exists (path :: pre), p, post. split; [done|]. split; [by constructor|done].
      * intros code σ' (-> & Hall & Hl). split; [done|]. split; [by constructor|done].
Qed.

(** X21. [SelectDirectory], for every sequence of answers.  It returns
    with the cache path set to the first folder picked that holds one
    of the three marker files, every folder picked before it holding
    none, and with nothing else changed in the configuration, the
    files, the directories and the commands; or the dialog was closed
    before any such folder was picked, and the process exits with code
    1 after the warning.  It never panics. *)
Theorem SelectDirectory_accepts_first_marked (answers : Dialog) (σ : State) :
  match SelectDirectory answers σ with
  | Ret _ σ' =>
      ∃ pre p post, picks answers = pre ++ p :: post ∧
        Forall (fun q => marked σ q = false) pre ∧ marked σ p = true ∧
        CachePath (config σ') = p ∧ sameButCachePath (config σ) (config σ') ∧
        files σ' = files σ ∧ dirs σ' = dirs σ ∧ started σ' = started σ
  | Exit code σ' =>
      code = 1%Z ∧ Forall (fun q => marked σ q = false) (picks answers) ∧
      last (log σ') = Some (LWarn, "关闭对话框后自动退出程序" : gostring)
  | Panic _ _ => False
  end.
Proof.
  pose proof (SelectDirectory_ends answers σ σ) as H.
  specialize (H eq_refl eq_refl eq_refl eq_refl ltac:(by split_and!)).
  destruct (SelectDirectory answers σ) as [[] σ'|code σ'|]; cbn in H; [|done..].
  destruct H as (pre & p & post & ? & ? & ? & ? & ? & ? & ? & ? & _).
  by exists pre, p, post.
Qed.

(** X22. [GetCachePath] never panics and exits only with code 1, when the
    dialog is closed.  When it returns, the files, the directories,
    the commands and the rest of the configuration are as before, and
    the cache path is unchanged when the current user is unknown, and
    otherwise is either the default [HomeDir/Videos/bilibili], under
    which a fragment was found, or a folder the user picked that holds
    a marker file. *)
Theorem GetCachePath_outcome (answers : Dialog) (σ : State) :
  match GetCachePath answers σ with
  | Ret _ σ' =>
      files σ' = files σ ∧ dirs σ' = dirs σ ∧ started σ' = started σ ∧
      sameButCachePath (config σ) (config σ') ∧
      match Current with
      | inr _ => CachePath (config σ') = CachePath (config σ)
      | inl HomeDir =>
          let d := videosDirOf HomeDir in
          (CachePath (config σ') = d ∧
           fragments (filepath.rootCalls filepath.walkCalls d (Tree σ d)) ≠ []) ∨
          (marked σ (CachePath (config σ')) = true ∧
           CachePath (config σ') ∈ picks answers)
      end
  | Exit code σ' => code = 1%Z ∧ Forall (fun q => marked σ q = false) (picks answers)
  | Panic _ _ => False
  end.
Proof.
  unfold GetCachePath. destruct Current as [HomeDir|e].
  - fold (videosDirOf HomeDir). set (d := videosDirOf HomeDir).
    destruct (findM4sFiles_runs d σ) as (r & Hr & Hfound & _).
    rewrite (bind_Ret _ _ _ _ _ Hr). destruct r as [e|].
    + unfold MessageBox, logrus.Error. rewrite !bind_bind, !bind_modify.
      match goal with |- context [SelectDirectory answers ?τ] =>
        pose proof (SelectDirectory_ends answers σ τ eq_refl eq_refl eq_refl eq_refl
                      ltac:(by split_and!)) as H;
        destruct (SelectDirectory answers τ) as [[] σ'|code σ'|]; cbn in H; [| |done]
      end.
      * destruct H as (pre & p & post & Hp & ? & ? & <- & ? & ? & ? & ? & _).
        split_and!; try done. right. split; [done|].
        rewrite Hp. apply elem_of_app. right. apply list_elem_of_here.
      * by destruct H as (? & ? & _).
    + cbn. split_and!; try done. left. split; [done|]. by apply Hfound.
  - cbn. by split_and!.
Qed.

(** [DecFile]: it returns, and touches at most the file that the name
    [ffmpeg.exe] denotes. *)
Lemma DecFile_runs (σ : State) :
  ∃ r σ', DecFile σ = Ret r σ' ∧
    config σ' = config σ ∧ dirs σ' = dirs σ ∧ denied σ' = denied σ ∧
    started σ' = started σ ∧ log σ' = log σ ∧
    (∀ p, p ≠ Abs FFmpegName → files σ' !! p = files σ !! p) ∧
    (∀ data, ReadEmbedded FFmpegName = inl data →
       Abs FFmpegName ≠ [] → Abs FFmpegName ∉ dirs σ → Abs FFmpegName ∉ denied σ →
       r = None ∧ files σ' = <[Abs FFmpegName := data]> (files σ)).
Proof.
  unfold DecFile, WriteFile. destruct (ReadEmbedded FFmpegName) as [data|e].
  - rewrite bind_get. case_bool_decide as Hd.
    + do 2 eexists. split; [reflexivity|]. split_and!; try done.
      intros data' _ H1 H2 H3. destruct Hd as [?|[?|?]]; done.
    + do 2 eexists. split; [reflexivity|]. cbn. split_and!; try done.
      * intros p Hp. by rewrite lookup_insert_ne.
      * by intros data' [= <-] _ _ _.
  - do 2 eexists. split; [reflexivity|]. split_and!; try done.
Qed.


(** X23. The command is beside the program and its digest is the expected
    one: [GetFFmpegPath] sets the path, releases nothing and logs
    nothing. *)
Theorem GetFFmpegPath_keeps_valid_binary (file : list ascii) (σ : State) :
  files σ !! ffmpegPath = Some file →
  Sum256 file = FileHashValue →
  GetFFmpegPath σ = Ret tt (setFFMpegPath ffmpegPath σ).
Proof.
  intros Hf Hh. unfold GetFFmpegPath. fold ffmpegPath. rewrite bind_modify.
  unfold Exist. rewrite !bind_bind, bind_get, bind_ret.
  rewrite (Stat_file _ _ file) by done. cbn [negb]. rewrite !bind_ret.
  unfold FileHashCompare, os.ReadFile. rewrite ?bind_bind, bind_get, ?bind_bind, bind_get.
  cbn [setFFMpegPath config set_config files FFMpegPath]. rewrite Hf, !bind_ret.
  by rewrite bool_decide_eq_true_2.
Qed.

(** X24. No command beside the program, and the name [ffmpeg.exe] denotes
    the path beside the program, where a file can be made: after
    [GetFFmpegPath] the file there is the embedded one.  It is
    released once when its digest is the expected one and twice when
    it is not, and it is not checked again after the second
    release. *)
Theorem GetFFmpegPath_releases_missing_binary (data : list ascii) (σ : State) :
  os.Stat ffmpegPath σ = false →
  Abs FFmpegName = ffmpegPath →
  ReadEmbedded FFmpegName = inl data →
  ffmpegPath ≠ [] → ffmpegPath ∉ denied σ →
  ∃ σ', GetFFmpegPath σ = Ret tt σ' ∧
    files σ' = <[ffmpegPath := data]> (files σ) ∧
    log σ' = log σ ++
      (LInfo, "第一次运行,自动释放ffmpeg.exe" : gostring)
      :: (if bool_decide (Sum256 data = FileHashValue) then []
          else [(LInfo, "文件不完整,重新释放ffmpeg.exe" : gostring)]).
Proof.
  intros Hst Habs Hemb H1 H3.
  assert (H2 : ffmpegPath ∉ dirs σ).
  { intros Hd. unfold os.Stat in Hst. apply bool_decide_eq_false in Hst.
    apply Hst. by right. }
  unfold GetFFmpegPath. fold ffmpegPath. rewrite bind_modify.
  unfold Exist. rewrite !bind_bind, bind_get, bind_ret.
  set (σ0 := setFFMpegPath ffmpegPath σ).
  change (os.Stat ffmpegPath σ0) with (os.Stat ffmpegPath σ). rewrite Hst. cbn [negb].
  unfold logrus.Info at 1. rewrite !bind_bind, bind_modify.
  set (σ1 := add_log LInfo _ σ0).
  destruct (DecFile_runs σ1) as (r & σ2 & Hr & Hc2 & Hd2 & Hden2 & Hs2 & Hl2 & _ & Hok).
  rewrite Habs in Hok. destruct (Hok data Hemb H1 H2 H3) as [-> Hf2].
  rewrite bind_bind, (bind_Ret _ _ _ _ _ Hr), !bind_ret.
  unfold FileHashCompare, os.ReadFile. rewrite ?bind_bind, bind_get, ?bind_bind, bind_get.
  rewrite Hc2. cbn [σ1 σ0 setFFMpegPath config set_config add_log FFMpegPath].
  rewrite Hf2. cbn [σ1 σ0 setFFMpegPath files set_config add_log].
  rewrite lookup_insert_eq, !bind_ret.
  case_bool_decide as Hh; cbn [negb].
  - exists σ2. split; [done|]. split; [done|]. rewrite Hl2.
    by rewrite bool_decide_eq_true_2.
  - unfold logrus.Info. rewrite bind_modify.
    set (σ3 := add_log LInfo _ σ2).
    destruct (DecFile_runs σ3) as (r & σ4 & Hr4 & _ & _ & _ & _ & Hl4 & _ & Hok4).
    rewrite Habs in Hok4.
    destruct (Hok4 data Hemb H1) as [-> Hf4].
    { cbn. by rewrite Hd2. }
    { cbn. by rewrite Hden2. }
    rewrite (bind_Ret _ _ _ _ _ Hr4). exists σ4. split; [done|]. split.
    + rewrite Hf4. cbn. rewrite Hf2. cbn. by rewrite insert_insert_eq.
    + rewrite Hl4. cbn. rewrite Hl2. cbn.
      rewrite bool_decide_eq_false_2 by done. by rewrite <- app_assoc.
Qed.



(** X25. [InitConfig] depends on the command line only through [-o] and
    [-v]: two command lines that [flag.Parse] accepts and that agree
    on these two flags give the same run.  The values of [-a], [-f]
    and [-c] are read through their pointers before [flag.Parse] has
    run, so they are the defaults whatever the command line says. *)
Theorem InitConfig_reads_two_flags (args args' : list (list ascii)) (answers : Dialog)
    (f f' : flag.FlagSet) (σ : State) :
  flag.Parse definedFlags args = inl f →
  flag.Parse definedFlags args' = inl f' →
  flag.boolAt f "o" = flag.boolAt f' "o" →
  flag.boolAt f "v" = flag.boolAt f' "v" →
  InitConfig args answers σ = InitConfig args' answers σ.
Proof.
  intros Hp Hp' Ho Hv. unfold InitConfig.
  cbn [flag.Bool flag.String].
  change (<[_ := _]> (<[_ := _]> (<[_ := _]> (<[_ := _]> (<[_ := _]> ∅)))))
    with definedFlags.
  by rewrite Hp, Hp', Ho, Hv.
Qed.



End Start.

Lemma findM4sFiles_finds_witness :
  findM4sFiles (conver := exampleConver) (host := twoFragmentsHost) "cache"
    twoFragmentsState
  = Ret None twoFragmentsState.
Proof.
  apply (findM4sFiles_finds (conver := exampleConver) (host := twoFragmentsHost)
           "cache" twoFragmentsState).
  reflexivity.
Defined.

Lemma GetFFmpegPath_keeps_valid_binary_witness :
  GetFFmpegPath (host := exampleHost oneSession (Waited None)) (desktop := exampleDesktop)
    (exampleState (<[("C:\m4s\ffmpeg.exe" : gostring) := ("MZ" : gostring)]> ∅))
  = Ret tt
      (setFFMpegPath "C:\m4s\ffmpeg.exe"
         (exampleState (<[("C:\m4s\ffmpeg.exe" : gostring) := ("MZ" : gostring)]> ∅))).
Proof.
  apply (GetFFmpegPath_keeps_valid_binary (host := exampleHost oneSession (Waited None))
           (desktop := exampleDesktop) "MZ"
           (exampleState (<[("C:\m4s\ffmpeg.exe" : gostring) := ("MZ" : gostring)]> ∅))).
  - reflexivity.
  - reflexivity.
Defined.

Lemma GetFFmpegPath_releases_missing_binary_witness :
  ∃ σ', GetFFmpegPath (host := exampleHost oneSession (Waited None))
          (desktop := exampleDesktop) (exampleState ∅) = Ret tt σ' ∧
    files σ' = <[("C:\m4s\ffmpeg.exe" : gostring) := ("MZ" : gostring)]>
                 (files (exampleState ∅)) ∧
    log σ' = log (exampleState ∅) ++
             [(LInfo, "第一次运行,自动释放ffmpeg.exe" : gostring)].
Proof.
  apply (GetFFmpegPath_releases_missing_binary
           (host := exampleHost oneSession (Waited None)) (desktop := exampleDesktop)
           "MZ" (exampleState ∅)).
  - reflexivity.
  - reflexivity.
  - reflexivity.
  - vm_compute. discriminate.
  - vm_compute. set_solver.
Defined.

Lemma InitConfig_reads_two_flags_witness :
  InitConfig (conver := exampleConver) (host := exampleHost oneSession (Waited None))
    (desktop := exampleDesktop)
    [ "-a" : gostring; "-f" : gostring; "D:\ffmpeg.exe" : gostring;
      "-c" : gostring; "D:\cache" : gostring ]
    Close (exampleState ∅)
  = InitConfig (conver := exampleConver) (host := exampleHost oneSession (Waited None))
      (desktop := exampleDesktop) [] Close (exampleState ∅).
Proof.
  eapply (InitConfig_reads_two_flags (conver := exampleConver)
            (host := exampleHost oneSession (Waited None)) (desktop := exampleDesktop)
            [ "-a" : gostring; "-f" : gostring; "D:\ffmpeg.exe" : gostring;
              "-c" : gostring; "D:\cache" : gostring ]
            [] Close _ _ (exampleState ∅)).
  - vm_compute. reflexivity.
  - vm_compute. reflexivity.
  - vm_compute. reflexivity.
  - vm_compute. reflexivity.
Defined.



(** * [Filter], once more *)

(** Every rule of [Filter] replaces a forbidden character. *)
Lemma rule_forbidden r : r ∈ filter_rules → r.1 ≠ [] ∧ r.1 ∈ forbidden.
Proof.
  unfold filter_rules, forbidden. intros Hr.
  repeat (apply elem_of_cons in Hr as [->|Hr]); [..|by apply elem_of_nil in Hr];
    (split; [done|]); cbn [fst];
    repeat first [apply list_elem_of_here | apply list_elem_of_further].
Qed.

(** X28. The names [Filter] leaves as they are are exactly the names that
    contain none of the eleven forbidden characters and whose first
    and last runes are no space. *)
Theorem Filter_fixed_points (name : list ascii) (err : option error) :
  Filter name err = name ↔
  (∀ p, p ∈ forbidden → ¬ occurs p name) ∧ trimmed name.
Proof.
  split.
  - intros H. split.
    + intros p Hp. rewrite <- H. destruct (forbidden_rule p Hp) as [n Hn].
      apply (Filter_clean name err (p, n) Hn).
    + rewrite <- H, Filter_chain.
      by destruct (TrimSpace_spec (replaceChain filter_rules name)) as (_ & _ & _ & Ht).
  - intros [Hc Ht]. rewrite Filter_chain, replaceChain_absent; [by apply TrimSpace_fix|].
    intros r Hr. destruct (rule_forbidden r Hr) as [Hne Hf]. split; [done|]. by apply Hc.
Qed.
